(** * stablecoin_premiums.compute: premium and spread computation

    A shallow embedding of [src/stablecoin_premiums/compute.py] and the
    properties of its operations: [_validate_positive], [compute_premium],
    [compute_spread], [_maybe_round] and [compute_premiums].

    The Python code is written against the float interface ([float(value)],
    [<=], [-], [/], [*], [round], string formatting).  The embedding keeps
    that interface as a type class, [PyFloat], and the functions are
    written once over it.  Two instances are given:

    - [Binary64]: Rocq's primitive binary64 floats, the arithmetic the
      interpreter performs, with not-a-number, the infinities and the
      signed zeros; the builtins [round] and [repr] are modelled on the
      exact values of floats;
    - [Exact]: the rationals [Q], the same code run in exact arithmetic.
      Every finite float is a rational, so this is the code on the exact
      values of its inputs, without the rounding of each operation; it is
      the reading of the statements made for all positive real rates.

    Statements on validation, on the order of the checks and on the shape
    of the results hold for every instance with lawful comparisons.
    Values of examples are computed on [Binary64]; the sign of the results
    and the properties of decimal rounding are proved on [Exact] and, from
    the definitions of the binary64 operations, on [Binary64]. *)

From Stdlib Require Import ZArith QArith Qabs Lia Lqa Bool String Ascii List.
From Stdlib Require Import Qround Qpower DecimalString Floats.
From Stdlib Require Import Permutation Sorted.

Set Warnings "-inexact-float".
Import ListNotations.

Local Open Scope string_scope.
Local Open Scope Z_scope.

(** ** Exceptions and the error monad *)

(** The exceptions the module can raise.  [ValueError] carries its message.
    What the specification calls InvalidRateError is the [ValueError]
    raised by [_validate_positive]. *)
Inductive PyError : Type :=
| ValueError (msg : string)
| TypeError
| ZeroDivisionError
| OverflowError (msg : string).

Inductive result (A : Type) : Type :=
| Ok (a : A)
| Raise (e : PyError).

Arguments Ok {A} a.
Arguments Raise {A} e.

Definition bind {A B : Type} (c : result A) (k : A -> result B) : result B :=
  match c with
  | Ok a => k a
  | Raise e => Raise e
  end.

Declare Scope py_scope.
Delimit Scope py_scope with py.
Notation "x <- c ;; k" := (bind c (fun x => k))
  (at level 61, c at next level, right associativity) : py_scope.
Notation "c ;; k" := (bind c (fun _ => k))
  (at level 61, right associativity) : py_scope.
Local Open Scope py_scope.

(** [raises_ValueError c]: the call ended in a [ValueError]. *)
Definition raises_ValueError {A : Type} (c : result A) : Prop :=
  exists msg, c = Raise (ValueError msg).

(** ** The float interface *)

(** The operations of Python's [float] that the module uses.  [f_round x n]
    is the builtin [round(x, n)], which can raise [OverflowError];
    [f_repr] is the text that an f-string prints for a float. *)
Class PyFloat (F : Type) : Type := {
  f_zero : F;
  f_one : F;
  f_hundred : F;
  f_sub : F -> F -> F;
  f_mul : F -> F -> F;
  f_div : F -> F -> F;
  f_leb : F -> F -> bool;
  f_ltb : F -> F -> bool;
  f_eqb : F -> F -> bool;
  f_round : F -> Z -> result F;
  f_repr : F -> string
}.

(** What the proofs need of the comparisons with zero: a value strictly
    above zero is not [<= 0]; a value that is not [<= 0] is not equal to
    zero; zero is [<= 0]. *)
Class PyFloatLaws (F : Type) `{PyFloat F} : Prop := {
  f_pos_not_le : forall x : F, f_ltb f_zero x = true -> f_leb x f_zero = false;
  f_not_le_not_zero : forall x : F, f_leb x f_zero = false -> f_eqb x f_zero = false;
  f_zero_le : f_leb f_zero f_zero = true
}.

(** ** Values *)

(** An argument as the caller can pass it: [None], a float, or an object
    that [float()] refuses with [TypeError] or [ValueError] (a list, a
    dict, a non-numeric string), kept by its printed form. *)
Inductive PyValue (F : Type) : Type :=
| PyNone
| PyNum (x : F)
| PyOther (printed : string).

Arguments PyNone {F}.
Arguments PyNum {F} x.
Arguments PyOther {F} printed.

Section Engine.

Context {F : Type} `{PyFloat F}.

(** The text an f-string prints for a value. *)
Definition py_str (value : PyValue F) : string :=
  match value with
  | PyNone => "None"
  | PyNum x => f_repr x
  | PyOther printed => printed
  end.

(** [float(value)]: [TypeError] on [None] and on the objects that have
    no conversion. *)
Definition py_float (value : PyValue F) : result F :=
  match value with
  | PyNum x => Ok x
  | PyNone => Raise TypeError
  | PyOther _ => Raise TypeError
  end.

(** [a - b] on two arguments. *)
Definition py_sub (a b : PyValue F) : result F :=
  match a, b with
  | PyNum x, PyNum y => Ok (f_sub x y)
  | _, _ => Raise TypeError
  end.

(** [a / b]: Python raises [ZeroDivisionError] on a zero divisor. *)
Definition py_truediv (a b : PyValue F) : result F :=
  match a, b with
  | PyNum x, PyNum y =>
    if f_eqb y f_zero then Raise ZeroDivisionError else Ok (f_div x y)
  | _, _ => Raise TypeError
  end.

(** [Premiums]: the frozen dataclass of the three outputs. *)
Record Premiums : Type := mkPremiums {
  stablecoin_sell_premium : F;
  stablecoin_buy_premium : F;
  stablecoin_buy_sell_spread : F
}.

(** [Premiums.to_dict]: the fields by name, in declaration order. *)
Definition to_dict (p : Premiums) : list (string * F) :=
  [ ("stablecoin_sell_premium", stablecoin_sell_premium p);
    ("stablecoin_buy_premium", stablecoin_buy_premium p);
    ("stablecoin_buy_sell_spread", stablecoin_buy_sell_spread p) ].

(** [_validate_positive(name, value)] *)
Definition _validate_positive (name : string) (value : PyValue F) : result unit :=
  match value with
  | PyNone => Raise (ValueError (name ++ " must not be None"))
  | _ =>
    match py_float value with
    | Raise TypeError | Raise (ValueError _) =>
      Raise (ValueError (name ++ " must be a number"))
    | Raise e => Raise e
    | Ok v =>
      if f_leb v f_zero
      then Raise (ValueError (name ++ " must be > 0; got " ++ f_repr v))
      else Ok tt
    end
  end.

(** [compute_premium(numerator_rate, denominator_rate)] *)
Definition compute_premium (numerator_rate denominator_rate : PyValue F) : result F :=
  _validate_positive "numerator_rate" numerator_rate ;;
  _validate_positive "denominator_rate" denominator_rate ;;
  q <- py_truediv numerator_rate denominator_rate ;;
  Ok (f_mul (f_sub q f_one) f_hundred).

(** [compute_spread(buy_rate, sell_rate)] *)
Definition compute_spread (buy_rate sell_rate : PyValue F) : result F :=
  _validate_positive "buy_rate" buy_rate ;;
  _validate_positive "sell_rate" sell_rate ;;
  d <- py_sub buy_rate sell_rate ;;
  q <- py_truediv (PyNum d) sell_rate ;;
  Ok (f_mul q f_hundred).

(** [_maybe_round(value, decimals)] *)
Definition _maybe_round (value : F) (decimals : option Z) : result F :=
  match decimals with
  | None => Ok value
  | Some d => f_round value d
  end.

(** [compute_premiums(sell_rate, buy_rate, fx_bid, fx_ask, decimals=None)],
    all arguments by keyword. *)
Definition compute_premiums (sell_rate buy_rate fx_bid fx_ask : PyValue F)
    (decimals : option Z) : result Premiums :=
  _validate_positive "sell_rate" sell_rate ;;
  _validate_positive "buy_rate" buy_rate ;;
  _validate_positive "fx_bid" fx_bid ;;
  _validate_positive "fx_ask" fx_ask ;;
  sell_premium <- compute_premium sell_rate fx_bid ;;
  buy_premium <- compute_premium buy_rate fx_ask ;;
  spread <- compute_spread buy_rate sell_rate ;;
  sell_premium <- _maybe_round sell_premium decimals ;;
  buy_premium <- _maybe_round buy_premium decimals ;;
  spread <- _maybe_round spread decimals ;;
  Ok (mkPremiums sell_premium buy_premium spread).

End Engine.

Arguments Premiums F : clear implicits.

(** ** Exact decimal rounding *)

Local Open Scope Q_scope.

(** The integer nearest to [q], a tie going to the even one. *)
Definition Qround_half_even (q : Q) : Z :=
  let n := Qnum q in
  let d := Zpos (Qden q) in
  let fl := (n / d)%Z in
  match (2 * (n mod d) ?= d)%Z with
  | Lt => fl
  | Gt => (fl + 1)%Z
  | Eq => if Z.even fl then fl else (fl + 1)%Z
  end.

Definition pow10 (n : Z) : Q := (10 # 1) ^ n.

(** [q] rounded to [ndigits] digits after the decimal point (before it
    when [ndigits] is negative), ties to even. *)
Definition round_decimal (q : Q) (ndigits : Z) : Q :=
  inject_Z (Qround_half_even (q * pow10 ndigits)) / pow10 ndigits.

(** The sign of a rational: [-1], [0] or [1]. *)
Definition Qsgn (q : Q) : Z :=
  match Qcompare q 0 with
  | Lt => (-1)%Z
  | Eq => 0%Z
  | Gt => 1%Z
  end.

(** ** Binary64: the values of floats and the builtins on them *)

(** The rational a finite float stands for ([0] for the others). *)
Definition SF2Q (x : spec_float) : Q :=
  match x with
  | S754_finite s m e => inject_Z (if s then Zneg m else Zpos m) * (2 # 1) ^ e
  | _ => 0
  end.

Definition float_value (x : float) : Q := SF2Q (Prim2SF x).

(** The float nearest to [q] (ties to even, overflow to an infinity);
    [szero] is the sign given to a zero [q]. *)
Definition Q2SF (szero : bool) (q : Q) : spec_float :=
  match Qnum q with
  | Z0 => S754_zero szero
  | Zpos n => SFdiv prec emax (S754_finite false n 0) (S754_finite false (Qden q) 0)
  | Zneg n => SFdiv prec emax (S754_finite true n 0) (S754_finite false (Qden q) 0)
  end.

Definition float_of_Q (szero : bool) (q : Q) : float := SF2Prim (Q2SF szero q).

(** The bounds on [ndigits] of CPython's [float.__round__]. *)
Definition NDIGITS_MAX : Z := 323.
Definition NDIGITS_MIN : Z := -308.

(** The builtin [round(x, ndigits)] on a float: not-a-number and the
    infinities round to themselves; otherwise the exact value is rounded
    to the decimal digit, ties to even, and converted back to the nearest
    float, with [OverflowError] when that is out of range. *)
Definition float_round (x : float) (ndigits : Z) : result float :=
  if negb (is_finite x) then Ok x
  else if (NDIGITS_MAX <? ndigits)%Z then Ok x
  else if (ndigits <? NDIGITS_MIN)%Z then Ok (0 * x)%float
  else
    let rounded := float_of_Q (get_sign x) (round_decimal (float_value x) ndigits) in
    if is_infinity rounded
    then Raise (OverflowError "rounded value too large to represent")
    else Ok rounded.

(** *** The shortest text of a float *)

Definition digits_of (n : Z) : string := NilZero.string_of_uint (N.to_uint (Z.to_N n)).

Fixpoint zeros (n : nat) : string :=
  match n with
  | O => ""
  | S n' => String "0" (zeros n')
  end.

(** The decimal exponent of a positive [q], searched upwards from [e]:
    the [e] with [10^e <= q < 10^(e+1)]. *)
Fixpoint decimal_exponent_from (fuel : nat) (q : Q) (e : Z) : Z :=
  match fuel with
  | O => e
  | S fuel' =>
    if Qle_bool (pow10 (e + 1)) q
    then decimal_exponent_from fuel' q (e + 1)
    else e
  end.

Definition decimal_exponent (q : Q) : Z := decimal_exponent_from 700 q (-324).

(** Among the decimals [n * 10^ex] with [k] digits next to [q], the one
    nearest to [q] that reads back as the float [x], when there is one. *)
Definition shortest_candidate (x : float) (q : Q) (e10 k : Z) : option (Z * Z) :=
  let ex := (e10 - k + 1)%Z in
  let scaled := q / pow10 ex in
  let lo := Qfloor scaled in
  let hi := (lo + 1)%Z in
  let reads_back n := Leibniz.eqb (float_of_Q false (inject_Z n * pow10 ex)) x in
  match reads_back lo, reads_back hi with
  | true, true =>
    match 2 * scaled ?= inject_Z (lo + hi) with
    | Lt => Some (lo, ex)
    | Gt => Some (hi, ex)
    | Eq => Some (if Z.even lo then lo else hi, ex)
    end
  | true, false => Some (lo, ex)
  | false, true => Some (hi, ex)
  | false, false => None
  end.

Fixpoint shortest_from (fuel : nat) (x : float) (q : Q) (e10 k : Z) : Z * Z :=
  match fuel with
  | O => (Qfloor (q / pow10 (e10 - k + 1)), e10 - k + 1)%Z
  | S fuel' =>
    match shortest_candidate x q e10 k with
    | Some c => c
    | None => shortest_from fuel' x q e10 (k + 1)
    end
  end.

Fixpoint strip_zeros (fuel : nat) (n ex : Z) : Z * Z :=
  match fuel with
  | O => (n, ex)
  | S fuel' =>
    if ((n mod 10 =? 0) && negb (n =? 0))%Z
    then strip_zeros fuel' (n / 10)%Z (ex + 1)%Z
    else (n, ex)
  end.

(** The digits and the position of the decimal point of the shortest
    decimal that reads back as the positive finite float [x]. *)
Definition shortest_digits (x : float) : string * Z :=
  let q := float_value x in
  let '(n, ex) := shortest_from 17 x q (decimal_exponent q) 1 in
  let '(n, ex) := strip_zeros 20 n ex in
  let ds := digits_of n in
  (ds, ex + Z.of_nat (String.length ds))%Z.

Definition exponent_text (e : Z) : string :=
  let ds := digits_of (Z.abs e) in
  (if (e <? 0)%Z then "-" else "+") ++
  (if (String.length ds <? 2)%nat then "0" ++ ds else ds).

Definition format_digits (ds : string) (decpt : Z) : string :=
  let len := String.length ds in
  if ((decpt <=? -4) || (16 <? decpt))%Z then
    substring 0 1 ds ++
    (if (1 <? len)%nat then "." ++ substring 1 (len - 1) ds else "") ++
    "e" ++ exponent_text (decpt - 1)
  else if (decpt <=? 0)%Z then
    "0." ++ zeros (Z.to_nat (- decpt)) ++ ds
  else if (decpt <? Z.of_nat len)%Z then
    substring 0 (Z.to_nat decpt) ds ++ "." ++
    substring (Z.to_nat decpt) (len - Z.to_nat decpt) ds
  else
    ds ++ zeros (Z.to_nat decpt - len) ++ ".0".

(** [repr(x)], the text an f-string prints for the float [x]. *)
Definition float_repr (x : float) : string :=
  if is_nan x then "nan"
  else
    (if get_sign x then "-" else "") ++
    (if is_infinity x then "inf"
     else if is_zero x then "0.0"
     else let '(ds, decpt) := shortest_digits (abs x) in format_digits ds decpt).

(** ** The two instances *)

(** Python's floats. *)
#[export] Instance Binary64 : PyFloat float := {
  f_zero := 0%float;
  f_one := 1%float;
  f_hundred := 100%float;
  f_sub := PrimFloat.sub;
  f_mul := PrimFloat.mul;
  f_div := PrimFloat.div;
  f_leb := PrimFloat.leb;
  f_ltb := PrimFloat.ltb;
  f_eqb := PrimFloat.eqb;
  f_round := float_round;
  f_repr := float_repr
}.

(** The text of a rational, as a fraction. *)
Definition Q_repr (q : Q) : string :=
  (if (Qnum q <? 0)%Z then "-" else "") ++
  digits_of (Z.abs (Qnum q)) ++ "/" ++ digits_of (Zpos (Qden q)).

(** Exact arithmetic: the same operations on rationals, none of them
    rounded but [f_round]. *)
#[export] Instance Exact : PyFloat Q := {
  f_zero := 0;
  f_one := 1;
  f_hundred := 100;
  f_sub := Qminus;
  f_mul := Qmult;
  f_div := Qdiv;
  f_leb := Qle_bool;
  f_ltb := fun x y => negb (Qle_bool y x);
  f_eqb := Qeq_bool;
  f_round := fun q ndigits => Ok (round_decimal q ndigits);
  f_repr := Q_repr
}.

(** The sign of a float: [-1], [0] or [1] ([0] for not-a-number). *)
Definition float_sgn (x : float) : Z :=
  if (0 <? x)%float then 1%Z else if (x <? 0)%float then (-1)%Z else 0%Z.

(** ** Substrings *)

(** [contains p s]: [p] occurs in [s]. *)
Fixpoint contains (p s : string) : bool :=
  prefix p s ||
  match s with
  | EmptyString => false
  | String _ s' => contains p s'
  end.

(** ** What the statements below speak of *)

(** [x <= 0] on floats, read on the specification of [x]. *)
Definition SF_nonpositive (x : spec_float) : bool :=
  match x with
  | S754_zero _ => true
  | S754_infinity s => s
  | S754_nan => false
  | S754_finite s _ _ => s
  end.

(** [approx tol expected x]: the float [x] is finite and within the
    relative tolerance [tol] of the decimal [expected]. *)
Definition approx (tol expected : Q) (x : float) : bool :=
  is_finite x &&
  Qle_bool (Qabs (float_value x - expected)) (tol * Qabs expected).

(** The tolerance of the tests: [1e-9], relative. *)
Definition tol9 : Q := 1 # 1000000000.

(** An error message names an argument when it starts with its name, and
    carries a value when the value's text occurs in it. *)
Definition names_argument (name msg : string) : Prop := prefix name msg = true.

Definition carries_value {F : Type} `{PyFloat F} (value : PyValue F) (msg : string) : Prop :=
  contains (py_str value) msg = true.

(** The least magnitude that [ndigits] decimal digits tell from zero:
    half a unit of the last digit. *)
Definition half_unit (ndigits : Z) : Q := (1 # 2) * pow10 (- ndigits).

(** The inputs of the docstring's example. *)
Definition ex_sell_rate : float := 18.95%float.
Definition ex_buy_rate : float := 18.70%float.
Definition ex_fx : float := 17.12%float.

(** ** What the proofs on binary64 arithmetic speak of *)

Local Open Scope Z_scope.

(** [has_sign s y]: [y] is an infinity or a finite float of sign [s]
    ([true] for minus), hence not zero. *)
Definition has_sign (s : bool) (y : spec_float) : Prop :=
  match y with
  | S754_finite s' _ _ | S754_infinity s' => s' = s
  | _ => False
  end.

(** [loc_ok a b m l]: the rational [a / b] lies in [[m, m + 1)], at the
    place that the location [l] tells. *)
Definition loc_ok (a b m : Z) (l : location) : Prop :=
  0 < b /\ m * b <= a < (m + 1) * b /\
  match l with
  | loc_Exact => a = m * b
  | loc_Inexact Lt => m * b < a /\ 2 * a < (2 * m + 1) * b
  | loc_Inexact Eq => 2 * a = (2 * m + 1) * b
  | loc_Inexact Gt => (2 * m + 1) * b < 2 * a
  end.

(** The same for a record of [shr]: mantissa, round bit and sticky bit. *)
Definition rec_ok (a b : Z) (mrs : shr_record) : Prop :=
  0 <= shr_m mrs /\ loc_ok a b (shr_m mrs) (loc_of_shr_record mrs).

(** The end of [binary_round_aux]: the rounded mantissa [M2] at the
    exponent [e1], renormalised. *)
Definition round_tail (s : bool) (M2 e1 : Z) : spec_float :=
  match M2 / 2 ^ Z.max 0 (fexp prec emax (Zdigits2 M2 + e1) - e1) with
  | Z0 => S754_zero s
  | Zpos m =>
    if e1 + Z.max 0 (fexp prec emax (Zdigits2 M2 + e1) - e1) <=? 971
    then S754_finite s m (e1 + Z.max 0 (fexp prec emax (Zdigits2 M2 + e1) - e1))
    else S754_infinity s
  | Zneg _ => S754_nan
  end.

(** The order of positive finite floats given by exponent, then mantissa. *)
Definition lex_lt (ma : positive) (ea : Z) (mb : positive) (eb : Z) : Prop :=
  ea < eb \/ (ea = eb /\ Zpos ma < Zpos mb).

(** [magnitude s d y]: [y] is an infinity of sign [s], or a finite float of
    sign [s] whose digits and exponent add up to [d] at least. *)
Definition magnitude (s : bool) (d : Z) (y : spec_float) : Prop :=
  match y with
  | S754_infinity s' => s' = s
  | S754_finite s' m e => s' = s /\ d <= Zpos (digits2_pos m) + e
  | _ => False
  end.

Local Open Scope Q_scope.

(** * Properties *)

(** ** Strings of the command line and of the environment

    A Python [str] is taken with characters of code below 256, which
    covers the fiat codes, the URLs and the values of the environment
    that the package reads. *)

(** [c.isspace()]: the tabulations and line ends 9 to 13, the separators
    28 to 31, the space, and the codes 133 and 160. *)
Definition py_isspace (c : ascii) : bool :=
  let n := N_of_ascii c in
  (((9 <=? n) && (n <=? 13)) || ((28 <=? n) && (n <=? 32))
   || (n =? 133) || (n =? 160))%N.

(** [s.lstrip()], [s.rstrip()] and [s.strip()] *)
Fixpoint py_lstrip (s : string) : string :=
  match s with
  | String c s' => if py_isspace c then py_lstrip s' else s
  | EmptyString => EmptyString
  end.

Fixpoint py_rstrip (s : string) : string :=
  match s with
  | EmptyString => EmptyString
  | String c s' =>
    match py_rstrip s' with
    | EmptyString => if py_isspace c then EmptyString else String c EmptyString
    | r => String c r
    end
  end.

Definition py_strip (s : string) : string := py_rstrip (py_lstrip s).

(** [s.rstrip(chars)] for a one-character [chars] *)
Fixpoint py_rstrip_char (ch : ascii) (s : string) : string :=
  match s with
  | EmptyString => EmptyString
  | String c s' =>
    match py_rstrip_char ch s' with
    | EmptyString => if Ascii.eqb c ch then EmptyString else String c EmptyString
    | r => String c r
    end
  end.

(** [s.split(sep)] for a one-character [sep]: never an empty list. *)
Fixpoint py_split (sep : ascii) (s : string) : list string :=
  match s with
  | EmptyString => [EmptyString]
  | String c s' =>
    if Ascii.eqb c sep then EmptyString :: py_split sep s'
    else match py_split sep s' with
         | p :: ps => String c p :: ps
         | [] => [String c EmptyString]
         end
  end.

(** The truth value of a string: it is not empty. *)
Definition str_truthy (s : string) : bool :=
  match s with
  | EmptyString => false
  | String _ _ => true
  end.

(** [ch in s] for a character [ch] *)
Fixpoint has_char (ch : ascii) (s : string) : bool :=
  match s with
  | EmptyString => false
  | String c s' => Ascii.eqb c ch || has_char ch s'
  end.

(** A text that can stand for one code: not empty, with no space around
    it and no comma in it. *)
Definition clean_code (s : string) : Prop :=
  s <> "" /\ py_strip s = s /\ has_char "," s = false.

(** A text that does not start with a space is left by [lstrip], and
    [rstrip] keeps its first character. *)
Definition no_leading_space (s : string) : Prop :=
  match s with
  | EmptyString => True
  | String c _ => py_isspace c = false
  end.

(** [[p.strip() for p in entry.split(",") if p.strip()]] *)
Definition stripped_parts (entry : string) : list string :=
  filter str_truthy (map py_strip (py_split "," entry)).

(** ** [config.py]: reading the environment

    The environment is what [os.getenv] answers: a text for a variable
    that is set, nothing for one that is not. *)

Definition Environ : Type := string -> option string.

(** [get_env(name, default=None)] *)
Definition get_env (environ : Environ) (name : string) (default : option string)
  : option string :=
  match environ name with
  | None => default
  | Some val => if String.eqb val "" then default else Some val
  end.

(** [parse_list(name, default=None)]; [default or []] is the empty list
    for no default and for an empty one. *)
Definition parse_list (environ : Environ) (name : string)
    (default : option (list string)) : list string :=
  let default_or_empty := match default with Some l => l | None => [] end in
  match environ name with
  | None => default_or_empty
  | Some raw =>
    if String.eqb (py_strip raw) "" then default_or_empty
    else stripped_parts raw
  end.

(** [require(var_name, value)] *)
Definition require (var_name : string) (value : option string) : result string :=
  match value with
  | None => Raise (ValueError ("Missing required environment variable: " ++ var_name))
  | Some v =>
    if String.eqb v ""
    then Raise (ValueError ("Missing required environment variable: " ++ var_name))
    else Ok v
  end.

(** The module constant [DEFAULT_FIATS] *)
Definition DEFAULT_FIATS (environ : Environ) : list string :=
  parse_list environ "DEFAULT_FIATS" (Some []).

(** ** [clients/eldorado.py]: the address of a request *)

(** [s.startswith("/")] *)
Definition starts_with_slash (s : string) : bool :=
  match s with
  | String c _ => Ascii.eqb c "/"
  | EmptyString => false
  end.

(** [_join_url(path)], with the module's [ELDORADO_API_BASE_URL] *)
Definition _join_url (ELDORADO_API_BASE_URL path : string) : string :=
  let base := py_rstrip_char "/" ELDORADO_API_BASE_URL in
  if negb (str_truthy path) then base
  else if negb (starts_with_slash path) then base ++ ("/" ++ path)
  else base ++ path.

(** ** [cli.py]: the fiats of a run *)

(** The two loops of [_parse_fiats]: the parts of the entries, in order,
    and the removal of repeats with the set [seen]. *)
Fixpoint collect_fiats (cli_fiats fiats : list string) : list string :=
  match cli_fiats with
  | [] => fiats
  | entry :: rest =>
    if negb (str_truthy entry) then collect_fiats rest fiats
    else collect_fiats rest (fiats ++ stripped_parts entry)%list
  end.

Fixpoint dedupe_fiats (fiats seen ordered : list string) : list string :=
  match fiats with
  | [] => ordered
  | f :: rest =>
    if existsb (String.eqb f) seen then dedupe_fiats rest seen ordered
    else dedupe_fiats rest (f :: seen) (ordered ++ [f])%list
  end.

(** [_parse_fiats(cli_fiats)], with the module's [DEFAULT_FIATS] *)
Definition _parse_fiats (DEFAULT_FIATS cli_fiats : list string) : list string :=
  let fiats := collect_fiats cli_fiats [] in
  let fiats :=
    match fiats, DEFAULT_FIATS with
    | [], _ :: _ => DEFAULT_FIATS
    | _, _ => fiats
    end in
  let fiats := match fiats with [] => ["MXN"] | _ => fiats end in
  dedupe_fiats fiats [] [].

(** The three rates of [fetch_fx_rate]. *)
Record FxRate (F : Type) : Type := mkFxRate {
  rate_mid : F;
  rate_bid : F;
  rate_ask : F
}.

Arguments mkFxRate {F} _ _ _.
Arguments rate_mid {F} _.
Arguments rate_bid {F} _.
Arguments rate_ask {F} _.

(** ** The clients: exceptions, replies and JSON values *)

(** The classes of the exceptions that the clients meet. *)
Module Exc.
Inductive t : Type :=
| AttributeError
| KeyError
| TypeError
| ValueError
| OverflowError
| ZeroDivisionError
| RequestException.
End Exc.

(** A call that returns a value or raises. *)
Inductive attempt (A : Type) : Type :=
| Returned (a : A)
| Raised (e : Exc.t).

Arguments Returned {A} a.
Arguments Raised {A} e.

Definition attempt_bind {A B : Type} (c : attempt A) (k : A -> attempt B)
  : attempt B :=
  match c with
  | Returned a => k a
  | Raised e => Raised e
  end.

Notation "x <~ c ;; k" := (attempt_bind c (fun x => k))
  (at level 61, c at next level, right associativity) : py_scope.

(** What [json.loads] makes of a body. *)
Set Warnings "-register-all".
Inductive Json : Type :=
| JNull
| JBool (b : bool)
| JInt (n : Z)
| JFloat (x : float)
| JStr (s : string)
| JList (items : list Json)
| JDict (entries : list (string * Json)).

(** What a request comes to: an exception of [requests.get] or
    [requests.post], of [raise_for_status] or of [resp.json()], or the
    value of the body. *)
Inductive HttpReply : Type :=
| HttpRaises (e : Exc.t)
| HttpJson (payload : Json).

(** A [dict] with text keys, in insertion order. *)
Definition Dict (V : Type) : Type := list (string * V).

(** [d.get(key)] *)
Fixpoint dict_get {V : Type} (key : string) (d : Dict V) : option V :=
  match d with
  | [] => None
  | (k, v) :: rest => if String.eqb k key then Some v else dict_get key rest
  end.

(** [d[key] = value]: in place for a key that is there, at the end for a
    new one. *)
Fixpoint dict_set {V : Type} (key : string) (value : V) (d : Dict V) : Dict V :=
  match d with
  | [] => [(key, value)]
  | (k, v) :: rest =>
    if String.eqb k key then (k, value) :: rest
    else (k, v) :: dict_set key value rest
  end.

(** [d.update(other)] *)
Definition dict_update {V : Type} (other d : Dict V) : Dict V :=
  fold_left (fun acc kv => dict_set (fst kv) (snd kv) acc) other d.

Definition dict_keys {V : Type} (d : Dict V) : list string := map fst d.

(** The truth value of a JSON value: [None], [False], zero, the empty
    text, list and dict are false. *)
Definition json_truthy (v : Json) : bool :=
  match v with
  | JNull => false
  | JBool b => b
  | JInt n => negb (n =? 0)%Z
  | JFloat x => negb (x =? 0)%float
  | JStr s => str_truthy s
  | JList items => match items with [] => false | _ => true end
  | JDict entries => match entries with [] => false | _ => true end
  end.

(** [v.get(key, default)]: only a dict has the method. *)
Definition json_get (v : Json) (key : string) (default : Json) : attempt Json :=
  match v with
  | JDict entries =>
    Returned (match dict_get key entries with Some x => x | None => default end)
  | _ => Raised Exc.AttributeError
  end.

(** [v[key]] for a text [key]: [KeyError] on a dict without the key,
    [TypeError] on every other value. *)
Definition json_item (v : Json) (key : string) : attempt Json :=
  match v with
  | JDict entries =>
    match dict_get key entries with
    | Some x => Returned x
    | None => Raised Exc.KeyError
    end
  | _ => Raised Exc.TypeError
  end.

(** [float(n)] for an integer: the nearest float, [OverflowError] when it
    is out of range. *)
Definition int_to_float (n : Z) : attempt float :=
  let r := float_of_Q false (inject_Z n) in
  if is_infinity r then Raised Exc.OverflowError else Returned r.

(** [float(v)]; [str_to_float] is [float] on a text, nothing when the
    text is refused with [ValueError]. *)
Definition json_to_float (str_to_float : string -> option float) (v : Json)
  : attempt float :=
  match v with
  | JFloat x => Returned x
  | JInt n => int_to_float n
  | JBool b => Returned (if b then 1%float else 0%float)
  | JStr s =>
    match str_to_float s with
    | Some x => Returned x
    | None => Raised Exc.ValueError
    end
  | JNull | JList _ | JDict _ => Raised Exc.TypeError
  end.

(** [l[:k]] for [k >= 0], and [l[i:]] for any [i]. *)
Definition slice_to {A : Type} (k : Z) (l : list A) : list A :=
  firstn (Z.to_nat k) l.

Definition slice_from {A : Type} (i : Z) (l : list A) : list A :=
  let len := Z.of_nat (length l) in
  let start := if (i <? 0)%Z then Z.max (len + i) 0 else Z.min i len in
  skipn (Z.to_nat start) l.

(** The builtin [sum] on floats before Python 3.12: the additions from
    left to right, from the integer zero. *)
Definition sum_left_to_right (l : list float) : float :=
  fold_left (fun acc x => (acc + x)%float) l 0%float.

(** ** [clients/xe.py] *)

Section Clients.

(** [float] on a text, and the builtin [sum] on a list of floats, whose
    roundings depend on the version of the interpreter. *)
Variable str_to_float : string -> option float.
Variable py_sum : list float -> float.

(** [time.sleep(secs)]: it returns after the pause, or it raises, as it
    does with [ValueError] on a negative length and on not-a-number and
    with [OverflowError] on a length beyond its clock. *)
Variable time_sleep : float -> attempt unit.

(** [_safe_float(val)] of [clients/xe.py]: [ValueError] and [TypeError]
    of the conversion give [None], another exception goes on. *)
Definition _safe_float (val : Json) : attempt (option float) :=
  match val with
  | JNull => Returned None
  | _ =>
    match json_to_float str_to_float val with
    | Returned x => Returned (Some x)
    | Raised Exc.ValueError | Raised Exc.TypeError => Returned None
    | Raised e => Raised e
    end
  end.

(** [is_configured()] of [clients/xe.py], with the module's
    [XE_API_ACCOUNT_ID] and [XE_API_KEY] *)
Definition is_configured (XE_API_ACCOUNT_ID XE_API_KEY : option string) : bool :=
  match XE_API_ACCOUNT_ID, XE_API_KEY with
  | Some account_id, Some key => str_truthy account_id && str_truthy key
  | _, _ => false
  end.

(** [fetch_fx_rate(base, ref_fiat)], on what the request comes to. *)
Definition fetch_fx_rate (XE_API_ACCOUNT_ID XE_API_KEY : option string)
    (reply : HttpReply) : attempt (option (FxRate float)) :=
  if negb (is_configured XE_API_ACCOUNT_ID XE_API_KEY) then Returned None
  else
    let body :=
      match reply with
      | HttpRaises e => Raised e
      | HttpJson payload =>
        to <~ json_get payload "to" JNull ;;
        let rows := if json_truthy to then to else JList [] in
        match rows with
        | JList (row :: _) =>
          mid_val <~ json_get row "mid" JNull ;;
          mid <~ _safe_float mid_val ;;
          match mid with
          | None => Returned None
          | Some mid =>
            bid_val <~ json_get row "bid" JNull ;;
            bid <~ _safe_float bid_val ;;
            ask_val <~ json_get row "ask" JNull ;;
            ask <~ _safe_float ask_val ;;
            Returned (Some (mkFxRate mid
                              (match bid with Some b => b | None => mid end)
                              (match ask with Some a => a | None => mid end)))
          end
        | _ => Returned None
        end
      end in
    match body with
    | Raised Exc.RequestException => Returned None
    | Raised Exc.ValueError | Raised Exc.TypeError => Returned None
    | _ => body
    end.

(** ** [clients/coinapi.py] *)

(** [is_configured()] of [clients/coinapi.py], with the module's
    [COINAPI_KEY] *)
Definition coinapi_is_configured (COINAPI_KEY : option string) : bool :=
  match COINAPI_KEY with
  | Some key => str_truthy key
  | None => false
  end.

(** [get_exchange_rate(asset_base, asset_quote, invert=...)], on what the
    request comes to; its [_safe_float] is the one of [clients/xe.py],
    word for word. *)
Definition get_exchange_rate (COINAPI_KEY : option string) (invert : bool)
    (reply : HttpReply) : attempt (option float) :=
  if negb (coinapi_is_configured COINAPI_KEY) then Returned None
  else
    let body :=
      match reply with
      | HttpRaises e => Raised e
      | HttpJson j =>
        rate_val <~ json_get j "rate" JNull ;;
        rate <~ _safe_float rate_val ;;
        match rate with
        | None => Returned None
        | Some rate =>
          if (rate <=? 0)%float then Returned None
          else if invert
               then Returned (if (0 <? rate)%float then Some (1 / rate)%float else None)
               else Returned (Some rate)
        end
      end in
    match body with
    | Raised Exc.RequestException => Returned None
    | Raised Exc.ValueError => Returned None
    | _ => body
    end.

(** ** [clients/binance.py] *)

(** [_valid_ad(ad)] *)
Definition _valid_ad (ad : Json) : bool :=
  match
    (adv <~ json_get ad "adv" (JDict []) ;;
     price_val <~ json_item adv "price" ;;
     price <~ json_to_float str_to_float price_val ;;
     min_val <~ json_get adv "minSingleTransAmount" (JInt 0) ;;
     min_amt <~ json_to_float str_to_float min_val ;;
     max_val <~ json_get adv "maxSingleTransAmount" (JFloat 1e18) ;;
     max_amt <~ json_to_float str_to_float max_val ;;
     Returned
       (if (price <=? 0)%float then false
        else if (min_amt <? 0)%float || (max_amt <=? 0)%float then false
        else if (max_amt <? min_amt)%float then false
        else true))
  with
  | Returned valid => valid
  | Raised _ => false
  end.

(** What the network does in one use of [_fetch_ads]. *)
Inductive NetEvent : Type :=
| Posted
| Slept.

(** The loop of [_fetch_ads]: [replies tried] is what the request of the
    attempt [tried] comes to, [remaining] the attempts that are left and
    [slept] what [time.sleep(_sleep)] comes to.  The pause is made in the
    handler of [RequestException], outside the [try]: what it raises
    leaves the function. *)
Fixpoint fetch_ads_loop (replies : nat -> HttpReply) (slept : attempt unit)
    (tried remaining : nat) : attempt Json * list NetEvent :=
  match remaining with
  | O => (Returned (JList []), [])
  | S remaining' =>
    match replies tried with
    | HttpJson data =>
      match json_get data "data" (JList []) with
      | Returned v => (Returned (if json_truthy v then v else JList []), [Posted])
      | Raised _ => (Returned (JList []), [Posted])
      end
    | HttpRaises Exc.RequestException =>
      match remaining' with
      | O => (Returned (JList []), [Posted])
      | S _ =>
        match slept with
        | Returned _ =>
          let (v, events) := fetch_ads_loop replies slept (S tried) remaining' in
          (v, Posted :: Slept :: events)
        | Raised e => (Raised e, [Posted])
        end
      end
    | HttpRaises _ => (Returned (JList []), [Posted])
    end
  end.

(** [_fetch_ads(fiat, asset, trade_type, max_retries=..., retry_sleep=...)],
    with the module's [MAX_RETRIES] and [RETRY_SLEEP]: the ads, or the
    exception of the pause, and what the network did. *)
Definition _fetch_ads (MAX_RETRIES : Z) (RETRY_SLEEP : float)
    (replies : nat -> HttpReply) (max_retries : option Z)
    (retry_sleep : option float) : attempt Json * list NetEvent :=
  let _retries := match max_retries with Some n => n | None => MAX_RETRIES end in
  let _sleep := match retry_sleep with Some secs => secs | None => RETRY_SLEEP end in
  fetch_ads_loop replies (time_sleep _sleep) 0 (Z.to_nat _retries).

(** The key of the sort: [float(a["adv"]["price"])]. *)
Definition price_key (a : Json) : attempt float :=
  adv <~ json_item a "adv" ;;
  price_val <~ json_item adv "price" ;;
  json_to_float str_to_float price_val.

Fixpoint price_keys (ads : list Json) : attempt (list (float * Json)) :=
  match ads with
  | [] => Returned []
  | a :: rest =>
    k <~ price_key a ;;
    keyed <~ price_keys rest ;;
    Returned ((k, a) :: keyed)
  end.

(** [list.sort(key=...)]: the keys are computed first; the sort is
    stable and compares keys by [<] only.  It is written as the insertion
    of each element behind the ones that are not greater, which is what
    every stable sort gives on keys that [<] orders; with a not-a-number
    among the keys the order that the interpreter gives depends on its
    algorithm. *)
Fixpoint insert_keyed (k : float) (a : Json) (sorted : list (float * Json))
  : list (float * Json) :=
  match sorted with
  | [] => [(k, a)]
  | (k', a') :: rest =>
    if (k <? k')%float then (k, a) :: sorted
    else (k', a') :: insert_keyed k a rest
  end.

Definition sort_keyed (keyed : list (float * Json)) : list (float * Json) :=
  fold_left (fun sorted ka => insert_keyed (fst ka) (snd ka) sorted) keyed [].

Definition sort_by_price (ads : list Json) : attempt (list Json) :=
  keyed <~ price_keys ads ;;
  Returned (map snd (sort_keyed keyed)).

(** The ads that the comprehension of [average_price] goes through: the
    elements of a list, the keys of a dict, the characters of a text;
    [TypeError] on a value that is not iterable. *)
Definition json_iter (v : Json) : attempt (list Json) :=
  match v with
  | JList items => Returned items
  | JDict entries => Returned (map (fun kv => JStr (fst kv)) entries)
  | JStr s => Returned (map (fun c => JStr (String c EmptyString)) (list_ascii_of_string s))
  | JNull | JBool _ | JInt _ | JFloat _ => Raised Exc.TypeError
  end.

(** [average_price(fiat, asset, trade_type, ...)] from the ads on; the
    two [try] blocks turn every exception into [None]. *)
Definition average_price_of_ads (ads : Json) (take_top average_last_n : Z)
    (min_valid_ads : option Z) : attempt (option float) :=
  if negb (json_truthy ads) then Returned None
  else
    items <~ json_iter ads ;;
    let valid_ads := filter _valid_ad items in
    let too_few :=
      match min_valid_ads with
      | Some n => (Z.of_nat (length valid_ads) <? n)%Z
      | None => false
      end in
    if too_few then Returned None
    else
      match sort_by_price valid_ads with
      | Raised _ => Returned None
      | Returned valid_ads =>
        let top_ads := slice_to (Z.max take_top 0) valid_ads in
        if (Z.of_nat (length top_ads) <? Z.max average_last_n 1)%Z then Returned None
        else
          match
            (top_prices <~ price_keys top_ads ;;
             let to_average := slice_from (- average_last_n) (map fst top_prices) in
             match to_average with
             | [] => Returned None
             | _ =>
               count <~ int_to_float (Z.of_nat (length to_average)) ;;
               if (count =? 0)%float then Raised Exc.ZeroDivisionError
               else Returned (Some (py_sum to_average / count)%float)
             end)
          with
          | Raised _ => Returned None
          | returned => returned
          end
      end.

(** [average_price(fiat, asset, trade_type, rows=20, take_top=5,
    average_last_n=3, min_valid_ads=None, max_retries=None,
    retry_sleep=None)]: the call of [_fetch_ads] is outside the [try]
    blocks. *)
Definition average_price (MAX_RETRIES : Z) (RETRY_SLEEP : float)
    (replies : nat -> HttpReply) (take_top average_last_n : Z)
    (min_valid_ads max_retries : option Z) (retry_sleep : option float)
  : attempt (option float) :=
  ads <~ fst (_fetch_ads MAX_RETRIES RETRY_SLEEP replies max_retries retry_sleep) ;;
  average_price_of_ads ads take_top average_last_n min_valid_ads.

(** The prices of the valid ads, in the order of the ads, and their
    sort: what [average_price] keeps of a list of ads. *)
Definition valid_prices (items : list Json) : list float :=
  flat_map (fun ad =>
              if _valid_ad ad
              then match price_key ad with
                   | Returned p => [p]
                   | Raised _ => []
                   end
              else []) items.

Definition keyed_valid (items : list Json) : list (float * Json) :=
  flat_map (fun ad =>
              if _valid_ad ad
              then match price_key ad with
                   | Returned p => [(p, ad)]
                   | Raised _ => []
                   end
              else []) items.

End Clients.

Fixpoint insert_float (k : float) (sorted : list float) : list float :=
  match sorted with
  | [] => [k]
  | k' :: rest =>
    if (k <? k')%float then k :: sorted else k' :: insert_float k rest
  end.

Definition sort_floats (l : list float) : list float :=
  fold_left (fun sorted k => insert_float k sorted) l [].

(** A price that the order of floats can place: positive, an infinity
    included, and not not-a-number. *)
Definition ordered_price (p : float) : Prop :=
  (p <=? 0)%float = false /\ is_nan p = false.

(** [is_dict v]: the value is a JSON object. *)
Definition is_dict (v : Json) : bool :=
  match v with
  | JDict _ => true
  | _ => false
  end.

(** [keyed_ok keyed]: each ad is with its price. *)
Definition keyed_ok (str_to_float : string -> option float)
    (keyed : list (float * Json)) : Prop :=
  Forall (fun ka => price_key str_to_float (snd ka) = Returned (fst ka)) keyed.

(** The requests and the pauses of a use of [_fetch_ads]. *)
Definition count_event (ev : NetEvent) (events : list NetEvent) : nat :=
  length (filter (fun e => match e, ev with
                           | Posted, Posted | Slept, Slept => true
                           | _, _ => false
                           end) events).

(** ** [cli.py]: one row for a fiat *)

(** What the two providers of [cli.py] come to: [average_price] of
    [clients/binance.py] for a fiat, an asset and a side, and
    [fetch_fx_rate] of [clients/xe.py] for a fiat and a reference fiat. *)
Record Providers (F : Type) : Type := mkProviders {
  binance_average_price :
    string -> string -> string -> option Z -> attempt (option F);
  xe_fetch_fx_rate : string -> string -> attempt (option (FxRate F))
}.

Arguments mkProviders {F} _ _.
Arguments binance_average_price {F} _ _ _ _ _.
Arguments xe_fetch_fx_rate {F} _ _ _.

(** The values of a row: [None], a text, a float, or the dict of the
    three rates. *)
Inductive RowValue (F : Type) : Type :=
| RNone
| RStr (s : string)
| RNum (x : F)
| RFx (fx : FxRate F).

Arguments RNone {F}.
Arguments RStr {F} s.
Arguments RNum {F} x.
Arguments RFx {F} fx.

(** [str(exc)]: the message of the exception.  [TypeError] and
    [ZeroDivisionError] carry no text in this development; on floats
    [compute_premiums] raises neither. *)
Definition exception_text (exc : PyError) : string :=
  match exc with
  | ValueError msg | OverflowError msg => msg
  | TypeError | ZeroDivisionError => ""
  end.

Section CommandLine.

Context {F : Type} `{PyFloat F}.

Definition Row : Type := Dict (RowValue F).

Definition optional_num (x : option F) : RowValue F :=
  match x with
  | Some v => RNum v
  | None => RNone
  end.

Definition optional_fx (fx : option (FxRate F)) : RowValue F :=
  match fx with
  | Some r => RFx r
  | None => RNone
  end.

(** [_collect_for_fiat(fiat, asset, ref_fiat, min_valid_ads, decimals)]:
    the three calls of the providers are outside the [try], so what they
    raise goes on. *)
Definition _collect_for_fiat (providers : Providers F)
    (fiat asset ref_fiat : string) (min_valid_ads decimals : option Z)
  : attempt Row :=
  let result :=
    [("fiat", RStr fiat); ("asset", RStr asset); ("ref_fiat", RStr ref_fiat)] in
  buy <~ binance_average_price providers fiat asset "BUY" min_valid_ads ;;
  sell <~ binance_average_price providers fiat asset "SELL" min_valid_ads ;;
  fx <~ xe_fetch_fx_rate providers fiat ref_fiat ;;
  let result := dict_set "buy_rate" (optional_num buy) result in
  let result := dict_set "sell_rate" (optional_num sell) result in
  let result := dict_set "fx" (optional_fx fx) result in
  Returned
    match buy, sell with
    | Some buy, Some sell =>
      match fx with
      | None => dict_set "error" (RStr "insufficient_fx_data") result
      | Some fx =>
        match compute_premiums (PyNum sell) (PyNum buy) (PyNum (rate_bid fx))
                (PyNum (rate_ask fx)) decimals with
        | Ok premiums =>
          let result :=
            dict_update (map (fun kv => (fst kv, RNum (snd kv))) (to_dict premiums))
              result in
          dict_set "status" (RStr "ok") result
        | Raise exc =>
          dict_set "error" (RStr ("compute_error: " ++ exception_text exc)) result
        end
      end
    | _, _ => dict_set "error" (RStr "insufficient_p2p_data") result
    end.

(** The row that [_collect_for_fiat] returns when the calls of the
    providers have returned [buy], [sell] and [fx]. *)
Definition row_of (fiat asset ref_fiat : string) (decimals : option Z)
    (buy sell : option F) (fx : option (FxRate F)) : Row :=
  let result :=
    [("fiat", RStr fiat); ("asset", RStr asset); ("ref_fiat", RStr ref_fiat);
     ("buy_rate", optional_num buy); ("sell_rate", optional_num sell);
     ("fx", optional_fx fx)] in
  match buy, sell with
  | Some buy, Some sell =>
    match fx with
    | None => dict_set "error" (RStr "insufficient_fx_data") result
    | Some fx =>
      match compute_premiums (PyNum sell) (PyNum buy) (PyNum (rate_bid fx))
              (PyNum (rate_ask fx)) decimals with
      | Ok premiums =>
        dict_set "status" (RStr "ok")
          (dict_update (map (fun kv => (fst kv, RNum (snd kv))) (to_dict premiums))
             result)
      | Raise exc =>
        dict_set "error" (RStr ("compute_error: " ++ exception_text exc)) result
      end
    end
  | _, _ => dict_set "error" (RStr "insufficient_p2p_data") result
  end.

(** The truth value of [r.get("error")]. *)
Definition row_truthy (v : option (RowValue F)) : bool :=
  match v with
  | None | Some RNone => false
  | Some (RStr s) => str_truthy s
  | Some (RNum x) => negb (f_eqb x f_zero)
  | Some (RFx _) => true
  end.

(** The arguments of [main] that the rows depend on, as [argparse] gives
    them. *)
Record Args : Type := mkArgs {
  args_fiats : list string;
  args_asset : string;
  args_ref_fiat : string;
  args_min_valid_ads : option Z;
  args_decimals : option Z
}.

(** The loop of [main] over the fiats: [rows.append(_collect_for_fiat(...))]
    for each fiat in turn. *)
Fixpoint collect_rows (providers : Providers F) (args : Args) (fiats : list string)
  : attempt (list Row) :=
  match fiats with
  | [] => Returned []
  | fiat :: rest =>
    row <~ _collect_for_fiat providers fiat (args_asset args) (args_ref_fiat args)
             (args_min_valid_ads args) (args_decimals args) ;;
    rows <~ collect_rows providers args rest ;;
    Returned (row :: rows)
  end.

(** [main(argv)] between the set-up of the logging and the printing, with
    the module's [DEFAULT_FIATS]: from the parsed arguments, the rows that
    it collects and the exit status that it computes from them.  The
    steps around them are not modelled: [_setup_logging] before the rows
    and [_print_json] or [_print_csv] after them can raise too, so this
    says what [main] returns when it returns, and that the loop raises,
    not every way in which [main] can raise. *)
Definition main (providers : Providers F) (DEFAULT_FIATS : list string)
    (args : Args) : attempt (list Row * Z) :=
  rows <~ collect_rows providers args (_parse_fiats DEFAULT_FIATS (args_fiats args)) ;;
  let any_error := existsb (fun r => row_truthy (dict_get "error" r)) rows in
  Returned (rows, if any_error then 1%Z else 0%Z).

End CommandLine.

Arguments Row F : clear implicits.

(** The six keys that every row starts with, and the keys of the three
    results. *)
Definition row_head : list string :=
  ["fiat"; "asset"; "ref_fiat"; "buy_rate"; "sell_rate"; "fx"].

Definition row_results : list string :=
  ["stablecoin_sell_premium"; "stablecoin_buy_premium"; "stablecoin_buy_sell_spread"].

(** [row_ok r]: the row has the three results, the status ["ok"] and no
    error; [row_failed r]: it has an error text, not empty, no result
    and no status. *)
Definition row_ok {F : Type} (r : Row F) : Prop :=
  dict_keys r = (row_head ++ row_results ++ ["status"])%list /\
  dict_get "status" r = Some (RStr "ok") /\ dict_get "error" r = None.

Definition row_failed {F : Type} (r : Row F) : Prop :=
  dict_keys r = (row_head ++ ["error"])%list /\
  dict_get "status" r = None /\
  exists msg, dict_get "error" r = Some (RStr msg) /\ msg <> "".

(** [quotes_computed providers fiat asset ref_fiat min_valid_ads decimals
    buy sell fx p]: the providers return the two quotes and the rates, and
    [compute_premiums] returns [p] on them. *)
Definition quotes_computed {F : Type} `{PyFloat F} (providers : Providers F)
    (fiat asset ref_fiat : string) (min_valid_ads decimals : option Z)
    (buy sell : F) (fx : FxRate F) (p : Premiums F) : Prop :=
  binance_average_price providers fiat asset "BUY" min_valid_ads = Returned (Some buy) /\
  binance_average_price providers fiat asset "SELL" min_valid_ads = Returned (Some sell) /\
  xe_fetch_fx_rate providers fiat ref_fiat = Returned (Some fx) /\
  compute_premiums (PyNum sell) (PyNum buy) (PyNum (rate_bid fx))
    (PyNum (rate_ask fx)) decimals = Ok p.

(** [providers_return providers fiat asset ref_fiat min_valid_ads buy sell
    fx]: the three calls of the providers return. *)
Definition providers_return {F : Type} (providers : Providers F)
    (fiat asset ref_fiat : string) (min_valid_ads : option Z)
    (buy sell : option F) (fx : option (FxRate F)) : Prop :=
  binance_average_price providers fiat asset "BUY" min_valid_ads = Returned buy /\
  binance_average_price providers fiat asset "SELL" min_valid_ads = Returned sell /\
  xe_fetch_fx_rate providers fiat ref_fiat = Returned fx.

(** ** The run of [cli.py] on a network *)

(** What the requests of a run come to: for Binance by fiat, asset, side
    and attempt, for XE by fiat and reference fiat. *)
Record Network : Type := mkNetwork {
  binance_replies : string -> string -> string -> nat -> HttpReply;
  xe_reply : string -> string -> HttpReply
}.

(** The providers as [cli.py] calls them: [average_price(fiat, asset,
    side, min_valid_ads=min_valid_ads)] with the defaults [take_top=5],
    [average_last_n=3], [max_retries=None] and [retry_sleep=None], and
    [fetch_fx_rate(fiat, ref_fiat)]. *)
Definition http_providers (str_to_float : string -> option float)
    (py_sum : list float -> float) (time_sleep : float -> attempt unit)
    (MAX_RETRIES : Z) (RETRY_SLEEP : float)
    (XE_API_ACCOUNT_ID XE_API_KEY : option string) (net : Network)
  : Providers float :=
  mkProviders
    (fun fiat asset trade_type min_valid_ads =>
       average_price str_to_float py_sum time_sleep MAX_RETRIES RETRY_SLEEP
         (binance_replies net fiat asset trade_type) 5 3 min_valid_ads None None)
    (fun base ref_fiat =>
       fetch_fx_rate str_to_float XE_API_ACCOUNT_ID XE_API_KEY
         (xe_reply net base ref_fiat)).

(** ** The values of the examples *)

(** Providers that answer the quotes and the rate of the docstring's
    example for every fiat, and the arguments of a run on two fiats. *)
Definition ex_providers : Providers float :=
  mkProviders
    (fun _ _ trade_type _ =>
       Returned (Some (if String.eqb trade_type "BUY" then ex_buy_rate else ex_sell_rate)))
    (fun _ _ => Returned (Some (mkFxRate ex_fx ex_fx ex_fx))).

Definition ex_args : Args := mkArgs ["MXN,BRL"] "USDT" "USD" None None.

(** An ad with a price and nothing else, and a network on which Binance
    answers five ads at the first request, for every fiat and side, and
    XE the mid rate of the docstring's example. *)
Definition ex_ad (price : float) : Json :=
  JDict [("adv", JDict [("price", JFloat price)])].

Definition ex_ads : list Json :=
  [ex_ad 18.9%float; ex_ad 18.5%float; ex_ad 18.7%float; ex_ad 18.6%float;
   ex_ad 18.8%float].

Definition ex_network : Network :=
  mkNetwork
    (fun _ _ _ _ => HttpJson (JDict [("data", JList ex_ads)]))
    (fun _ _ =>
       HttpJson (JDict [("to", JList [JDict [("quotecurrency", JStr "MXN");
                                              ("mid", JFloat ex_fx)]])])).

(** A conversion of texts that refuses every text: the examples give
    their prices as numbers. *)
Definition ex_str_to_float (s : string) : option float := None.

(** A pause that refuses a negative length and not-a-number, as
    [time.sleep] does, and returns on every other length. *)
Definition ex_time_sleep (secs : float) : attempt unit :=
  if is_nan secs || (secs <? 0)%float then Raised Exc.ValueError
  else Returned tt.

(** ** The comparisons of the two instances *)

Lemma Prim2SF_zero : Prim2SF 0%float = S754_zero false.
Proof. reflexivity. Qed.

Lemma float_leb_zero (x : float) :
  (x <=? 0)%float = SF_nonpositive (Prim2SF x).
Proof.
  rewrite leb_spec, Prim2SF_zero.
  destruct (Prim2SF x) as [s | s | | s m e]; try destruct s; reflexivity.
Qed.

Lemma float_ltb_zero (x : float) :
  (0 <? x)%float =
  match Prim2SF x with
  | S754_zero _ | S754_nan => false
  | S754_infinity s | S754_finite s _ _ => negb s
  end.
Proof.
  rewrite ltb_spec, Prim2SF_zero.
  destruct (Prim2SF x) as [s | s | | s m e]; try destruct s; reflexivity.
Qed.

Lemma float_eqb_zero (x : float) :
  (x =? 0)%float = match Prim2SF x with S754_zero _ => true | _ => false end.
Proof.
  rewrite eqb_spec, Prim2SF_zero.
  destruct (Prim2SF x) as [s | s | | s m e]; try destruct s; reflexivity.
Qed.

Lemma SFcompare_refl (x : spec_float) :
  x <> S754_nan -> SFcompare x x = Some Eq.
Proof.
  destruct x as [s | s | | s m e]; intros Hx; try congruence.
  - reflexivity.
  - destruct s; reflexivity.
  - simpl. rewrite Z.compare_refl, Pos.compare_cont_refl.
    destruct s; reflexivity.
Qed.

Lemma float_is_nan (x : float) :
  is_nan x = match Prim2SF x with S754_nan => true | _ => false end.
Proof.
  unfold is_nan. rewrite eqb_spec. unfold SFeqb.
  destruct (Prim2SF x) as [s | s | | s m e] eqn:E; try reflexivity;
    rewrite SFcompare_refl by discriminate; reflexivity.
Qed.

#[export] Instance Binary64_laws : PyFloatLaws float.
Proof.
  split; cbn [f_ltb f_leb f_eqb f_zero Binary64].
  - intros x. rewrite float_ltb_zero, float_leb_zero.
    destruct (Prim2SF x) as [s | s | | s m e]; try destruct s; simpl; congruence.
  - intros x. rewrite float_eqb_zero, float_leb_zero.
    destruct (Prim2SF x) as [s | s | | s m e]; try destruct s; simpl; congruence.
  - reflexivity.
Qed.

#[export] Instance Exact_laws : PyFloatLaws Q.
Proof.
  split; cbn [f_ltb f_leb f_eqb f_zero Exact].
  - intros x Hx. now apply negb_true_iff in Hx.
  - intros x Hx.
    destruct (Qeq_bool x 0) eqn:E; [ | reflexivity].
    apply Qeq_bool_iff in E.
    assert (Hn : Qle_bool x 0 = true) by (apply Qle_bool_iff; rewrite E; apply Qle_refl).
    congruence.
  - reflexivity.
Qed.

(** ** Validation and the two formulas, for any lawful float *)

Section EngineFacts.

Context {F : Type} `{PyFloatLaws F}.

Lemma validate_num (name : string) (x : F) :
  _validate_positive name (PyNum x) =
  if f_leb x f_zero
  then Raise (ValueError (name ++ " must be > 0; got " ++ f_repr x))
  else Ok tt.
Proof. reflexivity. Qed.

Lemma validate_accepts (name : string) (x : F) :
  f_leb x f_zero = false -> _validate_positive name (PyNum x) = Ok tt.
Proof. intros Hx. rewrite validate_num, Hx. reflexivity. Qed.

Lemma validate_positive_ok (name : string) (x : F) :
  f_ltb f_zero x = true -> _validate_positive name (PyNum x) = Ok tt.
Proof. intros Hx. apply validate_accepts, f_pos_not_le, Hx. Qed.

Lemma validate_nonpositive (name : string) (x : F) :
  f_leb x f_zero = true ->
  _validate_positive name (PyNum x) =
  Raise (ValueError (name ++ " must be > 0; got " ++ f_repr x)).
Proof. intros Hx. rewrite validate_num, Hx. reflexivity. Qed.

Lemma validate_raise_inv (name : string) (value : PyValue F) (e : PyError) :
  _validate_positive name value = Raise e ->
  exists msg, e = ValueError msg.
Proof.
  destruct value as [ | x | printed]; simpl.
  - intros [= <-]. eauto.
  - destruct (f_leb x f_zero); [ | discriminate]. intros [= <-]. eauto.
  - intros [= <-]. eauto.
Qed.

Lemma validate_cases (name : string) (value : PyValue F) :
  _validate_positive name value = Ok tt \/
  raises_ValueError (_validate_positive name value).
Proof.
  destruct (_validate_positive name value) as [[] | e] eqn:E.
  - left. reflexivity.
  - right. destruct (validate_raise_inv _ _ _ E) as [msg ->]. exists msg. reflexivity.
Qed.

Lemma compute_premium_accepted (x y : F) :
  f_leb x f_zero = false -> f_leb y f_zero = false ->
  compute_premium (PyNum x) (PyNum y) =
  Ok (f_mul (f_sub (f_div x y) f_one) f_hundred).
Proof.
  intros Hx Hy. unfold compute_premium.
  rewrite !validate_accepts by assumption. simpl.
  rewrite (f_not_le_not_zero _ Hy). reflexivity.
Qed.

Lemma compute_spread_accepted (x y : F) :
  f_leb x f_zero = false -> f_leb y f_zero = false ->
  compute_spread (PyNum x) (PyNum y) =
  Ok (f_mul (f_div (f_sub x y) y) f_hundred).
Proof.
  intros Hx Hy. unfold compute_spread.
  rewrite !validate_accepts by assumption. simpl.
  rewrite (f_not_le_not_zero _ Hy). reflexivity.
Qed.

Lemma compute_premiums_accepted (sell buy bid ask : F) (decimals : option Z) :
  f_leb sell f_zero = false -> f_leb buy f_zero = false ->
  f_leb bid f_zero = false -> f_leb ask f_zero = false ->
  compute_premiums (PyNum sell) (PyNum buy) (PyNum bid) (PyNum ask) decimals =
  (sell_premium <- _maybe_round (f_mul (f_sub (f_div sell bid) f_one) f_hundred) decimals ;;
   buy_premium <- _maybe_round (f_mul (f_sub (f_div buy ask) f_one) f_hundred) decimals ;;
   spread <- _maybe_round (f_mul (f_div (f_sub buy sell) sell) f_hundred) decimals ;;
   Ok (mkPremiums sell_premium buy_premium spread)).
Proof.
  intros Hs Hb Hbid Hask. unfold compute_premiums.
  rewrite !validate_accepts by assumption.
  rewrite !compute_premium_accepted, compute_spread_accepted by assumption.
  reflexivity.
Qed.

End EngineFacts.

(** ** Strings: prefixes and occurrences *)

Lemma prefix_app (s t : string) : prefix s (s ++ t) = true.
Proof.
  induction s as [ | c s IH]; simpl.
  - destruct t; reflexivity.
  - destruct (ascii_dec c c) as [_ | Hc]; [exact IH | congruence].
Qed.

Lemma contains_prefix (p s : string) : prefix p s = true -> contains p s = true.
Proof. intros Hp. destruct s; cbn [contains]; rewrite Hp; reflexivity. Qed.

Lemma contains_app (p a b : string) : contains p (a ++ p ++ b) = true.
Proof.
  induction a as [ | c a IH]; simpl.
  - apply contains_prefix, prefix_app.
  - rewrite IH. apply orb_true_r.
Qed.

Lemma contains_app_end (p a : string) : contains p (a ++ p) = true.
Proof.
  replace (a ++ p) with (a ++ p ++ "").
  - apply contains_app.
  - f_equal. induction p as [ | c p IH]; simpl; congruence.
Qed.

Lemma contains_app_app_end (p a b : string) : contains p (a ++ b ++ p) = true.
Proof.
  induction a as [ | c a IH]; simpl.
  - apply contains_app_end.
  - rewrite IH. apply orb_true_r.
Qed.

(** ** The claims on validation and composition *)

(** One validation at the head of a call: either it accepts and the call
    goes on, or the call ends in its [ValueError]. *)
Ltac validate_head :=
  match goal with
  | Hx : f_leb ?x f_zero = true
    |- raises_ValueError (bind (_validate_positive ?n (PyNum ?x)) _) =>
    rewrite (validate_nonpositive n x Hx); eexists; reflexivity
  | |- raises_ValueError (bind (_validate_positive ?n ?v) _) =>
    destruct (validate_cases n v) as [-> | [? ->]];
    [cbn [bind] | eexists; reflexivity]
  end.

(** C1: for positive [sell_rate], [buy_rate], [fx_bid], [fx_ask],
    [compute_premiums] called without [decimals] returns the record whose
    three fields are, unrounded, [compute_premium(sell_rate, fx_bid)],
    [compute_premium(buy_rate, fx_ask)] and
    [compute_spread(buy_rate, sell_rate)]. *)
Theorem compute_premiums_unrounded_fields
    {F : Type} `{PyFloatLaws F} (sell_rate buy_rate fx_bid fx_ask : F) :
  f_ltb f_zero sell_rate = true ->
  f_ltb f_zero buy_rate = true ->
  f_ltb f_zero fx_bid = true ->
  f_ltb f_zero fx_ask = true ->
  exists sell_premium buy_premium spread : F,
    compute_premium (PyNum sell_rate) (PyNum fx_bid) = Ok sell_premium /\
    compute_premium (PyNum buy_rate) (PyNum fx_ask) = Ok buy_premium /\
    compute_spread (PyNum buy_rate) (PyNum sell_rate) = Ok spread /\
    compute_premiums (PyNum sell_rate) (PyNum buy_rate) (PyNum fx_bid)
      (PyNum fx_ask) None
    = Ok (mkPremiums sell_premium buy_premium spread).
Proof.
  intros Hs Hb Hbid Hask.
  apply f_pos_not_le in Hs, Hb, Hbid, Hask.
  eexists _, _, _.
  rewrite !compute_premium_accepted, compute_spread_accepted by assumption.
  rewrite compute_premiums_accepted by assumption.
  repeat split; reflexivity.
Qed.

Lemma compute_premiums_unrounded_fields_witness :
  exists sell_premium buy_premium spread : float,
    compute_premium (PyNum ex_sell_rate) (PyNum ex_fx) = Ok sell_premium /\
    compute_premium (PyNum ex_buy_rate) (PyNum ex_fx) = Ok buy_premium /\
    compute_spread (PyNum ex_buy_rate) (PyNum ex_sell_rate) = Ok spread /\
    compute_premiums (PyNum ex_sell_rate) (PyNum ex_buy_rate) (PyNum ex_fx)
      (PyNum ex_fx) None
    = Ok (mkPremiums sell_premium buy_premium spread).
Proof.
  apply (compute_premiums_unrounded_fields
           (H0 := Binary64_laws) ex_sell_rate ex_buy_rate ex_fx ex_fx);
    reflexivity.
Defined.

(** C4: a rate [x <= 0] makes every operation fail with the validation's
    [ValueError], whichever argument it is passed as and whatever the
    other arguments are; every value strictly above zero is accepted;
    zero itself is rejected. *)
Theorem nonpositive_rejected_positive_accepted {F : Type} `{PyFloatLaws F} :
  (forall x : F, f_leb x f_zero = true ->
     (forall name, raises_ValueError (_validate_positive name (PyNum x))) /\
     (forall other,
        raises_ValueError (compute_premium (PyNum x) other) /\
        raises_ValueError (compute_premium other (PyNum x)) /\
        raises_ValueError (compute_spread (PyNum x) other) /\
        raises_ValueError (compute_spread other (PyNum x))) /\
     (forall a b c decimals,
        raises_ValueError (compute_premiums (PyNum x) a b c decimals) /\
        raises_ValueError (compute_premiums a (PyNum x) b c decimals) /\
        raises_ValueError (compute_premiums a b (PyNum x) c decimals) /\
        raises_ValueError (compute_premiums a b c (PyNum x) decimals))) /\
  (forall y : F, f_ltb f_zero y = true ->
     forall name, _validate_positive name (PyNum y) = Ok tt) /\
  (forall name, raises_ValueError (_validate_positive name (PyNum f_zero))).
Proof.
  split; [ | split].
  - intros x Hx. split; [ | split].
    + intros name. rewrite (validate_nonpositive name x Hx). eexists; reflexivity.
    + intros other. unfold compute_premium, compute_spread.
      split; [ | split; [ | split]]; repeat validate_head.
    + intros a b c decimals. unfold compute_premiums.
      split; [ | split; [ | split]]; repeat validate_head.
  - intros y Hy name. apply validate_positive_ok, Hy.
  - intros name. rewrite (validate_nonpositive name f_zero f_zero_le).
    eexists; reflexivity.
Qed.

Lemma nonpositive_rejected_positive_accepted_witness :
  raises_ValueError (_validate_positive "sell_rate" (PyNum (-17.12)%float)) /\
  raises_ValueError
    (compute_premiums (PyNum ex_sell_rate) (PyNum ex_buy_rate)
       (PyNum (-17.12)%float) (PyNum ex_fx) None) /\
  _validate_positive "sell_rate" (PyNum 1e-12%float) = Ok tt /\
  raises_ValueError (_validate_positive "sell_rate" (PyNum 0%float)).
Proof.
  pose proof (nonpositive_rejected_positive_accepted (H0 := Binary64_laws))
    as [Hneg [Hpos Hzero]].
  destruct (Hneg (-17.12)%float eq_refl) as [Hv [_ Hall]].
  destruct (Hall (PyNum ex_sell_rate) (PyNum ex_buy_rate) (PyNum ex_fx) None)
    as [_ [_ [Hbid _]]].
  split; [ | split; [ | split]].
  - apply Hv.
  - exact Hbid.
  - apply (Hpos 1e-12%float eq_refl).
  - apply Hzero.
Defined.

Lemma validate_raise_names {F : Type} `{PyFloat F}
    (name : string) (value : PyValue F) (e : PyError) :
  _validate_positive name value = Raise e ->
  exists msg, e = ValueError msg /\ names_argument name msg.
Proof.
  unfold names_argument.
  destruct value as [ | x | printed]; simpl.
  - intros [= <-]. eexists. split; [reflexivity | apply prefix_app].
  - destruct (f_leb x f_zero); [ | discriminate].
    intros [= <-]. eexists. split; [reflexivity | apply prefix_app].
  - intros [= <-]. eexists. split; [reflexivity | apply prefix_app].
Qed.

(** C10: [compute_premiums] validates [sell_rate], [buy_rate], [fx_bid],
    [fx_ask] in this order, and the error it raises is the one of the first
    argument that is invalid, whose name the message starts with, whatever
    the later arguments are. *)
Theorem compute_premiums_names_first_invalid {F : Type} `{PyFloat F}
    (sell_rate buy_rate fx_bid fx_ask : PyValue F) (decimals : option Z) :
  (forall e, _validate_positive "sell_rate" sell_rate = Raise e ->
     compute_premiums sell_rate buy_rate fx_bid fx_ask decimals = Raise e /\
     exists msg, e = ValueError msg /\ names_argument "sell_rate" msg) /\
  (forall e, _validate_positive "sell_rate" sell_rate = Ok tt ->
     _validate_positive "buy_rate" buy_rate = Raise e ->
     compute_premiums sell_rate buy_rate fx_bid fx_ask decimals = Raise e /\
     exists msg, e = ValueError msg /\ names_argument "buy_rate" msg) /\
  (forall e, _validate_positive "sell_rate" sell_rate = Ok tt ->
     _validate_positive "buy_rate" buy_rate = Ok tt ->
     _validate_positive "fx_bid" fx_bid = Raise e ->
     compute_premiums sell_rate buy_rate fx_bid fx_ask decimals = Raise e /\
     exists msg, e = ValueError msg /\ names_argument "fx_bid" msg) /\
  (forall e, _validate_positive "sell_rate" sell_rate = Ok tt ->
     _validate_positive "buy_rate" buy_rate = Ok tt ->
     _validate_positive "fx_bid" fx_bid = Ok tt ->
     _validate_positive "fx_ask" fx_ask = Raise e ->
     compute_premiums sell_rate buy_rate fx_bid fx_ask decimals = Raise e /\
     exists msg, e = ValueError msg /\ names_argument "fx_ask" msg).
Proof.
  unfold compute_premiums.
  split; [ | split; [ | split]]; intros e.
  - intros He. rewrite He. split; [reflexivity | ].
    eapply validate_raise_names, He.
  - intros -> He. rewrite He. split; [reflexivity | ].
    eapply validate_raise_names, He.
  - intros -> -> He. rewrite He. split; [reflexivity | ].
    eapply validate_raise_names, He.
  - intros -> -> -> He. rewrite He. split; [reflexivity | ].
    eapply validate_raise_names, He.
Qed.

Lemma compute_premiums_names_first_invalid_witness :
  compute_premiums (PyNum 0%float) (PyNum ex_buy_rate) (PyNum ex_fx)
    (PyNum 0%float) None
  = Raise (ValueError "sell_rate must be > 0; got 0.0") /\
  exists msg, ValueError "sell_rate must be > 0; got 0.0" = ValueError msg /\
              names_argument "sell_rate" msg.
Proof.
  apply (compute_premiums_names_first_invalid
           (PyNum 0%float) (PyNum ex_buy_rate) (PyNum ex_fx) (PyNum 0%float) None).
  reflexivity.
Defined.

(** C7, as the code has it: every error of the validation is a
    [ValueError] whose message starts with the name of the argument.  For
    a missing argument the message is "<name> must not be None" and for
    one that is zero or negative "<name> must be > 0; got <value>", so it
    carries the offending value; for one that is not a number it is
    "<name> must be a number", without the value.  In particular
    [compute_premiums(sell_rate=0.0, buy_rate=18.70, fx_bid=17.12,
    fx_ask=17.12)] fails with "sell_rate must be > 0; got 0.0". *)
Theorem validation_error_message :
  (forall (F : Type) (ops : PyFloat F) (name : string) (value : PyValue F)
          (e : PyError),
     _validate_positive name value = Raise e ->
     exists msg, e = ValueError msg /\ names_argument name msg /\
       match value with
       | PyNone =>
         msg = name ++ " must not be None" /\ carries_value value msg
       | PyNum v =>
         msg = name ++ " must be > 0; got " ++ f_repr v /\ carries_value value msg
       | PyOther _ => msg = name ++ " must be a number"
       end) /\
  compute_premiums (PyNum 0%float) (PyNum ex_buy_rate) (PyNum ex_fx)
    (PyNum ex_fx) None
  = Raise (ValueError "sell_rate must be > 0; got 0.0").
Proof.
  split; [ | reflexivity].
  intros F ops name value e He.
  destruct (validate_raise_names _ _ _ He) as [msg [-> Hname]].
  exists msg. split; [reflexivity | split; [exact Hname | ]].
  unfold carries_value.
  destruct value as [ | x | printed]; simpl in He |- *.
  - injection He as <-. split; [reflexivity | ].
    apply (contains_app_app_end "None" name " must not be ").
  - destruct (f_leb x f_zero); [ | discriminate].
    injection He as <-. split; [reflexivity | ].
    apply (contains_app_app_end (f_repr x) name " must be > 0; got ").
  - injection He as <-. reflexivity.
Qed.

Lemma validation_error_message_witness :
  exists msg,
    ValueError "fx_bid must be > 0; got -17.12" = ValueError msg /\
    names_argument "fx_bid" msg /\
    (msg = "fx_bid" ++ " must be > 0; got " ++ f_repr (-17.12)%float /\
     carries_value (PyNum (-17.12)%float) msg).
Proof.
  exact (proj1 validation_error_message float Binary64 "fx_bid"
           (PyNum (-17.12)%float) _ eq_refl).
Defined.

(** C7 as stated fails: the message for an argument that is not a number,
    here the list [[18.95]], does not carry the value. *)
Lemma non_numeric_message_lacks_value :
  ~ (forall (name : string) (value : PyValue float) (e : PyError),
       _validate_positive name value = Raise e ->
       exists msg, e = ValueError msg /\ names_argument name msg /\
                   carries_value value msg).
Proof.
  intros Hclaim.
  destruct (Hclaim "sell_rate" (PyOther "[18.95]") _ eq_refl)
    as [msg [Hmsg [_ Hcarries]]].
  injection Hmsg as <-. discriminate Hcarries.
Qed.

(** ** Not-a-number and the infinities *)

(** C6, as the code has it, on the floats that are numbers: the
    validation rejects [None], what is not a number, and the floats [v]
    with [v <= 0], among them zero of either sign, the negatives and minus
    infinity; it accepts the floats [v] with [0 < v], and there is no test
    of finiteness, so plus infinity is among them. *)
Theorem validation_accepts_exactly (name : string) :
  (forall x : float, is_nan x = false ->
     (_validate_positive name (PyNum x) = Ok tt <-> (0 <? x)%float = true) /\
     (raises_ValueError (_validate_positive name (PyNum x)) <->
      (x <=? 0)%float = true)) /\
  _validate_positive name (PyNum infinity) = Ok tt /\
  raises_ValueError (_validate_positive name (PyNum neg_infinity)) /\
  raises_ValueError (_validate_positive name (PyNum 0%float)) /\
  raises_ValueError (_validate_positive name (PyNum (-0)%float)) /\
  raises_ValueError (_validate_positive name (@PyNone float)) /\
  (forall printed,
     raises_ValueError (_validate_positive name (@PyOther float printed))).
Proof.
  split; [ | split; [ | split; [ | split; [ | split; [ | split]]]]].
  - intros x Hx. rewrite validate_num. cbn [f_leb f_zero Binary64].
    rewrite float_is_nan in Hx. rewrite float_leb_zero, float_ltb_zero.
    destruct (Prim2SF x) as [s | s | | s m e]; try destruct s; simpl;
      try discriminate Hx;
      (split; split; intros H);
      first [ reflexivity | discriminate H | (eexists; reflexivity)
            | (destruct H as [msg H]; discriminate H) ].
  - reflexivity.
  - eexists; reflexivity.
  - eexists; reflexivity.
  - eexists; reflexivity.
  - eexists; reflexivity.
  - intros printed. eexists; reflexivity.
Qed.

Lemma validation_accepts_exactly_witness :
  _validate_positive "sell_rate" (PyNum 1e308%float) = Ok tt /\
  raises_ValueError (_validate_positive "sell_rate" (PyNum (-5e-324)%float)).
Proof.
  pose proof (validation_accepts_exactly "sell_rate") as [Hiff _].
  split.
  - apply (proj2 (proj1 (Hiff 1e308%float eq_refl))). reflexivity.
  - apply (proj2 (proj2 (Hiff (-5e-324)%float eq_refl))). reflexivity.
Defined.

(** C6 as stated fails: plus infinity passes the validation, and the calls
    on it return infinity or not-a-number instead of failing. *)
Lemma infinity_passes_validation :
  ~ (forall x : float, is_nan x = true \/ is_infinity x = true ->
       forall name, raises_ValueError (_validate_positive name (PyNum x))) /\
  compute_premium (PyNum infinity) (PyNum ex_fx) = Ok infinity /\
  compute_spread (PyNum infinity) (PyNum ex_sell_rate) = Ok infinity /\
  compute_spread (PyNum ex_buy_rate) (PyNum infinity) = Ok nan.
Proof.
  split; [ | split; [ | split]; reflexivity].
  intros Hclaim.
  destruct (Hclaim infinity (or_intror eq_refl) "sell_rate") as [msg Hmsg].
  discriminate Hmsg.
Qed.

(** The docstring of [_validate_positive] asks for a positive float, and
    its message for a value [> 0].  The test it makes, [v <= 0], is false
    on not-a-number, which is no positive float: the code lets it pass
    where its docstring would have it refused. *)
Lemma nan_is_not_rejected (name : string) :
  (nan <=? 0)%float = false /\ (0 <? nan)%float = false /\
  _validate_positive name (PyNum nan) = Ok tt /\
  compute_premium (PyNum nan) (PyNum ex_fx) = Ok nan.
Proof. repeat split. Qed.

(** ** Exact arithmetic: signs and decimal rounding *)

Lemma Qsgn_pos (q : Q) : 0 < q -> Qsgn q = 1%Z.
Proof. intros Hq. apply Qgt_alt in Hq. unfold Qsgn, Qcompare in *. rewrite Hq. reflexivity. Qed.

Lemma Qsgn_neg (q : Q) : q < 0 -> Qsgn q = (-1)%Z.
Proof. intros Hq. apply Qlt_alt in Hq. unfold Qsgn, Qcompare in *. rewrite Hq. reflexivity. Qed.

Lemma Qsgn_zero (q : Q) : q == 0 -> Qsgn q = 0%Z.
Proof. intros Hq. apply Qeq_alt in Hq. unfold Qsgn, Qcompare in *. rewrite Hq. reflexivity. Qed.

Lemma exact_positive (x : Q) : f_ltb f_zero x = true <-> 0 < x.
Proof.
  cbn [f_ltb f_zero Exact]. rewrite negb_true_iff.
  split.
  - intros Hx. apply Qnot_le_lt. intros Hle.
    apply Qle_bool_iff in Hle. congruence.
  - intros Hx. destruct (Qle_bool x 0) eqn:E; [ | reflexivity].
    apply Qle_bool_iff in E. exfalso. revert E. apply Qlt_not_le, Hx.
Qed.

Lemma pow10_pos (n : Z) : 0 < pow10 n.
Proof. apply Qpower_0_lt. reflexivity. Qed.

Lemma pow10_opp (n : Z) : pow10 (- n) == / pow10 n.
Proof. apply Qpower_opp. Qed.

(** The nearest integer is within a half of the rational. *)
Lemma Qround_half_even_close (q : Q) :
  Qabs (inject_Z (Qround_half_even q) - q) <= 1 # 2.
Proof.
  apply Qabs_Qle_condition.
  destruct q as [n d]. unfold Qround_half_even. cbn [Qnum Qden].
  pose proof (Z.div_mod n (Zpos d) ltac:(lia)) as Hdm.
  pose proof (Z.mod_pos_bound n (Zpos d) ltac:(lia)) as Hm.
  set (fl := (n / Zpos d)%Z) in *. set (m := (n mod Zpos d)%Z) in *.
  assert (Hcases :
    forall z : Z, (2 * Z.abs (z * Zpos d - n) <= Zpos d)%Z ->
                  - (1 # 2) <= inject_Z z - (n # d) <= 1 # 2).
  { intros z Hz. unfold Qle, Qminus, Qplus, Qopp, inject_Z. cbn [Qnum Qden].
    split; lia. }
  apply Hcases.
  destruct (Z.compare_spec (2 * m) (Zpos d)); [destruct (Z.even fl) | | ]; lia.
Qed.

Lemma Qround_half_even_pos (q : Q) : 1 # 2 < q -> (0 < Qround_half_even q)%Z.
Proof.
  intros Hq. pose proof (Qround_half_even_close q) as Hc.
  apply Qabs_Qle_condition in Hc. destruct Hc as [Hlo _].
  assert (Hz : 0 < inject_Z (Qround_half_even q)) by lra.
  unfold Qlt, inject_Z in Hz. simpl in Hz. lia.
Qed.

Lemma Qround_half_even_neg (q : Q) : q < - (1 # 2) -> (Qround_half_even q < 0)%Z.
Proof.
  intros Hq. pose proof (Qround_half_even_close q) as Hc.
  apply Qabs_Qle_condition in Hc. destruct Hc as [_ Hhi].
  assert (Hz : inject_Z (Qround_half_even q) < 0) by lra.
  unfold Qlt, inject_Z in Hz. simpl in Hz. lia.
Qed.

Lemma round_decimal_multiple (q : Q) (ndigits : Z) :
  round_decimal q ndigits ==
  inject_Z (Qround_half_even (q * pow10 ndigits)) * pow10 (- ndigits).
Proof. unfold round_decimal, Qdiv. rewrite pow10_opp. reflexivity. Qed.

Lemma round_decimal_close (q : Q) (ndigits : Z) :
  Qabs (round_decimal q ndigits - q) <= half_unit ndigits.
Proof.
  unfold round_decimal, half_unit. rewrite pow10_opp.
  pose proof (pow10_pos ndigits) as Hp. set (p := pow10 ndigits) in *.
  pose proof (Qround_half_even_close (q * p)) as Hc.
  set (z := inject_Z (Qround_half_even (q * p))) in *.
  assert (E : z / p - q == (z - q * p) * / p) by (field; lra).
  rewrite E, Qabs_Qmult.
  rewrite (Qabs_pos (/ p)) by (apply Qlt_le_weak, Qinv_lt_0_compat, Hp).
  apply Qmult_le_compat_r; [exact Hc | ].
  apply Qlt_le_weak, Qinv_lt_0_compat, Hp.
Qed.

(** Above half a unit of the last digit, rounding keeps the sign. *)
Lemma round_decimal_sign (q : Q) (ndigits : Z) :
  half_unit ndigits < Qabs q -> Qsgn (round_decimal q ndigits) = Qsgn q.
Proof.
  unfold round_decimal, half_unit. rewrite pow10_opp.
  pose proof (pow10_pos ndigits) as Hp. set (p := pow10 ndigits) in *.
  pose proof (Qinv_lt_0_compat p Hp) as Hip.
  assert (Hpp : / p * p == 1) by (field; lra).
  intros Hq.
  destruct (Qlt_le_dec q 0) as [Hneg | Hpos].
  - rewrite (Qabs_neg q) in Hq by (apply Qlt_le_weak, Hneg).
    assert (Hs : q * p < - (1 # 2)).
    { apply (Qmult_lt_r _ _ p Hp) in Hq.
      assert (E : (1 # 2) * / p * p == 1 # 2) by (field; lra).
      rewrite E in Hq. lra. }
    apply Qround_half_even_neg in Hs.
    rewrite (Qsgn_neg q Hneg). apply Qsgn_neg.
    apply Qlt_shift_div_r; [exact Hp | ].
    rewrite Qmult_0_l. unfold Qlt, inject_Z. simpl. lia.
  - rewrite (Qabs_pos q Hpos) in Hq.
    assert (Hq0 : 0 < q).
    { apply Qlt_trans with ((1 # 2) * / p); [ | exact Hq].
      apply Qmult_lt_0_compat; [reflexivity | exact Hip]. }
    assert (Hs : 1 # 2 < q * p).
    { apply (Qmult_lt_r _ _ p Hp) in Hq.
      assert (E : (1 # 2) * / p * p == 1 # 2) by (field; lra).
      rewrite E in Hq. exact Hq. }
    apply Qround_half_even_pos in Hs.
    rewrite (Qsgn_pos q Hq0). apply Qsgn_pos.
    apply Qlt_shift_div_l; [exact Hp | ].
    rewrite Qmult_0_l. unfold Qlt, inject_Z. simpl. lia.
Qed.

(** The sign of the premium and of the spread, in exact arithmetic. *)
Lemma exact_premium_sign (observed reference : Q) :
  0 < reference ->
  (0 < (observed / reference - 1) * 100 <-> reference < observed).
Proof.
  intros Hr. set (q := observed / reference).
  assert (Hq : q * reference == observed) by (unfold q; field; lra).
  assert (H1 : 1 < q <-> reference < observed).
  { rewrite <- (Qmult_lt_r 1 q reference Hr), Hq, Qmult_1_l. reflexivity. }
  rewrite <- H1. split; intros; lra.
Qed.

Lemma exact_spread_sign (buy sell : Q) :
  0 < sell ->
  ((buy - sell) / sell * 100 < 0 <-> buy < sell).
Proof.
  intros Hs. set (q := (buy - sell) / sell).
  assert (Hq : q * sell == buy - sell) by (unfold q; field; lra).
  assert (H1 : q < 0 <-> buy < sell).
  { rewrite <- (Qmult_lt_r q 0 sell Hs), Hq, Qmult_0_l. split; intros; lra. }
  rewrite <- H1. split; intros; lra.
Qed.

(** ** Binary64 arithmetic: the sign of quotients, differences and products

    The operations of primitive floats are specified by [SpecFloat]: each
    one computes an integer mantissa with the place of the exact result
    next to it, and [binary_round_aux] rounds it to nearest, ties to even.
    The lemmas below follow that computation on integers. *)

Local Open Scope Z_scope.

Lemma fexp64 (e : Z) : fexp prec emax e = Z.max (e - 53) (-1074).
Proof. reflexivity. Qed.

Lemma digits2_pos_size (p : positive) : digits2_pos p = Pos.size p.
Proof. induction p; simpl; congruence. Qed.

Lemma digits2_log2 (p : positive) : Zpos (digits2_pos p) = Z.log2 (Zpos p) + 1.
Proof.
  rewrite digits2_pos_size. destruct p; simpl; try reflexivity;
    rewrite Pos2Z.inj_succ; lia.
Qed.

Lemma digits2_bounds (p : positive) :
  2 ^ (Zpos (digits2_pos p) - 1) <= Zpos p < 2 ^ Zpos (digits2_pos p).
Proof.
  rewrite digits2_log2.
  pose proof (Z.log2_spec (Zpos p) ltac:(lia)) as H.
  replace (Z.log2 (Zpos p) + 1 - 1) with (Z.log2 (Zpos p)) by lia.
  replace (Z.log2 (Zpos p) + 1) with (Z.succ (Z.log2 (Zpos p))) by lia.
  exact H.
Qed.

Lemma digits2_unique (p : positive) (d : Z) :
  2 ^ (d - 1) <= Zpos p < 2 ^ d -> Zpos (digits2_pos p) = d.
Proof.
  intros H. rewrite digits2_log2.
  assert (0 < d).
  { destruct (Z_lt_le_dec 0 d) as [Hd | Hd]; [exact Hd | ].
    exfalso. destruct (Z.eq_dec d 0) as [-> | Hn].
    - simpl in H. lia.
    - rewrite (Z.pow_neg_r 2 d) in H by lia. lia. }
  rewrite (Z.log2_unique (Zpos p) (d - 1)); [lia | lia | ].
  replace (Z.succ (d - 1)) with d by lia. exact H.
Qed.

Lemma shr_1_m (mrs : shr_record) :
  0 <= shr_m mrs -> shr_m (shr_1 mrs) = shr_m mrs / 2.
Proof.
  destruct mrs as [m r s]. simpl. intros Hm.
  rewrite <- Z.div2_div.
  destruct m as [ | [p | p | ] | p]; try reflexivity; lia.
Qed.

Lemma iter_shr_1_m (k : positive) : forall mrs : shr_record,
  0 <= shr_m mrs ->
  shr_m (iter_pos shr_1 k mrs) = shr_m mrs / 2 ^ Zpos k.
Proof.
  induction k as [k IH | k IH | ]; intros mrs Hm; simpl iter_pos.
  - assert (H1 : 0 <= shr_m (shr_1 mrs)).
    { rewrite shr_1_m by exact Hm. apply Z.div_pos; lia. }
    assert (H2 : 0 <= shr_m (iter_pos shr_1 k (shr_1 mrs))).
    { rewrite IH by exact H1. apply Z.div_pos; [exact H1 | ]. apply Z.pow_pos_nonneg; lia. }
    rewrite IH, IH, shr_1_m by assumption.
    pose proof (Z.pow_pos_nonneg 2 (Zpos k) ltac:(lia) ltac:(lia)) as Hp.
    rewrite !Z.div_div by lia.
    f_equal. replace (Zpos k~1) with (1 + Zpos k + Zpos k) by lia.
    rewrite !Z.pow_add_r by lia. rewrite Z.pow_1_r. lia.
  - assert (H2 : 0 <= shr_m (iter_pos shr_1 k mrs)).
    { rewrite IH by exact Hm. apply Z.div_pos; [exact Hm | ]. apply Z.pow_pos_nonneg; lia. }
    rewrite IH, IH by assumption.
    pose proof (Z.pow_pos_nonneg 2 (Zpos k) ltac:(lia) ltac:(lia)) as Hp.
    rewrite !Z.div_div by lia.
    f_equal. replace (Zpos k~0) with (Zpos k + Zpos k) by lia.
    rewrite Z.pow_add_r by lia. reflexivity.
  - rewrite shr_1_m by exact Hm. reflexivity.
Qed.

Lemma shr_record_of_loc_m (m : Z) (l : location) :
  shr_m (shr_record_of_loc m l) = m.
Proof. destruct l as [ | []]; reflexivity. Qed.

Lemma shr_fexp_m (M : positive) (E : Z) (l : location) :
  shr_m (fst (shr_fexp prec emax (Zpos M) E l)) =
    Zpos M / 2 ^ Z.max 0 (fexp prec emax (Zpos (digits2_pos M) + E) - E) /\
  snd (shr_fexp prec emax (Zpos M) E l) =
    E + Z.max 0 (fexp prec emax (Zpos (digits2_pos M) + E) - E).
Proof.
  unfold shr_fexp, shr. cbn [Zdigits2].
  destruct (fexp prec emax (Zpos (digits2_pos M) + E) - E) as [ | k | k] eqn:Ek;
    cbn [fst snd].
  - rewrite shr_record_of_loc_m. simpl. rewrite Z.div_1_r. split; lia.
  - rewrite iter_shr_1_m by (rewrite shr_record_of_loc_m; lia).
    rewrite shr_record_of_loc_m.
    replace (Z.max 0 (Zpos k)) with (Zpos k) by lia. split; reflexivity.
  - rewrite shr_record_of_loc_m.
    replace (Z.max 0 (Zneg k)) with 0 by lia. simpl. rewrite Z.div_1_r. split; lia.
Qed.

Lemma shr_fexp_pos (M : positive) (E : Z) (l : location) :
  -1074 - E < Zpos (digits2_pos M) ->
  1 <= shr_m (fst (shr_fexp prec emax (Zpos M) E l)).
Proof.
  intros HE. destruct (shr_fexp_m M E l) as [-> _].
  rewrite fexp64.
  pose proof (digits2_bounds M) as [Hlo _].
  set (d := Zpos (digits2_pos M)) in *.
  set (k := Z.max 0 (Z.max (d + E - 53) (-1074) - E)).
  assert (Hk : 0 <= k <= d - 1) by (unfold k, d; lia).
  apply Z.div_le_lower_bound; [apply Z.pow_pos_nonneg; lia | ].
  rewrite Z.mul_1_r. apply Z.le_trans with (2 ^ (d - 1)); [ | exact Hlo].
  apply Z.pow_le_mono_r; lia.
Qed.

Lemma round_nearest_even_bounds (m : Z) (l : location) :
  m <= round_nearest_even m l <= m + 1.
Proof.
  destruct l as [ | []]; simpl; try lia. destruct (Z.even m); lia.
Qed.

Lemma digits2_mono (p q : positive) :
  (p <= q)%positive -> Zpos (digits2_pos p) <= Zpos (digits2_pos q).
Proof.
  intros Hpq. rewrite !digits2_log2.
  apply Z.add_le_mono_r, Z.log2_le_mono. lia.
Qed.

Lemma binary_round_aux_sign (s : bool) (M : positive) (E : Z) (l : location) :
  -1074 - E < Zpos (digits2_pos M) ->
  has_sign s (binary_round_aux prec emax s (Zpos M) E l).
Proof.
  intros HE. unfold binary_round_aux.
  pose proof (shr_fexp_pos M E l HE) as H1.
  destruct (shr_fexp_m M E l) as [Hm1 He1].
  destruct (shr_fexp prec emax (Zpos M) E l) as [mrs1 e1]. cbn [fst snd] in *.
  pose proof (round_nearest_even_bounds (shr_m mrs1) (loc_of_shr_record mrs1)) as Hr.
  destruct (round_nearest_even (shr_m mrs1) (loc_of_shr_record mrs1))
    as [ | M2 | M2] eqn:EM2; try lia.
  assert (HE2 : -1074 - e1 < Zpos (digits2_pos M2)).
  { rewrite fexp64 in He1, Hm1.
    assert (Hd2 : 0 < Zpos (digits2_pos M2)) by lia.
    destruct (Z_le_gt_dec (Z.max (Zpos (digits2_pos M) + E - 53) (-1074) - E) 0).
    - replace (Z.max 0 _) with 0 in He1, Hm1 by lia.
      simpl in Hm1. rewrite Z.div_1_r in Hm1.
      assert (Hle : (M <= M2)%positive) by lia.
      apply digits2_mono in Hle. lia.
    - lia. }
  pose proof (shr_fexp_pos M2 e1 loc_Exact HE2) as H2.
  destruct (shr_fexp prec emax (Zpos M2) e1 loc_Exact) as [mrs2 e2]. cbn [fst snd] in *.
  destruct (shr_m mrs2) as [ | m | m]; try lia.
  destruct (e2 <=? emax - prec); reflexivity.
Qed.

Lemma shr_record_of_loc_ok (a b m : Z) (l : location) :
  0 <= m -> loc_ok a b m l -> rec_ok a b (shr_record_of_loc m l).
Proof.
  intros Hm H. split.
  - rewrite shr_record_of_loc_m. exact Hm.
  - rewrite shr_record_of_loc_m.
    replace (loc_of_shr_record (shr_record_of_loc m l)) with l; [exact H | ].
    destruct l as [ | []]; reflexivity.
Qed.

Lemma shr_1_ok (a b : Z) (mrs : shr_record) :
  rec_ok a b mrs -> rec_ok a (2 * b) (shr_1 mrs).
Proof.
  unfold rec_ok, loc_ok.
  destruct mrs as [m r s]. cbn [shr_m].
  intros [Hm [Hb [Hbr Hl]]].
  destruct m as [ | [p | p | ] | p]; try lia;
    destruct r, s; cbn [shr_1 shr_m loc_of_shr_record orb] in *;
    (split; [lia | split; [lia | split; [lia | lia]]]).
Qed.

Lemma iter_shr_1_ok (k : positive) : forall (a b : Z) (mrs : shr_record),
  rec_ok a b mrs -> rec_ok a (2 ^ Zpos k * b) (iter_pos shr_1 k mrs).
Proof.
  induction k as [k IH | k IH | ]; intros a b mrs H; simpl iter_pos.
  - apply shr_1_ok in H. apply IH in H. apply IH in H.
    replace (2 ^ Zpos k~1 * b) with (2 ^ Zpos k * (2 ^ Zpos k * (2 * b))); [exact H | ].
    replace (Zpos k~1) with (1 + Zpos k + Zpos k) by lia.
    rewrite !Z.pow_add_r by lia. rewrite Z.pow_1_r. lia.
  - apply IH in H. apply IH in H.
    replace (2 ^ Zpos k~0 * b) with (2 ^ Zpos k * (2 ^ Zpos k * b)); [exact H | ].
    replace (Zpos k~0) with (Zpos k + Zpos k) by lia.
    rewrite !Z.pow_add_r by lia. lia.
  - apply shr_1_ok in H. exact H.
Qed.

Lemma new_location_ok (nb k q : Z) :
  0 < nb -> 0 <= k < nb -> loc_ok (q * nb + k) nb q (new_location nb k).
Proof.
  intros Hnb Hk. unfold loc_ok, new_location.
  split; [exact Hnb | split; [lia | ]].
  destruct (Z.even nb) eqn:Ev.
  - unfold new_location_even. destruct (Z.eqb_spec k 0) as [-> | Hk0]; [lia | ].
    destruct (Z.compare_spec (2 * k) nb); lia.
  - unfold new_location_odd. destruct (Z.eqb_spec k 0) as [-> | Hk0]; [lia | ].
    assert (Hodd : 2 * k <> nb).
    { intros <-. rewrite Z.even_mul in Ev. discriminate Ev. }
    destruct (Z.compare_spec (2 * k + 1) nb); lia.
Qed.

Lemma shr_fexp_ok (a b M E : Z) (l : location) :
  0 <= M -> loc_ok a b M l ->
  snd (shr_fexp prec emax M E l) =
    E + Z.max 0 (fexp prec emax (Zdigits2 M + E) - E) /\
  shr_m (fst (shr_fexp prec emax M E l)) =
    M / 2 ^ Z.max 0 (fexp prec emax (Zdigits2 M + E) - E) /\
  rec_ok a (2 ^ Z.max 0 (fexp prec emax (Zdigits2 M + E) - E) * b)
    (fst (shr_fexp prec emax M E l)).
Proof.
  intros HM Hl. unfold shr_fexp, shr.
  pose proof (shr_record_of_loc_ok a b M l HM Hl) as Hrec.
  destruct (fexp prec emax (Zdigits2 M + E) - E) as [ | k | k] eqn:Ek;
    cbn [fst snd].
  - rewrite shr_record_of_loc_m. rewrite Z.max_id, Z.pow_0_r, Z.div_1_r, Z.mul_1_l.
    split; [lia | split; [reflexivity | exact Hrec]].
  - replace (Z.max 0 (Zpos k)) with (Zpos k) by lia.
    rewrite iter_shr_1_m by (rewrite shr_record_of_loc_m; lia).
    rewrite shr_record_of_loc_m.
    split; [reflexivity | split; [reflexivity | ]].
    apply iter_shr_1_ok, Hrec.
  - replace (Z.max 0 (Zneg k)) with 0 by lia.
    rewrite shr_record_of_loc_m. rewrite Z.pow_0_r, Z.div_1_r, Z.mul_1_l.
    split; [lia | split; [reflexivity | exact Hrec]].
Qed.

Lemma binary_round_aux_spec (s : bool) (M E : Z) (l : location) (a b : Z) :
  0 <= M -> loc_ok a b M l ->
  exists l1 : location,
    loc_ok a (2 ^ Z.max 0 (fexp prec emax (Zdigits2 M + E) - E) * b)
      (M / 2 ^ Z.max 0 (fexp prec emax (Zdigits2 M + E) - E)) l1 /\
    forall M1 e1 M2 K2,
      M1 = M / 2 ^ Z.max 0 (fexp prec emax (Zdigits2 M + E) - E) ->
      e1 = E + Z.max 0 (fexp prec emax (Zdigits2 M + E) - E) ->
      M2 = round_nearest_even M1 l1 ->
      K2 = Z.max 0 (fexp prec emax (Zdigits2 M2 + e1) - e1) ->
      binary_round_aux prec emax s M E l =
      match M2 / 2 ^ K2 with
      | Z0 => S754_zero s
      | Zpos m =>
        if e1 + K2 <=? 971 then S754_finite s m (e1 + K2) else S754_infinity s
      | Zneg _ => S754_nan
      end.
Proof.
  intros HM Hl.
  destruct (shr_fexp_ok a b M E l HM Hl) as [He1 [Hm1 [Hm1pos Hrec1]]].
  unfold binary_round_aux.
  destruct (shr_fexp prec emax M E l) as [mrs1 e1']. cbn [fst snd] in *.
  exists (loc_of_shr_record mrs1). split.
  - rewrite <- Hm1. exact Hrec1.
  - intros M1 e1 M2 K2 -> -> -> ->. rewrite <- Hm1, <- He1.
    set (M2 := round_nearest_even (shr_m mrs1) (loc_of_shr_record mrs1)).
    assert (HM2 : 0 <= M2).
    { pose proof (round_nearest_even_bounds (shr_m mrs1) (loc_of_shr_record mrs1)).
      unfold M2. lia. }
    assert (Hl2 : loc_ok (M2 * 1) 1 M2 loc_Exact) by (unfold loc_ok; lia).
    destruct (shr_fexp_ok _ _ M2 e1' loc_Exact HM2 Hl2) as [He2 [Hm2 _]].
    destruct (shr_fexp prec emax M2 e1' loc_Exact) as [mrs2 e2]. cbn [fst snd] in *.
    rewrite Hm2, He2. reflexivity.
Qed.

(** *** Digits of non-negative integers *)

Lemma Zdigits2_bounds (M : Z) :
  0 < M -> 2 ^ (Zdigits2 M - 1) <= M < 2 ^ Zdigits2 M.
Proof. destruct M as [ | p | p]; try lia. intros _. apply digits2_bounds. Qed.

Lemma Zdigits2_pos (M : Z) : 0 < M -> 0 < Zdigits2 M.
Proof. destruct M; simpl; lia. Qed.

Lemma Zdigits2_unique (M d : Z) :
  0 < M -> 2 ^ (d - 1) <= M < 2 ^ d -> Zdigits2 M = d.
Proof. destruct M as [ | p | p]; try lia. intros _. apply digits2_unique. Qed.

Lemma Zdigits2_le_iff (M d : Z) :
  0 < M -> 0 <= d -> (Zdigits2 M <= d <-> M < 2 ^ d).
Proof.
  intros HM Hd. pose proof (Zdigits2_bounds M HM) as [Hlo Hhi]. split.
  - intros Hle. apply Z.lt_le_trans with (2 ^ Zdigits2 M); [exact Hhi | ].
    apply Z.pow_le_mono_r; lia.
  - intros Hlt. destruct (Z_le_gt_dec (Zdigits2 M) d) as [ | Hgt]; [assumption | ].
    exfalso. assert (2 ^ d <= 2 ^ (Zdigits2 M - 1)) by (apply Z.pow_le_mono_r; lia).
    lia.
Qed.

Lemma Zdigits2_ge_iff (M d : Z) :
  0 < M -> 0 < d -> (d <= Zdigits2 M <-> 2 ^ (d - 1) <= M).
Proof.
  intros HM Hd. pose proof (Zdigits2_bounds M HM) as [Hlo Hhi]. split.
  - intros Hle. apply Z.le_trans with (2 ^ (Zdigits2 M - 1)); [ | exact Hlo].
    apply Z.pow_le_mono_r; lia.
  - intros Hge. destruct (Z_le_gt_dec d (Zdigits2 M)) as [ | Hgt]; [assumption | ].
    exfalso. assert (2 ^ Zdigits2 M <= 2 ^ (d - 1)) by (apply Z.pow_le_mono_r; lia).
    lia.
Qed.

(** *** Powers of two *)

Lemma pow2_pos (n : Z) : 0 <= n -> 0 < 2 ^ n.
Proof. intros. apply Z.pow_pos_nonneg; lia. Qed.

Lemma pow2_split (n k : Z) : 0 <= k <= n -> 2 ^ n = 2 ^ (n - k) * 2 ^ k.
Proof. intros. rewrite <- Z.pow_add_r by lia. f_equal. lia. Qed.

(** *** Valid finite floats *)

Lemma valid_finite (s : bool) (m : positive) (e : Z) :
  valid_binary (S754_finite s m e) = true ->
  -1074 <= e <= 971 /\ Zpos (digits2_pos m) <= 53 /\
  (Zpos (digits2_pos m) = 53 \/ e = -1074).
Proof.
  unfold FloatAxioms.valid_binary, SpecFloat.valid_binary, bounded, canonical_mantissa.
  rewrite andb_true_iff, Z.eqb_eq, Z.leb_le, fexp64.
  change (emax - prec) with 971. lia.
Qed.

Lemma valid_mantissa (s : bool) (m : positive) (e : Z) :
  valid_binary (S754_finite s m e) = true ->
  Zpos m < 2 ^ 53 /\ (-1074 < e -> 2 ^ 52 <= Zpos m).
Proof.
  intros Hv. apply valid_finite in Hv. destruct Hv as [He [Hd Hn]].
  pose proof (digits2_bounds m) as [Hlo Hhi]. split.
  - apply Z.lt_le_trans with (2 ^ Zpos (digits2_pos m)); [exact Hhi | ].
    apply Z.pow_le_mono_r; lia.
  - intros He'. assert (Hd53 : Zpos (digits2_pos m) = 53) by lia.
    rewrite Hd53 in Hlo. exact Hlo.
Qed.

Lemma pos_iter_xO (m d : positive) :
  Zpos (Pos.iter xO m d) = Zpos m * 2 ^ Zpos d.
Proof.
  induction d as [ | d IH] using Pos.peano_ind.
  - simpl. lia.
  - rewrite Pos.iter_succ, Pos2Z.inj_xO, IH, Pos2Z.inj_succ, Z.pow_succ_r by lia.
    lia.
Qed.

Lemma shl_align_spec (m : positive) (e e' : Z) :
  snd (shl_align m e e') = Z.min e e' /\
  Zpos (fst (shl_align m e e')) = Zpos m * 2 ^ (e - Z.min e e').
Proof.
  unfold shl_align. destruct (e' - e) as [ | d | d] eqn:Ed; cbn [fst snd].
  - replace (Z.min e e') with e by lia. rewrite Z.sub_diag. simpl. lia.
  - replace (Z.min e e') with e by lia. rewrite Z.sub_diag. simpl. lia.
  - replace (Z.min e e') with e' by lia. rewrite pos_iter_xO.
    replace (e - e') with (Zpos d) by lia. split; reflexivity.
Qed.

Lemma binary_round_sign (s : bool) (m : positive) (e : Z) :
  -1074 <= e -> has_sign s (binary_round prec emax s m e).
Proof.
  intros He. unfold binary_round.
  destruct (shl_align_spec m e (fexp prec emax (Zpos (digits2_pos m) + e)))
    as [Hez _].
  destruct (shl_align m e (fexp prec emax (Zpos (digits2_pos m) + e)))
    as [mz ez]. cbn [fst snd] in *.
  apply binary_round_aux_sign. rewrite fexp64 in Hez.
  assert (0 < Zpos (digits2_pos mz)) by lia. lia.
Qed.

(** The order of two valid positive finite floats, read on mantissas
    aligned to the lower exponent. *)
Lemma lex_lt_aligned (ma mb : positive) (ea eb : Z) :
  valid_binary (S754_finite false ma ea) = true ->
  valid_binary (S754_finite false mb eb) = true ->
  ea < eb \/ (ea = eb /\ Zpos ma < Zpos mb) ->
  Zpos ma * 2 ^ (ea - Z.min ea eb) < Zpos mb * 2 ^ (eb - Z.min ea eb).
Proof.
  intros Ha Hb Hlt.
  pose proof (valid_finite _ _ _ Ha) as [Hea _].
  pose proof (valid_mantissa _ _ _ Ha) as [Hma _].
  pose proof (valid_mantissa _ _ _ Hb) as [_ Hmb].
  destruct Hlt as [He | [He Hm]].
  - replace (Z.min ea eb) with ea by lia. rewrite Z.sub_diag, Z.pow_0_r, Z.mul_1_r.
    specialize (Hmb ltac:(lia)).
    assert (H2 : 2 ^ 1 <= 2 ^ (eb - ea)) by (apply Z.pow_le_mono_r; lia).
    change (2 ^ 1) with 2 in H2. change (2 ^ 53) with (2 * 2 ^ 52) in Hma. nia.
  - subst eb. rewrite Z.min_id, Z.sub_diag, Z.pow_0_r. lia.
Qed.

Lemma SFsub_sign (ma mb : positive) (ea eb : Z) :
  valid_binary (S754_finite false ma ea) = true ->
  valid_binary (S754_finite false mb eb) = true ->
  (ea < eb \/ (ea = eb /\ Zpos ma < Zpos mb) ->
   has_sign true (SF64sub (S754_finite false ma ea) (S754_finite false mb eb))) /\
  (eb < ea \/ (ea = eb /\ Zpos mb < Zpos ma) ->
   has_sign false (SF64sub (S754_finite false ma ea) (S754_finite false mb eb))) /\
  (ea = eb /\ ma = mb ->
   SF64sub (S754_finite false ma ea) (S754_finite false mb eb) = S754_zero false).
Proof.
  intros Ha Hb.
  pose proof (valid_finite _ _ _ Ha) as [Hea _].
  pose proof (valid_finite _ _ _ Hb) as [Heb _].
  unfold SF64sub, SFsub. cbn [cond_Zopp].
  destruct (shl_align_spec ma ea (Z.min ea eb)) as [_ Hma].
  destruct (shl_align_spec mb eb (Z.min ea eb)) as [_ Hmb].
  replace (Z.min ea (Z.min ea eb)) with (Z.min ea eb) in Hma by lia.
  replace (Z.min eb (Z.min ea eb)) with (Z.min ea eb) in Hmb by lia.
  rewrite Hma, Hmb.
  split; [ | split].
  - intros Hlt. pose proof (lex_lt_aligned ma mb ea eb Ha Hb Hlt) as Hd.
    destruct (Zpos ma * 2 ^ (ea - Z.min ea eb) - Zpos mb * 2 ^ (eb - Z.min ea eb))
      as [ | d | d] eqn:Ed; try lia.
    cbn [binary_normalize]. apply binary_round_sign. lia.
  - intros Hlt.
    assert (Hlt' : eb < ea \/ (eb = ea /\ Zpos mb < Zpos ma)) by lia.
    pose proof (lex_lt_aligned mb ma eb ea Hb Ha Hlt') as Hd.
    rewrite (Z.min_comm eb ea) in Hd.
    destruct (Zpos ma * 2 ^ (ea - Z.min ea eb) - Zpos mb * 2 ^ (eb - Z.min ea eb))
      as [ | d | d] eqn:Ed; try lia.
    cbn [binary_normalize]. apply binary_round_sign. lia.
  - intros [-> ->]. rewrite Z.sub_diag. reflexivity.
Qed.

Lemma Prim2SF_hundred : Prim2SF 100%float = S754_finite false 7036874417766400 (-46).
Proof. reflexivity. Qed.

Lemma Prim2SF_one : Prim2SF 1%float = S754_finite false 4503599627370496 (-52).
Proof. reflexivity. Qed.

Lemma xorb_false (s : bool) : xorb s false = s.
Proof. destruct s; reflexivity. Qed.

Lemma SFmul_hundred_sign (s : bool) (y : spec_float) :
  valid_binary y = true -> has_sign s y ->
  has_sign s (SF64mul y (S754_finite false 7036874417766400 (-46))).
Proof.
  intros Hv Hs. destruct y as [s' | s' | | s' m e]; simpl in Hs; try contradiction;
    subst s'.
  - simpl. apply xorb_false.
  - unfold SF64mul, SFmul. rewrite xorb_false.
    pose proof (valid_finite _ _ _ Hv) as [He _].
    change (Zpos (m * 7036874417766400)) with (Zpos m * 7036874417766400).
    destruct (Zpos m * 7036874417766400) as [ | p | p] eqn:Ep; try lia.
    apply binary_round_aux_sign.
    assert (Hd : 53 <= Zpos (digits2_pos p)).
    { apply (Zdigits2_ge_iff (Zpos p) 53); [lia | lia | ].
      change (2 ^ (53 - 1)) with 4503599627370496. lia. }
    lia.
Qed.

Lemma binary_round_aux_tail (s : bool) (M E : Z) (l : location) (a b : Z) :
  0 <= M -> loc_ok a b M l ->
  exists l1 : location,
    loc_ok a (2 ^ Z.max 0 (fexp prec emax (Zdigits2 M + E) - E) * b)
      (M / 2 ^ Z.max 0 (fexp prec emax (Zdigits2 M + E) - E)) l1 /\
    binary_round_aux prec emax s M E l =
    round_tail s
      (round_nearest_even (M / 2 ^ Z.max 0 (fexp prec emax (Zdigits2 M + E) - E)) l1)
      (E + Z.max 0 (fexp prec emax (Zdigits2 M + E) - E)).
Proof.
  intros HM Hl.
  destruct (binary_round_aux_spec s M E l a b HM Hl) as [l1 [Hl1 Heq]].
  exists l1. split; [exact Hl1 | ].
  unfold round_tail. apply (Heq _ _ _ _ eq_refl eq_refl eq_refl eq_refl).
Qed.

Lemma round_tail_zero (s : bool) (e1 : Z) : round_tail s 0 e1 = S754_zero s.
Proof. unfold round_tail. rewrite Z.div_0_l; [reflexivity | ]. 
  pose proof (pow2_pos (Z.max 0 (fexp prec emax (Zdigits2 0 + e1) - e1)) ltac:(lia)). lia.
Qed.

Lemma round_tail_small (s : bool) (M2 e1 : Z) :
  -1074 <= e1 -> 0 < M2 < 2 ^ 53 ->
  exists m, Zpos m = M2 /\
    round_tail s M2 e1 =
    if e1 <=? 971 then S754_finite s m e1 else S754_infinity s.
Proof.
  intros He HM. unfold round_tail. rewrite fexp64.
  assert (Hd : Zdigits2 M2 <= 53) by (apply Zdigits2_le_iff; lia).
  replace (Z.max 0 (Z.max (Zdigits2 M2 + e1 - 53) (-1074) - e1)) with 0 by lia.
  rewrite Z.pow_0_r, Z.div_1_r, Z.add_0_r.
  destruct M2 as [ | m | m]; try lia. exists m. split; reflexivity.
Qed.

Lemma round_tail_carry (s : bool) (e1 : Z) :
  -1074 <= e1 ->
  round_tail s (2 ^ 53) e1 =
  if e1 + 1 <=? 971 then S754_finite s 4503599627370496 (e1 + 1)
  else S754_infinity s.
Proof.
  intros He. unfold round_tail. rewrite fexp64.
  change (Zdigits2 (2 ^ 53)) with 54.
  replace (Z.max 0 (Z.max (54 + e1 - 53) (-1074) - e1)) with 1 by lia.
  reflexivity.
Qed.

Lemma SFdiv_core_spec (mx my : positive) (ex ey : Z) :
  SFdiv_core_binary prec emax (Zpos mx) ex (Zpos my) ey =
  (Zpos mx * 2 ^ (ex - ey - Z.min (fexp prec emax (Zpos (digits2_pos mx) + ex
                                    - (Zpos (digits2_pos my) + ey))) (ex - ey))
     / Zpos my,
   Z.min (fexp prec emax (Zpos (digits2_pos mx) + ex
                          - (Zpos (digits2_pos my) + ey))) (ex - ey),
   new_location (Zpos my)
     ((Zpos mx * 2 ^ (ex - ey - Z.min (fexp prec emax (Zpos (digits2_pos mx) + ex
                                    - (Zpos (digits2_pos my) + ey))) (ex - ey)))
        mod Zpos my)).
Proof.
  unfold SFdiv_core_binary. cbn [Zdigits2].
  set (e' := Z.min _ (ex - ey)).
  assert (Hs : 0 <= ex - ey - e') by (unfold e'; lia).
  assert (Hm : match ex - ey - e' with
               | Zpos _ => Z.shiftl (Zpos mx) (ex - ey - e')
               | Z0 => Zpos mx
               | Zneg _ => 0
               end = Zpos mx * 2 ^ (ex - ey - e')).
  { destruct (ex - ey - e') as [ | p | p] eqn:Es; try lia.
    rewrite Z.shiftl_mul_pow2 by lia. reflexivity. }
  rewrite Hm. unfold Z.div, Z.modulo.
  destruct (Z.div_eucl (Zpos mx * 2 ^ (ex - ey - e')) (Zpos my)) as [q r].
  reflexivity.
Qed.

(** The quotient of two finite floats: the mantissa [M1] truncated at the
    exponent [e1] of the result's binade, with the place of the exact
    quotient next to it, then rounded. *)
Lemma SFdiv_finite (sx sy : bool) (mx my : positive) (ex ey : Z) :
  exists (s K e1 M1 : Z) (l1 : location),
    0 <= s /\ 0 <= K /\ s - K = ex - ey - e1 /\
    loc_ok (Zpos mx * 2 ^ s) (2 ^ K * Zpos my) M1 l1 /\
    -1074 <= e1 /\ 0 <= M1 < 2 ^ 53 /\ (2 ^ 52 <= M1 \/ e1 = -1074) /\
    SF64div (S754_finite sx mx ex) (S754_finite sy my ey) =
    round_tail (xorb sx sy) (round_nearest_even M1 l1) e1.
Proof.
  unfold SF64div, SFdiv. rewrite SFdiv_core_spec.
  pose proof (digits2_bounds mx) as [Hmxlo Hmxhi].
  pose proof (digits2_bounds my) as [Hmylo Hmyhi].
  set (dx := Zpos (digits2_pos mx)) in *. set (dy := Zpos (digits2_pos my)) in *.
  assert (Hdx : 0 < dx) by (unfold dx; lia).
  assert (Hdy : 0 < dy) by (unfold dy; lia).
  set (t := dx + ex - (dy + ey)).
  set (e' := Z.min (fexp prec emax t) (ex - ey)).
  assert (He't : e' <= fexp prec emax t) by (unfold e'; lia).
  set (s := ex - ey - e').
  assert (Hs : 0 <= s) by (unfold s, e'; lia).
  set (m' := Zpos mx * 2 ^ s).
  assert (H2s : 0 < 2 ^ s) by (apply pow2_pos; exact Hs).
  assert (Hm'lo : 2 ^ (dx - 1) * 2 ^ s <= m') by (unfold m'; nia).
  assert (Hm'pos : 0 < m') by (unfold m'; nia).
  set (q := m' / Zpos my).
  assert (Hq : 0 <= q) by (apply Z.div_pos; lia).
  pose proof (Z.div_mod m' (Zpos my) ltac:(lia)) as Hdm. fold q in Hdm.
  pose proof (Z.mod_pos_bound m' (Zpos my) ltac:(lia)) as Hmod.
  assert (Hloc : loc_ok m' (Zpos my) q (new_location (Zpos my) (m' mod Zpos my))).
  { replace m' with (q * Zpos my + m' mod Zpos my) at 1 by lia.
    apply new_location_ok; lia. }
  destruct (binary_round_aux_tail (xorb sx sy) q e' _ m' (Zpos my) Hq Hloc)
    as [l1 [Hl1 Heq]].
  set (K := Z.max 0 (fexp prec emax (Zdigits2 q + e') - e')) in *.
  assert (HK : 0 <= K) by (unfold K; lia).
  assert (H2K : 0 < 2 ^ K) by (apply pow2_pos; exact HK).
  exists s, K, (e' + K), (q / 2 ^ K), l1.
  split; [exact Hs | split; [exact HK | split; [unfold s; lia | ]]].
  split; [exact Hl1 | ].
  split; [unfold K; rewrite fexp64; lia | ].
  split; [ | split; [ | exact Heq]].
  - split; [apply Z.div_pos; lia | ].
    apply Z.div_lt_upper_bound; [exact H2K | ].
    destruct (Z.eq_dec q 0) as [Hq0 | Hq0]; [rewrite Hq0; nia | ].
    pose proof (Zdigits2_bounds q ltac:(lia)) as [_ Hqhi].
    pose proof (Zdigits2_pos q ltac:(lia)) as Hdq.
    apply Z.lt_le_trans with (2 ^ Zdigits2 q); [exact Hqhi | ].
    rewrite <- Z.pow_add_r by lia. apply Z.pow_le_mono_r; [lia | ].
    unfold K. rewrite fexp64. lia.
  - destruct (Z.eq_dec q 0) as [Hq0 | Hq0].
    + right.
      assert (Hte : t <= e').
      { assert (Hlt : 2 ^ (dx - 1 + s) < 2 ^ dy).
        { rewrite Z.pow_add_r by lia. rewrite Hq0 in Hdm. lia. }
        apply Z.pow_lt_mono_r_iff in Hlt; [ | lia | lia ].
        unfold t, s in *. lia. }
      unfold K. rewrite Hq0. cbn [Zdigits2]. rewrite !fexp64.
      rewrite fexp64 in He't. lia.
    + pose proof (Zdigits2_bounds q ltac:(lia)) as [Hqlo Hqhi].
      pose proof (Zdigits2_pos q ltac:(lia)) as Hdq.
      set (dq := Zdigits2 q) in *.
      assert (Hg : dx + s - dy <= dq).
      { destruct (Z_le_gt_dec (dx + s - dy) 1) as [ | Hg1]; [lia | ].
        apply Zdigits2_ge_iff; [lia | lia | ].
        assert (Hsplit : 2 ^ (dx - 1) * 2 ^ s = 2 ^ (dx + s - dy - 1) * 2 ^ dy).
        { rewrite <- !Z.pow_add_r by lia. f_equal. lia. }
        assert (0 < 2 ^ (dx + s - dy - 1)) by (apply pow2_pos; lia).
        nia. }
      assert (Hte : t <= dq + e') by (unfold t, s in *; lia).
      assert (HKeq : K = Z.max (dq + e' - 53) (-1074) - e').
      { unfold K. rewrite fexp64. rewrite fexp64 in He't. lia. }
      destruct (Z_le_gt_dec (-1074 - e') (dq - 53)) as [Hn | Hsub].
      * left. assert (HK53 : K = dq - 53) by lia.
        apply Z.div_le_lower_bound; [exact H2K | ].
        rewrite <- Z.pow_add_r by lia.
        replace (K + 52) with (dq - 1) by lia. exact Hqlo.
      * right. lia.
Qed.

Lemma loc_ok_cancel (A B P m : Z) (l : location) :
  0 < P -> loc_ok (P * A) (P * B) m l -> loc_ok A B m l.
Proof.
  unfold loc_ok. intros HP [Hb [[Hlo Hhi] Hl]].
  assert (HB : 0 < B) by nia.
  split; [exact HB | split; [split; nia | ]].
  destruct l as [ | [ | | ]]; try nia; destruct Hl; split; nia.
Qed.

(** The same with the powers of two cancelled: [M1] is the integer part of
    the quotient scaled to the exponent [e1]. *)
Lemma SFdiv_finite_scaled (sx sy : bool) (mx my : positive) (ex ey : Z) :
  exists (e1 M1 : Z) (l1 : location),
    loc_ok (Zpos mx * 2 ^ Z.max 0 (ex - ey - e1))
           (2 ^ Z.max 0 (- (ex - ey - e1)) * Zpos my) M1 l1 /\
    -1074 <= e1 /\ 0 <= M1 < 2 ^ 53 /\ (2 ^ 52 <= M1 \/ e1 = -1074) /\
    SF64div (S754_finite sx mx ex) (S754_finite sy my ey) =
    round_tail (xorb sx sy) (round_nearest_even M1 l1) e1.
Proof.
  destruct (SFdiv_finite sx sy mx my ex ey)
    as [s [K [e1 [M1 [l1 [Hs [HK [Hw [Hloc [He1 [HM1 [Hcan Heq]]]]]]]]]]]].
  exists e1, M1, l1. split; [ | auto].
  rewrite <- Hw.
  destruct (Z_le_gt_dec K s) as [Hle | Hgt].
  - replace (Z.max 0 (s - K)) with (s - K) by lia.
    replace (Z.max 0 (- (s - K))) with 0 by lia.
    rewrite Z.pow_0_r, Z.mul_1_l.
    apply (loc_ok_cancel _ _ (2 ^ K)); [apply pow2_pos; lia | ].
    replace (2 ^ K * (Zpos mx * 2 ^ (s - K))) with (Zpos mx * 2 ^ s); [exact Hloc | ].
    rewrite (pow2_split s K) by lia. lia.
  - replace (Z.max 0 (s - K)) with 0 by lia.
    replace (Z.max 0 (- (s - K))) with (K - s) by lia.
    rewrite Z.pow_0_r, Z.mul_1_r.
    apply (loc_ok_cancel _ _ (2 ^ s)); [apply pow2_pos; lia | ].
    replace (2 ^ s * (2 ^ (K - s) * Zpos my)) with (2 ^ K * Zpos my).
    + rewrite (Z.mul_comm (2 ^ s)). exact Hloc.
    + rewrite (pow2_split K s) by lia. lia.
Qed.

Lemma SFltb_finite (ma mb : positive) (ea eb : Z) :
  SFltb (S754_finite false ma ea) (S754_finite false mb eb) = true <->
  lex_lt ma ea mb eb.
Proof.
  unfold SFltb, SFcompare, lex_lt.
  destruct (Z.compare_spec ea eb) as [He | He | He].
  - rewrite Pos.compare_cont_spec. simpl.
    destruct (Pos.compare_spec ma mb) as [Hm | Hm | Hm]; split; intros H;
      try discriminate; try reflexivity; try lia.
  - split; intros; [lia | reflexivity].
  - split; intros H; [discriminate | lia].
Qed.

Ltac pow2_const :=
  change (2 ^ 53) with 9007199254740992 in *;
  change (2 ^ 52) with 4503599627370496 in *.

(** A float above another: the quotient is above one. *)
Lemma SFdiv_above_one (mx my : positive) (ex ey : Z) :
  valid_binary (S754_finite false mx ex) = true ->
  valid_binary (S754_finite false my ey) = true ->
  lex_lt my ey mx ex ->
  SF64div (S754_finite false mx ex) (S754_finite false my ey) = S754_infinity false \/
  exists m e,
    SF64div (S754_finite false mx ex) (S754_finite false my ey) = S754_finite false m e /\
    lex_lt 4503599627370496 (-52) m e.
Proof.
  intros Hvx Hvy Hlt.
  pose proof (valid_finite _ _ _ Hvx) as [Hex _].
  pose proof (valid_finite _ _ _ Hvy) as [Hey _].
  pose proof (valid_mantissa _ _ _ Hvx) as [Hmx Hmxn].
  pose proof (valid_mantissa _ _ _ Hvy) as [Hmy Hmyn].
  destruct (SFdiv_finite_scaled false false mx my ex ey)
    as [e1 [M1 [l1 [Hloc [He1 [HM1 [Hcan Heq]]]]]]].
  rewrite Heq. clear Heq. cbn [xorb].
  destruct Hloc as [Hb [Hbr Hl]].
  assert (Hexy : ey <= ex) by (unfold lex_lt in Hlt; lia).
  assert (HW0 : 0 < 2 ^ Z.max 0 (ex - ey - e1)) by (apply pow2_pos; lia).
  assert (HV0 : 0 < 2 ^ Z.max 0 (- (ex - ey - e1))) by (apply pow2_pos; lia).
  (* the exponent of the result is at least -52 *)
  assert (He52 : -52 <= e1).
  { destruct (Z_le_gt_dec (-52) e1) as [ | Hlow]; [assumption | exfalso].
    replace (Z.max 0 (- (ex - ey - e1))) with 0 in * by lia.
    rewrite Z.pow_0_r, Z.mul_1_l in *.
    replace (Z.max 0 (ex - ey - e1)) with (ex - ey - e1) in * by lia.
    destruct Hlt as [Hlt | [Heq Hlt]].
    - specialize (Hmxn ltac:(lia)).
      assert (HW' : 2 ^ 54 <= 2 ^ (ex - ey - e1)) by (apply Z.pow_le_mono_r; lia).
      change (2 ^ 54) with 18014398509481984 in HW'. pow2_const.
      set (W := 2 ^ (ex - ey - e1)) in *. nia.
    - assert (HW' : 2 ^ 53 <= 2 ^ (ex - ey - e1)) by (apply Z.pow_le_mono_r; lia).
      pow2_const. set (W := 2 ^ (ex - ey - e1)) in *. nia. }
  pow2_const.
  assert (HM1lo : 4503599627370496 <= M1) by lia.
  assert (Hw0 : 0 <= ex - ey - e1).
  { destruct (Z_le_gt_dec 0 (ex - ey - e1)) as [ | Hneg]; [assumption | exfalso].
    replace (Z.max 0 (ex - ey - e1)) with 0 in * by lia.
    rewrite Z.pow_0_r, Z.mul_1_r in *.
    assert (HV : 2 ^ 1 <= 2 ^ Z.max 0 (- (ex - ey - e1)))
      by (apply Z.pow_le_mono_r; lia).
    change (2 ^ 1) with 2 in HV.
    set (V := 2 ^ Z.max 0 (- (ex - ey - e1))) in *. nia. }
  replace (Z.max 0 (- (ex - ey - e1))) with 0 in * by lia.
  rewrite Z.pow_0_r, Z.mul_1_l in *.
  replace (Z.max 0 (ex - ey - e1)) with (ex - ey - e1) in * by lia.
  pose proof (round_nearest_even_bounds M1 l1) as HM2.
  (* at the exponent -52 the mantissa is rounded above 2^52 *)
  assert (HM2lo : e1 = -52 -> 4503599627370496 < round_nearest_even M1 l1).
  { intros He. destruct (Z.eq_dec M1 4503599627370496) as [HM1eq | ]; [ | lia].
    assert (Hgt : (2 * M1 + 1) * Zpos my < 2 * (Zpos mx * 2 ^ (ex - ey - e1))).
    { destruct Hlt as [Hlt | [Heq Hlt]].
      - specialize (Hmxn ltac:(lia)).
        assert (HW' : 2 ^ 53 <= 2 ^ (ex - ey - e1)) by (apply Z.pow_le_mono_r; lia).
        pow2_const. set (W := 2 ^ (ex - ey - e1)) in *. nia.
      - replace (ex - ey - e1) with 52 in * by lia. pow2_const. nia. }
    destruct l1 as [ | [ | | ]]; cbn [round_nearest_even]; lia. }
  destruct (Z_lt_le_dec (round_nearest_even M1 l1) 9007199254740992) as [Hsm | Hbig].
  - destruct (round_tail_small false (round_nearest_even M1 l1) e1 He1
                ltac:(pow2_const; lia)) as [m [Hm ->]].
    destruct (e1 <=? 971); [right | left; reflexivity].
    exists m, e1. split; [reflexivity | ]. unfold lex_lt.
    destruct (Z.eq_dec e1 (-52)) as [He | He]; [ | lia].
    specialize (HM2lo He). lia.
  - assert (HM2eq : round_nearest_even M1 l1 = 2 ^ 53) by (pow2_const; lia).
    rewrite HM2eq, round_tail_carry by exact He1.
    destruct (e1 + 1 <=? 971); [right | left; reflexivity].
    exists 4503599627370496%positive, (e1 + 1). split; [reflexivity | ].
    unfold lex_lt. lia.
Qed.

(** A float below another: the quotient is zero or below one. *)
Lemma SFdiv_below_one (mx my : positive) (ex ey : Z) :
  valid_binary (S754_finite false mx ex) = true ->
  valid_binary (S754_finite false my ey) = true ->
  lex_lt mx ex my ey ->
  SF64div (S754_finite false mx ex) (S754_finite false my ey) = S754_zero false \/
  exists m e,
    SF64div (S754_finite false mx ex) (S754_finite false my ey) = S754_finite false m e /\
    lex_lt m e 4503599627370496 (-52).
Proof.
  intros Hvx Hvy Hlt.
  pose proof (valid_finite _ _ _ Hvx) as [Hex _].
  pose proof (valid_finite _ _ _ Hvy) as [Hey _].
  pose proof (valid_mantissa _ _ _ Hvx) as [Hmx Hmxn].
  pose proof (valid_mantissa _ _ _ Hvy) as [Hmy Hmyn].
  destruct (SFdiv_finite_scaled false false mx my ex ey)
    as [e1 [M1 [l1 [Hloc [He1 [HM1 [Hcan Heq]]]]]]].
  rewrite Heq. clear Heq. cbn [xorb].
  destruct Hloc as [Hb [Hbr Hl]].
  assert (Hexy : ex <= ey) by (unfold lex_lt in Hlt; lia).
  assert (HW0 : 0 < 2 ^ Z.max 0 (ex - ey - e1)) by (apply pow2_pos; lia).
  assert (HV0 : 0 < 2 ^ Z.max 0 (- (ex - ey - e1))) by (apply pow2_pos; lia).
  assert (HWV : (0 <= ex - ey - e1 /\ 2 ^ Z.max 0 (- (ex - ey - e1)) = 1 /\
                 2 ^ Z.max 0 (ex - ey - e1) = 2 ^ (ex - ey - e1)) \/
                (ex - ey - e1 < 0 /\ 2 ^ Z.max 0 (ex - ey - e1) = 1 /\
                 2 <= 2 ^ Z.max 0 (- (ex - ey - e1)))).
  { destruct (Z_le_gt_dec 0 (ex - ey - e1)) as [Hw | Hw]; [left | right].
    - replace (Z.max 0 (- (ex - ey - e1))) with 0 by lia.
      replace (Z.max 0 (ex - ey - e1)) with (ex - ey - e1) by lia.
      rewrite Z.pow_0_r. auto.
    - replace (Z.max 0 (ex - ey - e1)) with 0 by lia. rewrite Z.pow_0_r.
      split; [lia | split; [reflexivity | ]].
      change 2 with (2 ^ 1) at 1. apply Z.pow_le_mono_r; lia. }
  set (W := 2 ^ Z.max 0 (ex - ey - e1)) in *.
  set (V := 2 ^ Z.max 0 (- (ex - ey - e1))) in *.
  pow2_const.
  (* the exponent of the result is at most -53 *)
  assert (He53 : e1 <= -53).
  { destruct (Z_le_gt_dec e1 (-53)) as [ | Hhigh]; [assumption | exfalso].
    assert (HM1lo : 4503599627370496 <= M1) by lia.
    destruct HWV as [[Hw [HV HW]] | [Hw [HW HV]]].
    - rewrite HV in *. destruct Hlt as [Hlt | [Heq Hlt]].
      + specialize (Hmyn ltac:(lia)).
        assert (HW' : 2 ^ (ex - ey - e1) <= 2 ^ 51) by (apply Z.pow_le_mono_r; lia).
        change (2 ^ 51) with 2251799813685248 in HW'. rewrite <- HW in HW'.
        assert (Zpos mx * W <= 9007199254740991 * 2251799813685248) by nia.
        assert (4503599627370496 * 4503599627370496 <= M1 * Zpos my) by nia.
        lia.
      + assert (HW' : 2 ^ (ex - ey - e1) <= 2 ^ 52) by (apply Z.pow_le_mono_r; lia).
        pow2_const. rewrite <- HW in HW'. nia.
    - rewrite HW in *. nia. }
  pose proof (round_nearest_even_bounds M1 l1) as HM2.
  (* at the exponent -53 the mantissa stays below 2^53 *)
  assert (HM2hi : e1 = -53 -> round_nearest_even M1 l1 < 9007199254740992).
  { intros He.
    assert (Hle : Zpos mx * W <= 9007199254740991 * (V * Zpos my)).
    { destruct HWV as [[Hw [HV HW]] | [Hw [HW HV]]].
      - rewrite HV in *. destruct Hlt as [Hlt | [Heq Hlt]].
        + specialize (Hmyn ltac:(lia)).
          assert (HW' : 2 ^ (ex - ey - e1) <= 2 ^ 52) by (apply Z.pow_le_mono_r; lia).
          pow2_const. rewrite <- HW in HW'.
          assert (Zpos mx * W <= 9007199254740991 * 4503599627370496) by nia.
          nia.
        + replace (ex - ey - e1) with 53 in HW by lia. pow2_const. nia.
      - rewrite HW in *. nia. }
    destruct l1 as [ | [ | | ]]; cbn [round_nearest_even] in *;
      try destruct (Z.even M1); nia. }
  destruct (Z.eq_dec (round_nearest_even M1 l1) 0) as [Hz | Hnz].
  - left. rewrite Hz. apply round_tail_zero.
  - right.
    destruct (Z_lt_le_dec (round_nearest_even M1 l1) 9007199254740992) as [Hsm | Hbig].
    + destruct (round_tail_small false (round_nearest_even M1 l1) e1 He1
                  ltac:(pow2_const; lia)) as [m [Hm ->]].
      replace (e1 <=? 971) with true by (symmetry; apply Z.leb_le; lia).
      exists m, e1. split; [reflexivity | ]. unfold lex_lt. lia.
    + assert (HM2eq : round_nearest_even M1 l1 = 2 ^ 53) by (pow2_const; lia).
      assert (He54 : e1 <= -54).
      { destruct (Z.eq_dec e1 (-53)) as [He | ]; [ | lia].
        specialize (HM2hi He). lia. }
      rewrite HM2eq, round_tail_carry by exact He1.
      replace (e1 + 1 <=? 971) with true by (symmetry; apply Z.leb_le; lia).
      exists 4503599627370496%positive, (e1 + 1). split; [reflexivity | ].
      unfold lex_lt. lia.
Qed.

(** A float divided by itself is one. *)
Lemma SFdiv_same (mx : positive) (ex : Z) :
  SF64div (S754_finite false mx ex) (S754_finite false mx ex) =
  S754_finite false 4503599627370496 (-52).
Proof.
  destruct (SFdiv_finite_scaled false false mx mx ex ex)
    as [e1 [M1 [l1 [Hloc [He1 [HM1 [Hcan Heq]]]]]]].
  rewrite Heq. clear Heq. cbn [xorb].
  destruct Hloc as [Hb [Hbr Hl]].
  replace (ex - ex - e1) with (- e1) in * by lia.
  assert (Hw : 0 <= - e1).
  { destruct (Z_le_gt_dec 0 (- e1)) as [ | Hneg]; [assumption | exfalso].
    replace (Z.max 0 (- e1)) with 0 in * by lia.
    rewrite Z.pow_0_r, Z.mul_1_r in *.
    assert (HV : 2 ^ 1 <= 2 ^ Z.max 0 (- - e1)) by (apply Z.pow_le_mono_r; lia).
    change (2 ^ 1) with 2 in HV. set (V := 2 ^ Z.max 0 (- - e1)) in *.
    pow2_const. nia. }
  replace (Z.max 0 (- - e1)) with 0 in * by lia.
  replace (Z.max 0 (- e1)) with (- e1) in * by lia.
  rewrite Z.pow_0_r, Z.mul_1_l in *.
  assert (HM1eq : M1 = 2 ^ (- e1)) by nia.
  assert (He52 : e1 = -52).
  { destruct HM1 as [_ HM1hi]. rewrite HM1eq in HM1hi.
    apply Z.pow_lt_mono_r_iff in HM1hi; [ | lia | lia].
    destruct Hcan as [Hlo | ]; [ | lia].
    rewrite HM1eq in Hlo. apply Z.pow_le_mono_r_iff in Hlo; lia. }
  rewrite He52 in *. change (2 ^ (- -52)) with 4503599627370496 in *.
  assert (Hrne : round_nearest_even M1 l1 = 4503599627370496).
  { destruct l1 as [ | [ | | ]]; cbn [round_nearest_even]; nia. }
  rewrite Hrne.
  destruct (round_tail_small false 4503599627370496 (-52) ltac:(lia)
              ltac:(pow2_const; lia)) as [m [Hm ->]].
  injection Hm as ->. reflexivity.
Qed.

(** *** From the specification to the primitive floats *)

Lemma SFltb_zero_sign (v : spec_float) :
  (has_sign false v -> SFltb (S754_zero false) v = true) /\
  (has_sign true v -> SFltb (S754_zero false) v = false) /\
  (has_sign true v -> SFltb v (S754_zero false) = true) /\
  (has_sign false v -> SFltb v (S754_zero false) = false).
Proof.
  destruct v as [s | s | | s m e]; simpl; repeat split; intros H;
    try contradiction; subst; reflexivity.
Qed.

Lemma has_sign_mul_hundred (d : float) (s : bool) :
  has_sign s (Prim2SF d) -> has_sign s (Prim2SF (d * 100)%float).
Proof.
  intros Hs. rewrite mul_spec, Prim2SF_hundred.
  apply SFmul_hundred_sign; [apply Prim2SF_valid | exact Hs].
Qed.

Lemma zero_mul_hundred (d : float) (s : bool) :
  Prim2SF d = S754_zero s -> Prim2SF (d * 100)%float = S754_zero s.
Proof.
  intros Hd. rewrite mul_spec, Prim2SF_hundred, Hd. simpl.
  rewrite xorb_false. reflexivity.
Qed.

Lemma valid_one : valid_binary (S754_finite false 4503599627370496 (-52)) = true.
Proof. reflexivity. Qed.

Lemma sub_one_sign (q : float) :
  match Prim2SF q with
  | S754_infinity false => has_sign false (Prim2SF (q - 1)%float)
  | S754_zero _ => has_sign true (Prim2SF (q - 1)%float)
  | S754_finite false m e =>
    (lex_lt 4503599627370496 (-52) m e -> has_sign false (Prim2SF (q - 1)%float)) /\
    (lex_lt m e 4503599627370496 (-52) -> has_sign true (Prim2SF (q - 1)%float)) /\
    (m = 4503599627370496%positive /\ e = -52 ->
     Prim2SF (q - 1)%float = S754_zero false)
  | _ => True
  end.
Proof.
  rewrite sub_spec, Prim2SF_one.
  pose proof (Prim2SF_valid q) as Hv.
  destruct (Prim2SF q) as [s | [ | ] | | [ | ] m e]; try exact I.
  - reflexivity.
  - reflexivity.
  - destruct (SFsub_sign m 4503599627370496 e (-52) Hv valid_one) as [Hlt [Hgt Heq]].
    unfold lex_lt. split; [ | split].
    + intros H. apply Hgt. lia.
    + intros H. apply Hlt. lia.
    + intros [-> ->]. apply Heq. split; reflexivity.
Qed.

Lemma positive_float (x : float) :
  (0 <? x)%float = true ->
  Prim2SF x = S754_infinity false \/ exists m e, Prim2SF x = S754_finite false m e.
Proof.
  rewrite float_ltb_zero.
  destruct (Prim2SF x) as [s | [ | ] | | [ | ] m e]; simpl; try discriminate; eauto.
Qed.

Lemma lex_trichotomy (ma mb : positive) (ea eb : Z) :
  lex_lt ma ea mb eb \/ (ma = mb /\ ea = eb) \/ lex_lt mb eb ma ea.
Proof.
  unfold lex_lt.
  destruct (Z.lt_trichotomy ea eb) as [ | [ | ]]; lia.
Qed.

(** On floats, for all positive rates, infinite ones included: the
    premium is positive exactly when the observed rate is above the
    reference rate. *)
Theorem float_premium_sign (x y : float) :
  (0 <? x)%float = true -> (0 <? y)%float = true ->
  (0 <? (x / y - 1) * 100)%float = (y <? x)%float.
Proof.
  intros Hx Hy.
  rewrite (ltb_spec 0), (ltb_spec y), Prim2SF_zero.
  pose proof (Prim2SF_valid x) as Hvx. pose proof (Prim2SF_valid y) as Hvy.
  pose proof (sub_one_sign (x / y)) as Hsub.
  pose proof (has_sign_mul_hundred (x / y - 1)) as Hmul.
  pose proof (zero_mul_hundred (x / y - 1)) as Hmulz.
  pose proof (SFltb_zero_sign (Prim2SF ((x / y - 1) * 100)%float))
    as [Hpos [Hneg _]].
  rewrite div_spec in Hsub.
  destruct (positive_float x Hx) as [Ex | [mx [ex Ex]]];
    destruct (positive_float y Hy) as [Ey | [my [ey Ey]]];
    rewrite Ex, Ey in *.
  - (* inf / inf *)
    rewrite mul_spec, sub_spec, div_spec, Ex, Ey. reflexivity.
  - (* inf / finite *)
    cbn [SF64div SFdiv xorb] in Hsub.
    rewrite (Hpos (Hmul false Hsub)). reflexivity.
  - (* finite / inf *)
    cbn [SF64div SFdiv xorb] in Hsub.
    rewrite (Hneg (Hmul true Hsub)). reflexivity.
  - destruct (lex_trichotomy mx my ex ey) as [Hlt | [[-> ->] | Hgt]].
    + (* x < y *)
      assert (Hr : SFltb (S754_finite false my ey) (S754_finite false mx ex) = false).
      { destruct (SFltb (S754_finite false my ey) (S754_finite false mx ex)) eqn:E;
          [ | reflexivity].
        apply SFltb_finite in E. unfold lex_lt in *. lia. }
      rewrite Hr. apply Hneg, Hmul.
      destruct (SFdiv_below_one mx my ex ey Hvx Hvy Hlt) as [Hq | [m [e [Hq Hm]]]];
        rewrite Hq in Hsub.
      * exact Hsub.
      * apply Hsub, Hm.
    + (* x = y *)
      rewrite SFdiv_same in Hsub.
      destruct Hsub as [_ [_ Hz]]. specialize (Hz (conj eq_refl eq_refl)).
      rewrite (Hmulz false Hz).
      destruct (SFltb (S754_finite false my ey) (S754_finite false my ey)) eqn:E;
        [ | reflexivity].
      apply SFltb_finite in E. unfold lex_lt in E. lia.
    + (* y < x *)
      rewrite (proj2 (SFltb_finite my mx ey ex) Hgt).
      apply Hpos, Hmul.
      destruct (SFdiv_above_one mx my ex ey Hvx Hvy Hgt) as [Hq | [m [e [Hq Hm]]]];
        rewrite Hq in Hsub.
      * exact Hsub.
      * apply Hsub, Hm.
Qed.

(** *** Magnitudes: rounding keeps the binade *)

Lemma Zdigits2_shift (M K : Z) :
  0 < M -> 0 <= K < Zdigits2 M -> Zdigits2 (M / 2 ^ K) = Zdigits2 M - K.
Proof.
  intros HM HK. pose proof (Zdigits2_bounds M HM) as [Hlo Hhi].
  pose proof (pow2_pos K ltac:(lia)) as HP.
  assert (Hlo' : 2 ^ (Zdigits2 M - K - 1) <= M / 2 ^ K).
  { apply Z.div_le_lower_bound; [exact HP | ].
    rewrite <- Z.pow_add_r by lia.
    replace (K + (Zdigits2 M - K - 1)) with (Zdigits2 M - 1) by lia. exact Hlo. }
  assert (Hhi' : M / 2 ^ K < 2 ^ (Zdigits2 M - K)).
  { apply Z.div_lt_upper_bound; [exact HP | ].
    rewrite <- Z.pow_add_r by lia.
    replace (K + (Zdigits2 M - K)) with (Zdigits2 M) by lia. exact Hhi. }
  apply Zdigits2_unique; [ | split; assumption].
  pose proof (pow2_pos (Zdigits2 M - K - 1) ltac:(lia)). lia.
Qed.

Lemma Zdigits2_mono (M N : Z) : 0 < M <= N -> Zdigits2 M <= Zdigits2 N.
Proof.
  intros H. destruct M as [ | p | p]; try lia. destruct N as [ | q | q]; try lia.
  apply digits2_mono. lia.
Qed.

Lemma magnitude_sign (s : bool) (d : Z) (y : spec_float) :
  magnitude s d y -> has_sign s y.
Proof. destruct y; simpl; tauto. Qed.

Lemma round_tail_magnitude (s : bool) (M2 e1 : Z) :
  0 < M2 -> -1074 - e1 < Zdigits2 M2 ->
  magnitude s (Zdigits2 M2 + e1) (round_tail s M2 e1).
Proof.
  intros HM He. unfold round_tail. rewrite fexp64.
  pose proof (Zdigits2_pos M2 HM) as Hd.
  set (K2 := Z.max 0 (Z.max (Zdigits2 M2 + e1 - 53) (-1074) - e1)).
  assert (HK2 : 0 <= K2 < Zdigits2 M2) by (unfold K2; lia).
  pose proof (Zdigits2_shift M2 K2 HM HK2) as Hsh.
  pose proof (Zdigits2_bounds M2 HM) as [Hlo _].
  assert (Hpos : 0 < M2 / 2 ^ K2).
  { apply Z.div_str_pos. split; [apply pow2_pos; lia | ].
    apply Z.le_trans with (2 ^ (Zdigits2 M2 - 1)); [ | exact Hlo].
    apply Z.pow_le_mono_r; lia. }
  destruct (M2 / 2 ^ K2) as [ | m | m] eqn:Em; try lia.
  destruct (e1 + K2 <=? 971); cbn [magnitude]; [ | reflexivity].
  split; [reflexivity | ]. cbn [Zdigits2] in Hsh. lia.
Qed.

Lemma binary_round_aux_magnitude (s : bool) (M : positive) (E : Z) (l : location) :
  -1074 - E < Zpos (digits2_pos M) ->
  magnitude s (Zpos (digits2_pos M) + E) (binary_round_aux prec emax s (Zpos M) E l).
Proof.
  intros HE.
  assert (Hl : loc_ok (Zpos M * 1) 1 (Zpos M) loc_Exact -> True) by auto.
  destruct (binary_round_aux_tail s (Zpos M) E l
              (match l with loc_Exact => Zpos M * 2 | loc_Inexact Lt => Zpos M * 4 + 1
                          | loc_Inexact Eq => Zpos M * 4 + 2
                          | loc_Inexact Gt => Zpos M * 4 + 3 end)
              (match l with loc_Exact => 2 | _ => 4 end)
              ltac:(lia)) as [l1 [_ Heq]].
  { unfold loc_ok. destruct l as [ | [ | | ]]; lia. }
  rewrite Heq. clear Heq. cbn [Zdigits2]. rewrite fexp64.
  set (d := Zpos (digits2_pos M)) in *.
  set (K := Z.max 0 (Z.max (d + E - 53) (-1074) - E)).
  assert (HK : 0 <= K < d) by (unfold K, d in *; lia).
  pose proof (Zdigits2_shift (Zpos M) K ltac:(lia) HK) as Hsh. cbn [Zdigits2] in Hsh.
  fold d in Hsh.
  pose proof (digits2_bounds M) as [Hlo _]. fold d in Hlo.
  assert (Hpos : 0 < Zpos M / 2 ^ K).
  { apply Z.div_str_pos. split; [apply pow2_pos; lia | ].
    apply Z.le_trans with (2 ^ (d - 1)); [ | exact Hlo].
    apply Z.pow_le_mono_r; lia. }
  pose proof (round_nearest_even_bounds (Zpos M / 2 ^ K) l1) as Hr.
  set (M2 := round_nearest_even (Zpos M / 2 ^ K) l1) in *.
  assert (Hd2 : d - K <= Zdigits2 M2).
  { rewrite <- Hsh. apply Zdigits2_mono. lia. }
  assert (Hm : magnitude s (Zdigits2 M2 + (E + K)) (round_tail s M2 (E + K))).
  { apply round_tail_magnitude; [lia | ]. unfold K in *. lia. }
  destruct (round_tail s M2 (E + K)) as [ | | | s' m e]; cbn [magnitude] in *;
    try tauto.
  destruct Hm as [-> Hm]. split; [reflexivity | lia].
Qed.

Lemma binary_round_magnitude (s : bool) (m : positive) (e : Z) :
  -1074 <= e ->
  magnitude s (Zpos (digits2_pos m) + e) (binary_round prec emax s m e).
Proof.
  intros He. unfold binary_round.
  destruct (shl_align_spec m e (fexp prec emax (Zpos (digits2_pos m) + e)))
    as [Hez Hmz].
  destruct (shl_align m e (fexp prec emax (Zpos (digits2_pos m) + e)))
    as [mz ez]. cbn [fst snd] in *.
  rewrite <- Hez in Hmz. rewrite fexp64 in Hez.
  assert (Hsh : 0 <= e - ez) by lia.
  pose proof (digits2_bounds m) as [Hlo Hhi].
  pose proof (pow2_pos (e - ez) Hsh) as HP.
  assert (Hd : Zpos (digits2_pos mz) = Zpos (digits2_pos m) + (e - ez)).
  { apply digits2_unique. rewrite Hmz. split.
    - replace (Zpos (digits2_pos m) + (e - ez) - 1)
        with ((Zpos (digits2_pos m) - 1) + (e - ez)) by lia.
      rewrite Z.pow_add_r by lia. nia.
    - rewrite Z.pow_add_r by lia. nia. }
  replace (Zpos (digits2_pos m) + e) with (Zpos (digits2_pos mz) + ez) by lia.
  apply binary_round_aux_magnitude. lia.
Qed.

(** The difference of a float and a greater one is negative and not small
    against the greater one. *)
Lemma SFsub_below (mb ms : positive) (eb es : Z) :
  valid_binary (S754_finite false mb eb) = true ->
  valid_binary (S754_finite false ms es) = true ->
  lex_lt mb eb ms es ->
  magnitude true es (SF64sub (S754_finite false mb eb) (S754_finite false ms es)).
Proof.
  intros Hb Hs Hlt.
  pose proof (valid_finite _ _ _ Hb) as [Heb _].
  pose proof (valid_finite _ _ _ Hs) as [Hes _].
  pose proof (valid_mantissa _ _ _ Hb) as [Hmb _].
  pose proof (valid_mantissa _ _ _ Hs) as [_ Hmsn].
  pose proof (lex_lt_aligned mb ms eb es Hb Hs Hlt) as Hd.
  unfold SF64sub, SFsub. cbn [cond_Zopp].
  destruct (shl_align_spec mb eb (Z.min eb es)) as [_ Hmb'].
  destruct (shl_align_spec ms es (Z.min eb es)) as [_ Hms'].
  replace (Z.min eb (Z.min eb es)) with (Z.min eb es) in Hmb' by lia.
  replace (Z.min es (Z.min eb es)) with (Z.min eb es) in Hms' by lia.
  rewrite Hmb', Hms'.
  assert (Hmin : Z.min eb es = eb) by (unfold lex_lt in Hlt; lia).
  rewrite Hmin in *. rewrite Z.sub_diag, Z.pow_0_r, Z.mul_1_r in *.
  destruct (Zpos mb - Zpos ms * 2 ^ (es - eb)) as [ | d | d] eqn:Ed; try lia.
  cbn [binary_normalize].
  pose proof (binary_round_magnitude true d eb ltac:(lia)) as Hm.
  assert (Hdig : es - eb <= Zpos (digits2_pos d)).
  { destruct (Z_le_gt_dec (es - eb) 1) as [ | Hn]; [lia | ].
    apply (Zdigits2_ge_iff (Zpos d)); [lia | lia | ].
    specialize (Hmsn ltac:(lia)).
    assert (H2 : 2 ^ (es - eb) = 2 * 2 ^ (es - eb - 1)).
    { rewrite <- Z.pow_succ_r by lia. f_equal. lia. }
    assert (HP : 2 ^ 1 <= 2 ^ (es - eb - 1)) by (apply Z.pow_le_mono_r; lia).
    change (2 ^ 1) with 2 in HP. pow2_const.
    set (P := 2 ^ (es - eb - 1)) in *. nia. }
  destruct (binary_round prec emax true d eb) as [ | | | s' m e];
    cbn [magnitude] in *; try tauto.
  destruct Hm as [-> Hm]. split; [reflexivity | lia].
Qed.

(** The sign of a quotient of finite floats is never the opposite one. *)
Lemma SFdiv_sign_or_zero (sx : bool) (mx my : positive) (ex ey : Z) :
  SF64div (S754_finite sx mx ex) (S754_finite false my ey) = S754_zero sx \/
  has_sign sx (SF64div (S754_finite sx mx ex) (S754_finite false my ey)).
Proof.
  destruct (SFdiv_finite_scaled sx false mx my ex ey)
    as [e1 [M1 [l1 [Hloc [He1 [HM1 [Hcan Heq]]]]]]].
  rewrite Heq, xorb_false.
  pose proof (round_nearest_even_bounds M1 l1) as HM2.
  destruct (Z.eq_dec (round_nearest_even M1 l1) 0) as [Hz | Hnz].
  - left. rewrite Hz. apply round_tail_zero.
  - right. apply (magnitude_sign _ (Zdigits2 (round_nearest_even M1 l1) + e1)).
    apply round_tail_magnitude; [lia | ].
    pose proof (Zdigits2_pos (round_nearest_even M1 l1) ltac:(lia)). lia.
Qed.

(** A quotient does not vanish when the dividend is not small against the
    divisor. *)
Lemma SFdiv_nonzero (sx : bool) (mx my : positive) (ex ey : Z) :
  valid_binary (S754_finite sx mx ex) = true ->
  valid_binary (S754_finite false my ey) = true ->
  ey <= Zpos (digits2_pos mx) + ex ->
  has_sign sx (SF64div (S754_finite sx mx ex) (S754_finite false my ey)).
Proof.
  intros Hvx Hvy Hmag.
  pose proof (valid_finite _ _ _ Hvx) as [Hex [Hdx _]].
  pose proof (valid_mantissa _ _ _ Hvy) as [Hmy _].
  destruct (SFdiv_finite_scaled sx false mx my ex ey)
    as [e1 [M1 [l1 [Hloc [He1 [HM1 [Hcan Heq]]]]]]].
  rewrite Heq, xorb_false.
  pose proof (round_nearest_even_bounds M1 l1) as HM2.
  assert (HM1pos : 1 <= M1).
  { pow2_const. destruct Hcan as [ | He]; [lia | ].
    destruct (Z_le_gt_dec 1 M1) as [ | Hz]; [assumption | exfalso].
    assert (HM0 : M1 = 0) by lia.
    destruct Hloc as [_ [[_ Hhi] _]]. rewrite HM0 in Hhi.
    replace (Z.max 0 (- (ex - ey - e1))) with 0 in Hhi by lia.
    replace (Z.max 0 (ex - ey - e1)) with (ex - ey - e1) in Hhi by lia.
    assert (HW : 2 ^ 53 <= 2 ^ (ex - ey - e1)) by (apply Z.pow_le_mono_r; lia).
    pow2_const. rewrite Z.pow_0_r in Hhi. nia. }
  apply (magnitude_sign _ (Zdigits2 (round_nearest_even M1 l1) + e1)).
  apply round_tail_magnitude; [lia | ].
  pose proof (Zdigits2_pos (round_nearest_even M1 l1) ltac:(lia)). lia.
Qed.

Lemma Prim2SF_infinity : Prim2SF infinity = S754_infinity false.
Proof. reflexivity. Qed.

Lemma finite_positive_float (x : float) :
  (0 <? x)%float = true -> (x <? infinity)%float = true ->
  exists m e, Prim2SF x = S754_finite false m e.
Proof.
  intros Hpos Hfin. rewrite ltb_spec, Prim2SF_infinity in Hfin.
  destruct (positive_float x Hpos) as [E | E]; [ | exact E].
  rewrite E in Hfin. discriminate Hfin.
Qed.

(** On floats, for every positive [buy_rate] and every positive finite
    [sell_rate]: the spread is negative exactly when the buy rate is below
    the sell rate. *)
Theorem float_spread_sign (b s : float) :
  (0 <? b)%float = true -> (0 <? s)%float = true ->
  (s <? infinity)%float = true ->
  ((b - s) / s * 100 <? 0)%float = (b <? s)%float.
Proof.
  intros Hb Hs Hsfin.
  rewrite (ltb_spec _ 0), (ltb_spec b), Prim2SF_zero.
  pose proof (Prim2SF_valid b) as Hvb. pose proof (Prim2SF_valid s) as Hvs.
  pose proof (Prim2SF_valid (b - s)) as Hvd.
  pose proof (has_sign_mul_hundred ((b - s) / s)) as Hmul.
  pose proof (zero_mul_hundred ((b - s) / s)) as Hmulz.
  pose proof (SFltb_zero_sign (Prim2SF ((b - s) / s * 100)%float))
    as [_ [_ [Hneg Hpos]]].
  destruct (finite_positive_float s Hs Hsfin) as [ms [es Es]].
  rewrite div_spec in Hmul, Hmulz. rewrite sub_spec in Hmul, Hmulz, Hvd.
  rewrite Es in *.
  destruct (positive_float b Hb) as [Eb | [mb [eb Eb]]]; rewrite Eb in *.
  - (* inf - s *)
    cbn [SF64sub SFsub SF64div SFdiv xorb] in Hmul.
    rewrite (Hpos (Hmul false eq_refl)). reflexivity.
  - destruct (lex_trichotomy mb ms eb es) as [Hlt | [[-> ->] | Hgt]].
    + (* b < s *)
      rewrite (proj2 (SFltb_finite mb ms eb es) Hlt).
      apply Hneg, Hmul.
      pose proof (SFsub_below mb ms eb es Hvb Hvs Hlt) as Hmag.
      destruct (SF64sub (S754_finite false mb eb) (S754_finite false ms es))
        as [ | sd | | sd md ed]; cbn [magnitude] in Hmag; try contradiction.
      * subst sd. reflexivity.
      * destruct Hmag as [-> Hmag].
        apply SFdiv_nonzero; [exact Hvd | exact Hvs | lia].
    + (* b = s *)
      destruct (SFsub_sign ms ms es es Hvs Hvs) as [_ [_ Hz]].
      rewrite (Hz (conj eq_refl eq_refl)) in Hmulz.
      cbn [SF64div SFdiv xorb] in Hmulz. rewrite (Hmulz false eq_refl).
      destruct (SFltb (S754_finite false ms es) (S754_finite false ms es)) eqn:E;
        [ | reflexivity].
      apply SFltb_finite in E. unfold lex_lt in E. lia.
    + (* s < b *)
      assert (Hr : SFltb (S754_finite false mb eb) (S754_finite false ms es) = false).
      { destruct (SFltb (S754_finite false mb eb) (S754_finite false ms es)) eqn:E;
          [ | reflexivity].
        apply SFltb_finite in E. unfold lex_lt in *. lia. }
      rewrite Hr.
      destruct (SFsub_sign mb ms eb es Hvb Hvs) as [_ [Hsg _]].
      assert (Hd : has_sign false
                (SF64sub (S754_finite false mb eb) (S754_finite false ms es))).
      { apply Hsg. unfold lex_lt in Hgt. lia. }
      destruct (SF64sub (S754_finite false mb eb) (S754_finite false ms es))
        as [ | sd | | sd md ed]; cbn [has_sign] in Hd; try contradiction; subst sd.
      * cbn [SF64div SFdiv xorb] in Hmul. apply Hpos, (Hmul false eq_refl).
      * destruct (SFdiv_sign_or_zero false md ms ed es) as [Hz | Hsn].
        -- rewrite (Hmulz false Hz). reflexivity.
        -- apply Hpos, Hmul, Hsn.
Qed.

(** ** Binary64: the builtin [round]

    The quotient of two integers is a float of the sign of the dividend,
    finite below [2^1023]; so [round], which converts the decimal nearest
    to the value of a float, keeps the sign of a value above half a unit
    of the last digit, and returns. *)

Lemma round_tail_valid (s : bool) (M2 e1 : Z) :
  -1074 <= e1 -> 0 < M2 <= 2 ^ 53 -> (2 ^ 52 <= M2 \/ e1 = -1074) ->
  valid_binary (round_tail s M2 e1) = true /\ has_sign s (round_tail s M2 e1).
Proof.
  intros He HM Hcan.
  destruct (Z_lt_le_dec M2 (2 ^ 53)) as [Hsm | Hbig].
  - destruct (round_tail_small s M2 e1 He ltac:(lia)) as [m [Hm ->]].
    destruct (Z.leb_spec e1 971) as [Hle | Hgt]; [ | split; reflexivity].
    split; [ | reflexivity].
    unfold FloatAxioms.valid_binary, SpecFloat.valid_binary, bounded, canonical_mantissa.
    rewrite andb_true_iff, Z.eqb_eq, Z.leb_le, fexp64.
    change (emax - prec) with 971. split; [ | exact Hle].
    assert (Hd : Zpos (digits2_pos m) <= 53).
    { apply (Zdigits2_le_iff (Zpos m) 53); lia. }
    destruct Hcan as [Hlo | He1]; [ | lia].
    assert (Hd' : 53 <= Zpos (digits2_pos m)).
    { apply (Zdigits2_ge_iff (Zpos m) 53); [lia | lia | ].
      replace (53 - 1) with 52 by lia. lia. }
    lia.
  - assert (HM2 : M2 = 2 ^ 53) by lia. rewrite HM2, round_tail_carry by exact He.
    destruct (Z.leb_spec (e1 + 1) 971) as [Hle | Hgt]; [ | split; reflexivity].
    split; [ | reflexivity].
    unfold FloatAxioms.valid_binary, SpecFloat.valid_binary, bounded, canonical_mantissa.
    rewrite andb_true_iff, Z.eqb_eq, Z.leb_le, fexp64.
    change (emax - prec) with 971.
    change (Zpos (digits2_pos 4503599627370496)) with 53. lia.
Qed.

(** The quotient of two integers, when it is at least [2^-1074]: a valid
    float of the sign of the dividend. *)
Lemma SFdiv_integers (s : bool) (n d : positive) :
  Zpos d <= Zpos n * 2 ^ 1074 ->
  valid_binary (SF64div (S754_finite s n 0) (S754_finite false d 0)) = true /\
  has_sign s (SF64div (S754_finite s n 0) (S754_finite false d 0)).
Proof.
  intros Hmag.
  destruct (SFdiv_finite_scaled s false n d 0 0)
    as [e1 [M1 [l1 [Hloc [He1 [HM1 [Hcan Heq]]]]]]].
  rewrite Heq, xorb_false.
  pose proof (round_nearest_even_bounds M1 l1) as HM2.
  assert (HM1pos : 1 <= M1).
  { destruct Hcan as [Hlo | He].
    - pose proof (pow2_pos 52 ltac:(lia)). lia.
    - destruct (Z_le_gt_dec 1 M1) as [ | Hz]; [assumption | exfalso].
      assert (HM0 : M1 = 0) by lia.
      destruct Hloc as [_ [[_ Hhi] _]]. rewrite HM0, He in Hhi.
      change (Z.max 0 (0 - 0 - -1074)) with 1074 in Hhi.
      change (Z.max 0 (- (0 - 0 - -1074))) with 0 in Hhi.
      rewrite Z.pow_0_r in Hhi. lia. }
  apply round_tail_valid; [exact He1 | lia | ].
  destruct Hcan as [Hlo | He]; [left; lia | right; exact He].
Qed.

(** Finite floats on the primitive side *)

Lemma finite_float_facts (x : float) (s : bool) (m : positive) (e : Z) :
  Prim2SF x = S754_finite s m e ->
  is_finite x = true /\ get_sign x = s /\
  float_sgn x = (if s then -1 else 1).
Proof.
  intros Ex. split; [ | split].
  - unfold is_finite, is_infinity. rewrite float_is_nan, eqb_spec, abs_spec, Ex.
    reflexivity.
  - unfold get_sign, is_zero. rewrite eqb_spec, Ex.
    change (Prim2SF zero) with (S754_zero false).
    replace (SFeqb (S754_finite s m e) (S754_zero false)) with false
      by (destruct s; reflexivity).
    rewrite ltb_spec, Ex. change (Prim2SF zero) with (S754_zero false).
    destruct s; reflexivity.
  - unfold float_sgn. rewrite (ltb_spec 0), (ltb_spec x), Prim2SF_zero, Ex.
    destruct s; reflexivity.
Qed.

Lemma float_sgn_of_sign (r : float) (s : bool) :
  has_sign s (Prim2SF r) -> float_sgn r = (if s then -1 else 1).
Proof.
  intros Hs. unfold float_sgn. rewrite (ltb_spec 0), (ltb_spec r), Prim2SF_zero.
  destruct (Prim2SF r) as [s' | s' | | s' m e]; simpl in Hs; try contradiction;
    subst s'; destruct s; reflexivity.
Qed.

Local Open Scope Q_scope.

(** The value of a finite float *)

Lemma two_pow_pos (e : Z) : 0 < (2 # 1) ^ e.
Proof. apply Qpower_0_lt. reflexivity. Qed.

Lemma SF2Q_sign (s : bool) (m : positive) (e : Z) :
  if s then SF2Q (S754_finite s m e) < 0 else 0 < SF2Q (S754_finite s m e).
Proof.
  pose proof (two_pow_pos e) as Hp. unfold SF2Q. destruct s.
  - setoid_replace (inject_Z (Zneg m)) with (- inject_Z (Zpos m)) by reflexivity.
    assert (0 < inject_Z (Zpos m) * (2 # 1) ^ e)
      by (apply Qmult_lt_0_compat; [reflexivity | exact Hp]).
    lra.
  - apply Qmult_lt_0_compat; [reflexivity | exact Hp].
Qed.

Lemma SF2Q_bound (s : bool) (m : positive) (e : Z) :
  valid_binary (S754_finite s m e) = true ->
  Qabs (SF2Q (S754_finite s m e)) <= (2 # 1) ^ 1024.
Proof.
  intros Hv. pose proof (valid_finite _ _ _ Hv) as [He _].
  pose proof (valid_mantissa _ _ _ Hv) as [Hm _].
  pose proof (two_pow_pos e) as Hp.
  unfold SF2Q. rewrite Qabs_Qmult, (Qabs_pos ((2 # 1) ^ e)) by (apply Qlt_le_weak, Hp).
  assert (Ha : Qabs (inject_Z (if s then Zneg m else Zpos m)) == inject_Z (Zpos m)).
  { destruct s; reflexivity. }
  rewrite Ha.
  apply Qle_trans with (inject_Z (2 ^ 53) * (2 # 1) ^ 971).
  - apply Qmult_le_compat_nonneg.
    + split; [discriminate | ]. unfold Qle, inject_Z. simpl Qnum. simpl Qden. lia.
    + split; [apply Qlt_le_weak, Hp | ].
      apply Qpower_le_compat_l; [lia | discriminate].
  - apply Qle_bool_iff. vm_compute. reflexivity.
Qed.

(** The shape of a power of ten and of a decimal rounding *)

Lemma pow10_shape (nd : Z) :
  exists n d : positive,
    pow10 nd = Zpos n # d /\ (Zpos n <= 10 ^ Z.max 0 nd)%Z.
Proof.
  unfold pow10. destruct nd as [ | p | p]; cbn [Qpower].
  - exists 1%positive, 1%positive. split; [reflexivity | simpl; lia].
  - rewrite Qpower_decomp_positive.
    exists (10 ^ p)%positive, (1 ^ p)%positive. split.
    + rewrite Pos2Z.inj_pow. reflexivity.
    + rewrite Pos2Z.inj_pow. rewrite Z.max_r by lia. lia.
  - rewrite Qpower_decomp_positive.
    exists (1 ^ p)%positive, (10 ^ p)%positive. split.
    + change (10 ^ Zpos p)%Z with (Zpos 10 ^ Zpos p)%Z.
      rewrite <- Pos2Z.inj_pow. reflexivity.
    + rewrite Pos2Z.inj_pow, Z.pow_1_l by lia. rewrite Z.max_l by lia.
      simpl. lia.
Qed.

Lemma round_decimal_den (q : Q) (nd : Z) :
  (Zpos (Qden (round_decimal q nd)) <= 10 ^ Z.max 0 nd)%Z.
Proof.
  destruct (pow10_shape nd) as (n & d & E & Hn).
  unfold round_decimal, Qdiv. rewrite E. cbn [Qinv Qnum Qden Qmult inject_Z].
  rewrite Pos.mul_1_l. exact Hn.
Qed.

Lemma Qsgn_num (q : Q) : Qsgn q = Z.sgn (Qnum q).
Proof.
  unfold Qsgn, Qcompare. cbn [Qnum Qden]. rewrite Z.mul_1_r, Z.mul_0_l.
  destruct (Qnum q); reflexivity.
Qed.

Lemma half_unit_pos (nd : Z) : 0 < half_unit nd.
Proof.
  unfold half_unit. apply Qmult_lt_0_compat; [reflexivity | apply pow10_pos].
Qed.

Lemma half_unit_large (nd : Z) :
  (nd < NDIGITS_MIN)%Z -> (2 # 1) ^ 1024 < half_unit nd.
Proof.
  intros Hnd. unfold NDIGITS_MIN in Hnd.
  apply Qlt_le_trans with ((1 # 2) * pow10 309).
  - vm_compute. reflexivity.
  - unfold half_unit. apply Qmult_le_l; [reflexivity | ].
    apply Qpower_le_compat_l; [lia | discriminate].
Qed.

(** Above half a unit of the last digit, [round] keeps the sign of a float. *)
Theorem float_round_keeps_sign (x r : float) (nd : Z) :
  half_unit nd < Qabs (float_value x) ->
  float_round x nd = Ok r ->
  float_sgn r = float_sgn x.
Proof.
  intros Hh Hr. unfold float_value in Hh.
  pose proof (half_unit_pos nd) as Hhp.
  pose proof (Prim2SF_valid x) as Hv.
  destruct (Prim2SF x) as [s0 | s0 | | s m e] eqn:Ex;
    try (exfalso; cbn [SF2Q] in Hh; change (Qabs 0) with 0 in Hh; lra).
  destruct (finite_float_facts x s m e Ex) as (Hfin & Hsign & Hsx).
  unfold float_round in Hr. rewrite Hfin in Hr. cbn [negb] in Hr.
  destruct (NDIGITS_MAX <? nd)%Z eqn:Emax; [now inversion Hr | ].
  destruct (nd <? NDIGITS_MIN)%Z eqn:Emin.
  { exfalso. apply Z.ltb_lt in Emin.
    pose proof (half_unit_large nd Emin) as Hl.
    pose proof (SF2Q_bound s m e Hv) as Hb. lra. }
  apply Z.ltb_ge in Emax. unfold NDIGITS_MAX in Emax.
  unfold float_value in Hr. rewrite Ex, Hsign in Hr.
  pose proof (round_decimal_sign _ _ Hh) as Hs.
  pose proof (round_decimal_den (SF2Q (S754_finite s m e)) nd) as Hd.
  set (q' := round_decimal (SF2Q (S754_finite s m e)) nd) in *.
  assert (Hd' : (Zpos (Qden q') <= 2 ^ 1074)%Z).
  { apply Z.le_trans with (10 ^ Z.max 0 nd)%Z; [exact Hd | ].
    apply Z.le_trans with (10 ^ 323)%Z.
    - apply Z.pow_le_mono_r; lia.
    - apply Z.leb_le. vm_compute. reflexivity. }
  assert (Hsx' : Qsgn (SF2Q (S754_finite s m e)) = (if s then -1 else 1)%Z).
  { pose proof (SF2Q_sign s m e) as Hq. destruct s.
    - apply Qsgn_neg, Hq.
    - apply Qsgn_pos, Hq. }
  rewrite Hsx', Qsgn_num in Hs.
  assert (Hfinal : forall n : positive,
    Qnum q' = (if s then Zneg n else Zpos n) ->
    Q2SF s q' = SF64div (S754_finite s n 0) (S754_finite false (Qden q') 0)).
  { intros n En. unfold Q2SF. rewrite En. destruct s; reflexivity. }
  assert (Hn : exists n : positive, Qnum q' = (if s then Zneg n else Zpos n)).
  { destruct (Qnum q') as [ | n | n]; destruct s; simpl in Hs; try discriminate;
      exists n; reflexivity. }
  destruct Hn as [n En]. specialize (Hfinal n En).
  destruct (SFdiv_integers s n (Qden q')) as [Hvy Hsy].
  { assert (0 < 2 ^ 1074)%Z by (apply Z.pow_pos_nonneg; lia). nia. }
  rewrite <- Hfinal in Hvy, Hsy.
  unfold float_of_Q in Hr.
  assert (Hsr : has_sign s (Prim2SF (SF2Prim (Q2SF s q')))).
  { rewrite Prim2SF_SF2Prim by exact Hvy. exact Hsy. }
  destruct (is_infinity (SF2Prim (Q2SF s q'))); [discriminate | ].
  inversion Hr; subst r.
  rewrite Hsx. apply float_sgn_of_sign, Hsr.
Qed.

Local Open Scope Z_scope.

(** Below the exponent of the greatest floats, the end of the rounding is
    a finite float. *)
Lemma round_tail_finite (s : bool) (M2 e1 : Z) :
  -1074 <= e1 <= 970 -> 0 < M2 <= 2 ^ 53 ->
  exists (m : positive) (e : Z), round_tail s M2 e1 = S754_finite s m e.
Proof.
  intros He HM.
  destruct (Z_lt_le_dec M2 (2 ^ 53)) as [Hsm | Hbig].
  - destruct (round_tail_small s M2 e1 ltac:(lia) ltac:(lia)) as [m [Hm ->]].
    destruct (Z.leb_spec e1 971) as [Hle | Hgt]; [ | lia].
    exists m, e1. reflexivity.
  - assert (HM2 : M2 = 2 ^ 53) by lia. rewrite HM2, round_tail_carry by lia.
    destruct (Z.leb_spec (e1 + 1) 971) as [Hle | Hgt]; [ | lia].
    eexists _, _. reflexivity.
Qed.

(** The quotient of two integers, when it is at least [2^-1074] and
    below [2^1023]: a finite float. *)
Lemma SFdiv_integers_finite (s : bool) (n d : positive) :
  Zpos d <= Zpos n * 2 ^ 1074 ->
  Zpos n < Zpos d * 2 ^ 1023 ->
  exists (m : positive) (e : Z),
    SF64div (S754_finite s n 0) (S754_finite false d 0) = S754_finite s m e.
Proof.
  intros Hmag Hup.
  destruct (SFdiv_finite_scaled s false n d 0 0)
    as [e1 [M1 [l1 [Hloc [He1 [HM1 [Hcan Heq]]]]]]].
  rewrite Heq, xorb_false.
  pose proof (round_nearest_even_bounds M1 l1) as HM2.
  assert (HM1pos : 1 <= M1).
  { destruct Hcan as [Hlo | He].
    - pose proof (pow2_pos 52 ltac:(lia)). lia.
    - destruct (Z_le_gt_dec 1 M1) as [ | Hz]; [assumption | exfalso].
      assert (HM0 : M1 = 0) by lia.
      destruct Hloc as [_ [[_ Hhi] _]]. rewrite HM0, He in Hhi.
      change (Z.max 0 (0 - 0 - -1074)) with 1074 in Hhi.
      change (Z.max 0 (- (0 - 0 - -1074))) with 0 in Hhi.
      rewrite Z.pow_0_r in Hhi. lia. }
  apply round_tail_finite; [ | lia].
  split; [exact He1 | ].
  destruct (Z_le_gt_dec e1 970) as [ | Hbig]; [assumption | exfalso].
  destruct Hcan as [Hlo | He]; [ | lia].
  destruct Hloc as [_ [[Hlow _] _]].
  replace (Z.max 0 (0 - 0 - e1)) with 0 in Hlow by lia.
  replace (Z.max 0 (- (0 - 0 - e1))) with e1 in Hlow by lia.
  rewrite Z.pow_0_r, Z.mul_1_r in Hlow.
  assert (Hp : 2 ^ 971 <= 2 ^ e1) by (apply Z.pow_le_mono_r; lia).
  assert (Hq : 2 ^ 1023 = 2 ^ 52 * 2 ^ 971) by (rewrite <- Z.pow_add_r by lia; reflexivity).
  assert (H1 : 2 ^ 52 * (2 ^ 971 * Zpos d) <= M1 * (2 ^ e1 * Zpos d)).
  { pose proof (pow2_pos 971 ltac:(lia)) as Hp0.
    pose proof (pow2_pos 52 ltac:(lia)) as Hp1.
    assert (Ha : 2 ^ 971 * Zpos d <= 2 ^ e1 * Zpos d)
      by (apply Z.mul_le_mono_nonneg_r; lia).
    assert (Hb : 0 <= 2 ^ 971 * Zpos d) by (apply Z.mul_nonneg_nonneg; lia).
    apply Z.mul_le_mono_nonneg; [lia | exact Hlo | exact Hb | exact Ha]. }
  rewrite Hq in Hup. lia.
Qed.

Lemma finite_not_infinity (y : spec_float) (s : bool) (m : positive) (e : Z) :
  valid_binary y = true -> y = S754_finite s m e ->
  is_infinity (SF2Prim y) = false.
Proof.
  intros Hv ->. unfold is_infinity.
  rewrite eqb_spec, abs_spec, Prim2SF_SF2Prim by exact Hv. reflexivity.
Qed.

Local Open Scope Q_scope.

(** [round] returns on a float whose value, half a unit added, is below
    [2^1023]. *)
Theorem float_round_returns (x : float) (nd : Z) :
  half_unit nd < Qabs (float_value x) ->
  Qabs (float_value x) + half_unit nd < (2 # 1) ^ 1023 ->
  exists r : float, float_round x nd = Ok r.
Proof.
  intros Hh Hup. unfold float_value in Hh, Hup.
  pose proof (half_unit_pos nd) as Hhp.
  pose proof (Prim2SF_valid x) as Hv.
  destruct (Prim2SF x) as [s0 | s0 | | s m e] eqn:Ex;
    try (exfalso; cbn [SF2Q] in Hh; change (Qabs 0) with 0 in Hh; lra).
  destruct (finite_float_facts x s m e Ex) as (Hfin & Hsign & Hsx).
  unfold float_round. rewrite Hfin. cbn [negb].
  destruct (NDIGITS_MAX <? nd)%Z eqn:Emax; [eexists; reflexivity | ].
  destruct (nd <? NDIGITS_MIN)%Z eqn:Emin; [eexists; reflexivity | ].
  apply Z.ltb_ge in Emax. unfold NDIGITS_MAX in Emax.
  unfold float_value. rewrite Ex, Hsign.
  pose proof (round_decimal_sign _ _ Hh) as Hs.
  pose proof (round_decimal_den (SF2Q (S754_finite s m e)) nd) as Hd.
  pose proof (round_decimal_close (SF2Q (S754_finite s m e)) nd) as Hc.
  set (v := SF2Q (S754_finite s m e)) in *.
  set (q' := round_decimal v nd) in *.
  assert (Hq'up : Qabs q' < (2 # 1) ^ 1023).
  { apply Qle_lt_trans with (Qabs v + half_unit nd); [ | exact Hup].
    setoid_replace q' with (v + (q' - v)) at 1 by ring.
    eapply Qle_trans; [apply Qabs_triangle | ].
    apply Qplus_le_r. exact Hc. }
  assert (Hd' : (Zpos (Qden q') <= 2 ^ 1074)%Z).
  { apply Z.le_trans with (10 ^ Z.max 0 nd)%Z; [exact Hd | ].
    apply Z.le_trans with (10 ^ 323)%Z.
    - apply Z.pow_le_mono_r; lia.
    - apply Z.leb_le. vm_compute. reflexivity. }
  assert (Hsx' : Qsgn v = (if s then -1 else 1)%Z).
  { pose proof (SF2Q_sign s m e) as Hq. destruct s.
    - apply Qsgn_neg, Hq.
    - apply Qsgn_pos, Hq. }
  rewrite Hsx', Qsgn_num in Hs.
  assert (Hn : exists n : positive, Qnum q' = (if s then Zneg n else Zpos n)).
  { destruct (Qnum q') as [ | n | n]; destruct s; simpl in Hs; try discriminate;
      exists n; reflexivity. }
  destruct Hn as [n En].
  assert (Hfinal : Q2SF s q' = SF64div (S754_finite s n 0) (S754_finite false (Qden q') 0)).
  { unfold Q2SF. rewrite En. destruct s; reflexivity. }
  assert (Habs : Qabs q' = Zpos n # Qden q').
  { destruct q' as [qn qd]. cbn [Qnum Qden] in *. rewrite En.
    destruct s; reflexivity. }
  assert (Hnup : (Zpos n < Zpos (Qden q') * 2 ^ 1023)%Z).
  { rewrite Habs in Hq'up.
    change ((2 # 1) ^ 1023) with (Qpower_positive (2 # 1) 1023) in Hq'up.
    rewrite Qpower_decomp_positive in Hq'up.
    unfold Qlt in Hq'up. cbn [Qnum Qden] in Hq'up.
    rewrite Pos2Z.inj_pow, Z.pow_1_l in Hq'up by lia. lia. }
  destruct (SFdiv_integers s n (Qden q')) as [Hvy Hsy].
  { assert (0 < 2 ^ 1074)%Z by (apply Z.pow_pos_nonneg; lia). nia. }
  destruct (SFdiv_integers_finite s n (Qden q')) as (m' & e' & Hy).
  { assert (0 < 2 ^ 1074)%Z by (apply Z.pow_pos_nonneg; lia). nia. }
  { exact Hnup. }
  rewrite <- Hfinal in Hvy, Hy.
  unfold float_of_Q. rewrite (finite_not_infinity _ s m' e' Hvy Hy).
  eexists. reflexivity.
Qed.

Local Open Scope Q_scope.

(** ** The claims on the formulas *)

(** C2, as the code has it: on positive rates [compute_premium] returns
    [((observed_rate / reference_rate) - 1) * 100]; on floats
    [premium(18.95, 17.12)] is 10.689252336448597, also within a relative
    [1e-9]; and the result is positive exactly when [observed_rate]
    exceeds [reference_rate]: for all positive floats, the infinite one
    included, and for all positive rationals in exact arithmetic. *)
Theorem compute_premium_formula :
  (forall (F : Type) (ops : PyFloat F) (laws : PyFloatLaws F)
          (observed_rate reference_rate : F),
     f_ltb f_zero observed_rate = true ->
     f_ltb f_zero reference_rate = true ->
     compute_premium (PyNum observed_rate) (PyNum reference_rate) =
     Ok (f_mul (f_sub (f_div observed_rate reference_rate) f_one) f_hundred)) /\
  (compute_premium (PyNum ex_sell_rate) (PyNum ex_fx)
   = Ok 10.689252336448597%float /\
   approx tol9 (10689252336448597 # 1000000000000000)
     10.689252336448597%float = true) /\
  (forall observed_rate reference_rate : Q,
     0 < observed_rate -> 0 < reference_rate ->
     exists v, compute_premium (PyNum observed_rate) (PyNum reference_rate) = Ok v /\
               v = (observed_rate / reference_rate - 1) * 100 /\
               (0 < v <-> reference_rate < observed_rate)) /\
  (forall observed_rate reference_rate : float,
     (0 <? observed_rate)%float = true ->
     (0 <? reference_rate)%float = true ->
     exists v, compute_premium (PyNum observed_rate) (PyNum reference_rate) = Ok v /\
               (0 <? v)%float = (reference_rate <? observed_rate)%float).
Proof.
  split; [ | split; [ | split]].
  - intros F ops laws o r Ho Hr.
    apply compute_premium_accepted; apply f_pos_not_le; assumption.
  - split; vm_compute; reflexivity.
  - intros o r Ho Hr. eexists. split; [ | split; [reflexivity | ]].
    + rewrite (compute_premium_accepted (H := Exact) o r);
        [reflexivity | apply f_pos_not_le, exact_positive; assumption ..].
    + apply exact_premium_sign, Hr.
  - intros o r Ho Hr. eexists. split.
    + rewrite (compute_premium_accepted (H := Binary64) o r);
        [reflexivity | apply (f_pos_not_le (F := float)); assumption ..].
    + apply float_premium_sign; assumption.
Qed.

Lemma compute_premium_formula_witness :
  compute_premium (PyNum ex_sell_rate) (PyNum ex_fx) =
  Ok ((ex_sell_rate / ex_fx - 1) * 100)%float.
Proof.
  exact (proj1 compute_premium_formula float Binary64 Binary64_laws
           ex_sell_rate ex_fx eq_refl eq_refl).
Defined.

(** C2 as stated fails: [premium(18.95, 17.12)] is not within a relative
    [1e-9] of 10.69364161849711, neither on floats nor in exact
    arithmetic. *)
Lemma premium_example_not_as_documented :
  ~ (exists v, compute_premium (PyNum ex_sell_rate) (PyNum ex_fx) = Ok v /\
               approx tol9 (1069364161849711 # 100000000000000) v = true) /\
  ~ (Qabs (((1895 # 100) / (1712 # 100) - 1) * 100
           - (1069364161849711 # 100000000000000))
     <= tol9 * (1069364161849711 # 100000000000000)).
Proof.
  split.
  - intros [v [Hv Ha]]. vm_compute in Hv. injection Hv as <-.
    vm_compute in Ha. discriminate Ha.
  - intros Hle. apply Qle_bool_iff in Hle. vm_compute in Hle. discriminate Hle.
Qed.

(** C3, as the code has it: on positive rates [compute_spread] returns
    [((buy_rate - sell_rate) / sell_rate) * 100]; on floats
    [spread(18.70, 18.95)] is -1.3192612137203166, also within a relative
    [1e-9]; and the result, a value and not an error, is negative exactly
    when [sell_rate] exceeds [buy_rate]: for all positive finite floats
    (and an infinite [buy_rate]), and for all positive rationals in exact
    arithmetic. *)
Theorem compute_spread_formula :
  (forall (F : Type) (ops : PyFloat F) (laws : PyFloatLaws F)
          (buy_rate sell_rate : F),
     f_ltb f_zero buy_rate = true ->
     f_ltb f_zero sell_rate = true ->
     compute_spread (PyNum buy_rate) (PyNum sell_rate) =
     Ok (f_mul (f_div (f_sub buy_rate sell_rate) sell_rate) f_hundred)) /\
  (compute_spread (PyNum ex_buy_rate) (PyNum ex_sell_rate)
   = Ok (-1.3192612137203166)%float /\
   approx tol9 (- (13192612137203166 # 10000000000000000))
     (-1.3192612137203166)%float = true) /\
  (forall buy_rate sell_rate : Q,
     0 < buy_rate -> 0 < sell_rate ->
     exists v, compute_spread (PyNum buy_rate) (PyNum sell_rate) = Ok v /\
               v = (buy_rate - sell_rate) / sell_rate * 100 /\
               (v < 0 <-> buy_rate < sell_rate)) /\
  (forall buy_rate sell_rate : float,
     (0 <? buy_rate)%float = true ->
     (0 <? sell_rate)%float = true ->
     (sell_rate <? infinity)%float = true ->
     exists v, compute_spread (PyNum buy_rate) (PyNum sell_rate) = Ok v /\
               (v <? 0)%float = (buy_rate <? sell_rate)%float).
Proof.
  split; [ | split; [ | split]].
  - intros F ops laws b s Hb Hs.
    apply compute_spread_accepted; apply f_pos_not_le; assumption.
  - split; vm_compute; reflexivity.
  - intros b s Hb Hs. eexists. split; [ | split; [reflexivity | ]].
    + rewrite (compute_spread_accepted (H := Exact) b s);
        [reflexivity | apply f_pos_not_le, exact_positive; assumption ..].
    + apply exact_spread_sign, Hs.
  - intros b s Hb Hs Hfin. eexists. split.
    + rewrite (compute_spread_accepted (H := Binary64) b s);
        [reflexivity | apply (f_pos_not_le (F := float)); assumption ..].
    + apply float_spread_sign; assumption.
Qed.

Lemma compute_spread_formula_witness :
  compute_spread (PyNum ex_buy_rate) (PyNum ex_sell_rate) =
  Ok ((ex_buy_rate - ex_sell_rate) / ex_sell_rate * 100)%float.
Proof.
  exact (proj1 compute_spread_formula float Binary64 Binary64_laws
           ex_buy_rate ex_sell_rate eq_refl eq_refl).
Defined.

(** C3 as stated fails: [spread(18.70, 18.95)] is not within a relative
    [1e-9] of -1.3184584178498851, neither on floats nor in exact
    arithmetic. *)
Lemma spread_example_not_as_documented :
  ~ (exists v, compute_spread (PyNum ex_buy_rate) (PyNum ex_sell_rate) = Ok v /\
               approx tol9 (- (13184584178498851 # 10000000000000000)) v = true) /\
  ~ (Qabs (((1870 # 100) - (1895 # 100)) / (1895 # 100) * 100
           - - (13184584178498851 # 10000000000000000))
     <= tol9 * (13184584178498851 # 10000000000000000)).
Proof.
  split.
  - intros [v [Hv Ha]]. vm_compute in Hv. injection Hv as <-.
    vm_compute in Ha. discriminate Ha.
  - intros Hle. apply Qle_bool_iff in Hle. vm_compute in Hle. discriminate Hle.
Qed.

(** ** The claims on rounding *)

(** C5, as the code has it: with [decimals] given, [compute_premiums]
    first computes the three raw values from the unrounded rates, the very
    values it returns without [decimals], and then applies the one
    [round(value, decimals)] to each of them; on the docstring's inputs and
    [decimals=2] the fields are 10.69, 9.23 and -1.32; and rounding, in
    exact arithmetic, gives a multiple of [10^-decimals] within half a unit
    of the last digit of the value. *)
Theorem compute_premiums_rounds_outputs :
  (forall (F : Type) (ops : PyFloat F) (laws : PyFloatLaws F)
          (sell_rate buy_rate fx_bid fx_ask : F) (decimals : Z),
     f_ltb f_zero sell_rate = true ->
     f_ltb f_zero buy_rate = true ->
     f_ltb f_zero fx_bid = true ->
     f_ltb f_zero fx_ask = true ->
     exists raw : Premiums F,
       compute_premiums (PyNum sell_rate) (PyNum buy_rate) (PyNum fx_bid)
         (PyNum fx_ask) None = Ok raw /\
       compute_premiums (PyNum sell_rate) (PyNum buy_rate) (PyNum fx_bid)
         (PyNum fx_ask) (Some decimals) =
       (sell_premium <- f_round (stablecoin_sell_premium raw) decimals ;;
        buy_premium <- f_round (stablecoin_buy_premium raw) decimals ;;
        spread <- f_round (stablecoin_buy_sell_spread raw) decimals ;;
        Ok (mkPremiums sell_premium buy_premium spread))) /\
  compute_premiums (PyNum ex_sell_rate) (PyNum ex_buy_rate) (PyNum ex_fx)
    (PyNum ex_fx) (Some 2%Z)
  = Ok (mkPremiums 10.69%float 9.23%float (-1.32)%float) /\
  (forall (q : Q) (decimals : Z),
     f_round q decimals = Ok (round_decimal q decimals) /\
     (exists n : Z, round_decimal q decimals == inject_Z n * pow10 (- decimals)) /\
     Qabs (round_decimal q decimals - q) <= half_unit decimals).
Proof.
  split; [ | split].
  - intros F ops laws sell buy bid ask decimals Hs Hb Hbid Hask.
    apply f_pos_not_le in Hs, Hb, Hbid, Hask.
    eexists. rewrite !compute_premiums_accepted by assumption.
    split; reflexivity.
  - vm_compute. reflexivity.
  - intros q decimals. split; [reflexivity | split].
    + eexists. apply round_decimal_multiple.
    + apply round_decimal_close.
Qed.

Lemma compute_premiums_rounds_outputs_witness :
  exists raw : Premiums float,
    compute_premiums (PyNum ex_sell_rate) (PyNum ex_buy_rate) (PyNum ex_fx)
      (PyNum ex_fx) None = Ok raw /\
    compute_premiums (PyNum ex_sell_rate) (PyNum ex_buy_rate) (PyNum ex_fx)
      (PyNum ex_fx) (Some 2%Z) =
    (sell_premium <- f_round (stablecoin_sell_premium raw) 2%Z ;;
     buy_premium <- f_round (stablecoin_buy_premium raw) 2%Z ;;
     spread <- f_round (stablecoin_buy_sell_spread raw) 2%Z ;;
     Ok (mkPremiums sell_premium buy_premium spread)).
Proof.
  exact (proj1 compute_premiums_rounds_outputs float Binary64 Binary64_laws
           ex_sell_rate ex_buy_rate ex_fx ex_fx 2%Z
           eq_refl eq_refl eq_refl eq_refl).
Defined.

(** C5 as stated fails: on the docstring's inputs and [decimals=2] the
    fields are not 10.69, 9.24 and -1.32; the second one is 9.23. *)
Lemma rounded_example_not_as_documented :
  ~ (exists p : Premiums float,
       compute_premiums (PyNum ex_sell_rate) (PyNum ex_buy_rate) (PyNum ex_fx)
         (PyNum ex_fx) (Some 2%Z) = Ok p /\
       ((stablecoin_sell_premium p =? 10.69)
        && (stablecoin_buy_premium p =? 9.24)
        && (stablecoin_buy_sell_spread p =? -1.32))%float = true).
Proof.
  intros [p [Hp Hfields]]. vm_compute in Hp. injection Hp as <-.
  vm_compute in Hfields. discriminate Hfields.
Qed.

(** C8, as the code has it: a value [v] with [|v| > 0.5 * 10^-decimals]
    keeps its sign when [compute_premiums] rounds it to [decimals] digits,
    in exact arithmetic and on every binary64 float, where the rounding
    returns whenever [|v| + 0.5 * 10^-decimals] is below [2^1023] (the
    greatest float, rounded at [decimals=-308], raises [OverflowError])
    and the infinities and not-a-number round to themselves.  At
    [|v| = 0.5 * 10^-decimals] the tie goes to the even neighbour, which
    can be zero: one half rounds to zero at [decimals=0], exactly and on
    floats, where minus one half gives minus zero and one and a half
    gives two. *)
Theorem rounding_keeps_sign_above_half_unit :
  (forall (v r : Q) (decimals : Z),
     half_unit decimals < Qabs v ->
     _maybe_round v (Some decimals) = Ok r ->
     Qsgn r = Qsgn v) /\
  (forall (v r : float) (decimals : Z),
     half_unit decimals < Qabs (float_value v) ->
     _maybe_round v (Some decimals) = Ok r ->
     float_sgn r = float_sgn v) /\
  (forall (v : float) (decimals : Z),
     half_unit decimals < Qabs (float_value v) ->
     Qabs (float_value v) + half_unit decimals < (2 # 1) ^ 1023 ->
     exists r : float, _maybe_round v (Some decimals) = Ok r) /\
  _maybe_round 0x1.fffffffffffffp+1023%float (Some (-308)%Z) =
    Raise (OverflowError "rounded value too large to represent") /\
  (forall (v : float) (decimals : Z),
     is_finite v = false -> _maybe_round v (Some decimals) = Ok v) /\
  (exists r : Q, _maybe_round (1 # 2) (Some 0%Z) = Ok r /\ Qsgn r = 0%Z) /\
  _maybe_round 0.5%float (Some 0%Z) = Ok 0%float /\
  _maybe_round (-0.5)%float (Some 0%Z) = Ok (-0)%float /\
  _maybe_round 1.5%float (Some 0%Z) = Ok 2%float.
Proof.
  split; [ | split; [ | split; [ | split; [ | split; [ | split; [ | split; [ | split]]]]]]].
  - intros v r decimals Hv Hr. simpl in Hr. injection Hr as <-.
    apply round_decimal_sign, Hv.
  - intros v r decimals Hv Hr. exact (float_round_keeps_sign v r decimals Hv Hr).
  - intros v decimals Hv Hup. exact (float_round_returns v decimals Hv Hup).
  - vm_compute. reflexivity.
  - intros v decimals Hv. cbn [_maybe_round f_round Binary64].
    unfold float_round. rewrite Hv. reflexivity.
  - eexists. split; reflexivity.
  - vm_compute. reflexivity.
  - vm_compute. reflexivity.
  - vm_compute. reflexivity.
Qed.

Lemma rounding_keeps_sign_above_half_unit_witness :
  Qsgn (round_decimal (- (13192612137203166 # 10000000000000000)) 2) =
  Qsgn (- (13192612137203166 # 10000000000000000)) /\
  float_sgn (-1.32)%float = float_sgn (-1.3192612137203166)%float /\
  (exists r : float, _maybe_round (-1.3192612137203166)%float (Some 2%Z) = Ok r).
Proof.
  split; [ | split].
  - refine (proj1 rounding_keeps_sign_above_half_unit
              (- (13192612137203166 # 10000000000000000)) _ 2%Z _ eq_refl).
    reflexivity.
  - refine (proj1 (proj2 rounding_keeps_sign_above_half_unit)
              (-1.3192612137203166)%float (-1.32)%float 2%Z _ _).
    + vm_compute. reflexivity.
    + vm_compute. reflexivity.
  - refine (proj1 (proj2 (proj2 rounding_keeps_sign_above_half_unit))
              (-1.3192612137203166)%float 2%Z _ _).
    + vm_compute. reflexivity.
    + vm_compute. reflexivity.
Defined.

(** C8 as stated fails: a spread of exactly one half, which
    [compute_premiums] returns for [sell_rate=200], [buy_rate=201], meets
    [|v| >= 0.5 * 10^-0] and is rounded to zero at [decimals=0]. *)
Lemma half_spread_rounds_to_zero :
  ~ (forall (v r : float) (decimals : Z),
       half_unit decimals <= Qabs (float_value v) ->
       _maybe_round v (Some decimals) = Ok r ->
       float_sgn r = float_sgn v) /\
  (exists raw rounded : Premiums float,
     compute_premiums (PyNum 200%float) (PyNum 201%float) (PyNum ex_fx)
       (PyNum ex_fx) None = Ok raw /\
     compute_premiums (PyNum 200%float) (PyNum 201%float) (PyNum ex_fx)
       (PyNum ex_fx) (Some 0%Z) = Ok rounded /\
     half_unit 0 <= Qabs (float_value (stablecoin_buy_sell_spread raw)) /\
     float_sgn (stablecoin_buy_sell_spread raw) = 1%Z /\
     float_sgn (stablecoin_buy_sell_spread rounded) = 0%Z) /\
  ~ (forall (v r : Q) (decimals : Z),
       half_unit decimals <= Qabs v ->
       _maybe_round v (Some decimals) = Ok r ->
       Qsgn r = Qsgn v).
Proof.
  split; [ | split].
  - intros Hclaim.
    assert (Hh : half_unit 0 <= Qabs (float_value 0.5%float))
      by (apply Qle_bool_iff; vm_compute; reflexivity).
    specialize (Hclaim 0.5%float 0%float 0%Z Hh eq_refl).
    vm_compute in Hclaim. discriminate Hclaim.
  - eexists _, _. split; [reflexivity | split; [reflexivity | split]].
    + apply Qle_bool_iff. vm_compute. reflexivity.
    + split; reflexivity.
  - intros Hclaim.
    assert (Hh : half_unit 0 <= Qabs (1 # 2))
      by (apply Qle_bool_iff; vm_compute; reflexivity).
    specialize (Hclaim (1 # 2) _ 0%Z Hh eq_refl).
    vm_compute in Hclaim. discriminate Hclaim.
Qed.

(** ** Binary64 arithmetic: the three signs of a premium and of a spread *)

Local Open Scope Z_scope.

(** The difference of a float and a lesser one is positive and not small
    against the lesser one. *)
Lemma SFsub_above (mb ms : positive) (eb es : Z) :
  valid_binary (S754_finite false mb eb) = true ->
  valid_binary (S754_finite false ms es) = true ->
  lex_lt ms es mb eb ->
  magnitude false es (SF64sub (S754_finite false mb eb) (S754_finite false ms es)).
Proof.
  intros Hb Hs Hlt.
  pose proof (valid_finite _ _ _ Hb) as [Heb _].
  pose proof (valid_finite _ _ _ Hs) as [Hes _].
  pose proof (lex_lt_aligned ms mb es eb Hs Hb Hlt) as Hd.
  rewrite (Z.min_comm es eb) in Hd.
  unfold SF64sub, SFsub. cbn [cond_Zopp].
  destruct (shl_align_spec mb eb (Z.min eb es)) as [_ Hmb'].
  destruct (shl_align_spec ms es (Z.min eb es)) as [_ Hms'].
  replace (Z.min eb (Z.min eb es)) with (Z.min eb es) in Hmb' by lia.
  replace (Z.min es (Z.min eb es)) with (Z.min eb es) in Hms' by lia.
  rewrite Hmb', Hms'.
  assert (Hmin : Z.min eb es = es) by (unfold lex_lt in Hlt; lia).
  rewrite Hmin in *. rewrite Z.sub_diag, Z.pow_0_r, Z.mul_1_r in *.
  destruct (Zpos mb * 2 ^ (eb - es) - Zpos ms) as [ | d | d] eqn:Ed; try lia.
  cbn [binary_normalize].
  pose proof (binary_round_magnitude false d es ltac:(lia)) as Hm.
  destruct (binary_round prec emax false d es) as [ | | | s' m e];
    cbn [magnitude] in *; try tauto.
  destruct Hm as [-> Hm]. split; [reflexivity | lia].
Qed.

Lemma SFeqb_finite (ma mb : positive) (ea eb : Z) :
  SFeqb (S754_finite false ma ea) (S754_finite false mb eb) = true <->
  ma = mb /\ ea = eb.
Proof.
  unfold SFeqb, SFcompare.
  destruct (Z.compare_spec ea eb) as [He | He | He].
  - change (Pos.compare_cont Eq ma mb) with (Pos.compare ma mb).
    destruct (Pos.compare_spec ma mb) as [Hm | Hm | Hm]; split;
      try discriminate; try (intros [Hm' _]; lia); intros _; split; assumption.
  - split; [discriminate | lia].
  - split; [discriminate | lia].
Qed.

Lemma has_sign_not_zero (s : bool) (v : spec_float) :
  has_sign s v -> match v with S754_zero _ => true | _ => false end = false.
Proof. destruct v; simpl; try reflexivity; contradiction. Qed.

(** On floats, for positive rates that are not both infinite: the premium
    is negative exactly when the observed rate is below the reference
    rate, and zero exactly when the two rates are equal. *)
Theorem float_premium_trichotomy (x y : float) :
  (0 <? x)%float = true -> (0 <? y)%float = true ->
  (x <? infinity)%float = true \/ (y <? infinity)%float = true ->
  ((x / y - 1) * 100 <? 0)%float = (x <? y)%float /\
  ((x / y - 1) * 100 =? 0)%float = (x =? y)%float.
Proof.
  intros Hx Hy Hfin.
  rewrite float_eqb_zero, (ltb_spec _ 0), (ltb_spec x), (eqb_spec x), Prim2SF_zero.
  rewrite !(ltb_spec _ infinity), Prim2SF_infinity in Hfin.
  pose proof (Prim2SF_valid x) as Hvx. pose proof (Prim2SF_valid y) as Hvy.
  pose proof (sub_one_sign (x / y)) as Hsub.
  pose proof (has_sign_mul_hundred (x / y - 1)) as Hmul.
  pose proof (zero_mul_hundred (x / y - 1)) as Hmulz.
  pose proof (SFltb_zero_sign (Prim2SF ((x / y - 1) * 100)%float))
    as [_ [_ [Hneg Hpos]]].
  pose proof (has_sign_not_zero false (Prim2SF ((x / y - 1) * 100)%float)) as Hnzp.
  pose proof (has_sign_not_zero true (Prim2SF ((x / y - 1) * 100)%float)) as Hnzn.
  rewrite div_spec in Hsub.
  destruct (positive_float x Hx) as [Ex | [mx [ex Ex]]];
    destruct (positive_float y Hy) as [Ey | [my [ey Ey]]];
    rewrite Ex, Ey in *.
  - destruct Hfin as [Hf | Hf]; discriminate Hf.
  - cbn [SF64div SFdiv xorb] in Hsub.
    rewrite (Hpos (Hmul false Hsub)), (Hnzp (Hmul false Hsub)). split; reflexivity.
  - cbn [SF64div SFdiv xorb] in Hsub.
    rewrite (Hneg (Hmul true Hsub)), (Hnzn (Hmul true Hsub)). split; reflexivity.
  - destruct (lex_trichotomy mx my ex ey) as [Hlt | [[-> ->] | Hgt]].
    + rewrite (proj2 (SFltb_finite mx my ex ey) Hlt).
      assert (He : SFeqb (S754_finite false mx ex) (S754_finite false my ey) = false).
      { destruct (SFeqb (S754_finite false mx ex) (S754_finite false my ey)) eqn:E;
          [ | reflexivity].
        apply SFeqb_finite in E. unfold lex_lt in Hlt. lia. }
      rewrite He.
      assert (Hs : has_sign true (Prim2SF ((x / y - 1) * 100)%float)).
      { apply Hmul.
        destruct (SFdiv_below_one mx my ex ey Hvx Hvy Hlt) as [Hq | [m [e [Hq Hm]]]];
          rewrite Hq in Hsub.
        - exact Hsub.
        - apply Hsub, Hm. }
      rewrite (Hneg Hs), (Hnzn Hs). split; reflexivity.
    + rewrite SFdiv_same in Hsub.
      destruct Hsub as [_ [_ Hz]]. specialize (Hz (conj eq_refl eq_refl)).
      rewrite (Hmulz false Hz).
      rewrite (proj2 (SFeqb_finite my my ey ey) (conj eq_refl eq_refl)).
      split; [ | reflexivity].
      destruct (SFltb (S754_finite false my ey) (S754_finite false my ey)) eqn:E;
        [ | reflexivity].
      apply SFltb_finite in E. unfold lex_lt in E. lia.
    + assert (Hr : SFltb (S754_finite false mx ex) (S754_finite false my ey) = false).
      { destruct (SFltb (S754_finite false mx ex) (S754_finite false my ey)) eqn:E;
          [ | reflexivity].
        apply SFltb_finite in E. unfold lex_lt in *. lia. }
      assert (He : SFeqb (S754_finite false mx ex) (S754_finite false my ey) = false).
      { destruct (SFeqb (S754_finite false mx ex) (S754_finite false my ey)) eqn:E;
          [ | reflexivity].
        apply SFeqb_finite in E. unfold lex_lt in Hgt. lia. }
      rewrite Hr, He.
      assert (Hs : has_sign false (Prim2SF ((x / y - 1) * 100)%float)).
      { apply Hmul.
        destruct (SFdiv_above_one mx my ex ey Hvx Hvy Hgt) as [Hq | [m [e [Hq Hm]]]];
          rewrite Hq in Hsub.
        - exact Hsub.
        - apply Hsub, Hm. }
      rewrite (Hpos Hs), (Hnzp Hs). split; reflexivity.
Qed.

(** On floats, for every positive [buy_rate] and every positive finite
    [sell_rate]: the spread is positive exactly when the buy rate is above
    the sell rate, and zero exactly when the two rates are equal. *)
Theorem float_spread_trichotomy (b s : float) :
  (0 <? b)%float = true -> (0 <? s)%float = true ->
  (s <? infinity)%float = true ->
  (0 <? (b - s) / s * 100)%float = (s <? b)%float /\
  ((b - s) / s * 100 =? 0)%float = (b =? s)%float.
Proof.
  intros Hb Hs Hsfin.
  rewrite float_eqb_zero, (ltb_spec 0), (ltb_spec s), (eqb_spec b), Prim2SF_zero.
  pose proof (Prim2SF_valid b) as Hvb. pose proof (Prim2SF_valid s) as Hvs.
  pose proof (Prim2SF_valid (b - s)) as Hvd.
  pose proof (has_sign_mul_hundred ((b - s) / s)) as Hmul.
  pose proof (zero_mul_hundred ((b - s) / s)) as Hmulz.
  pose proof (SFltb_zero_sign (Prim2SF ((b - s) / s * 100)%float))
    as [Hpos [Hneg _]].
  pose proof (has_sign_not_zero false (Prim2SF ((b - s) / s * 100)%float)) as Hnzp.
  pose proof (has_sign_not_zero true (Prim2SF ((b - s) / s * 100)%float)) as Hnzn.
  destruct (finite_positive_float s Hs Hsfin) as [ms [es Es]].
  rewrite div_spec in Hmul, Hmulz. rewrite sub_spec in Hmul, Hmulz, Hvd.
  rewrite Es in *.
  destruct (positive_float b Hb) as [Eb | [mb [eb Eb]]]; rewrite Eb in *.
  - cbn [SF64sub SFsub SF64div SFdiv xorb] in Hmul.
    rewrite (Hpos (Hmul false eq_refl)), (Hnzp (Hmul false eq_refl)).
    split; reflexivity.
  - destruct (lex_trichotomy mb ms eb es) as [Hlt | [[-> ->] | Hgt]].
    + assert (Hr : SFltb (S754_finite false ms es) (S754_finite false mb eb) = false).
      { destruct (SFltb (S754_finite false ms es) (S754_finite false mb eb)) eqn:E;
          [ | reflexivity].
        apply SFltb_finite in E. unfold lex_lt in *. lia. }
      assert (He : SFeqb (S754_finite false mb eb) (S754_finite false ms es) = false).
      { destruct (SFeqb (S754_finite false mb eb) (S754_finite false ms es)) eqn:E;
          [ | reflexivity].
        apply SFeqb_finite in E. unfold lex_lt in Hlt. lia. }
      rewrite Hr, He.
      assert (Hsg : has_sign true (Prim2SF ((b - s) / s * 100)%float)).
      { apply Hmul.
        pose proof (SFsub_below mb ms eb es Hvb Hvs Hlt) as Hmag.
        destruct (SF64sub (S754_finite false mb eb) (S754_finite false ms es))
          as [ | sd | | sd md ed]; cbn [magnitude] in Hmag; try contradiction.
        - subst sd. reflexivity.
        - destruct Hmag as [-> Hmag].
          apply SFdiv_nonzero; [exact Hvd | exact Hvs | lia]. }
      rewrite (Hneg Hsg), (Hnzn Hsg). split; reflexivity.
    + destruct (SFsub_sign ms ms es es Hvs Hvs) as [_ [_ Hz]].
      rewrite (Hz (conj eq_refl eq_refl)) in Hmulz.
      cbn [SF64div SFdiv xorb] in Hmulz. rewrite (Hmulz false eq_refl).
      rewrite (proj2 (SFeqb_finite ms ms es es) (conj eq_refl eq_refl)).
      split; [ | reflexivity].
      destruct (SFltb (S754_finite false ms es) (S754_finite false ms es)) eqn:E;
        [ | reflexivity].
      apply SFltb_finite in E. unfold lex_lt in E. lia.
    + rewrite (proj2 (SFltb_finite ms mb es eb) Hgt).
      assert (He : SFeqb (S754_finite false mb eb) (S754_finite false ms es) = false).
      { destruct (SFeqb (S754_finite false mb eb) (S754_finite false ms es)) eqn:E;
          [ | reflexivity].
        apply SFeqb_finite in E. unfold lex_lt in Hgt. lia. }
      rewrite He.
      assert (Hsg : has_sign false (Prim2SF ((b - s) / s * 100)%float)).
      { apply Hmul.
        pose proof (SFsub_above mb ms eb es Hvb Hvs Hgt) as Hmag.
        destruct (SF64sub (S754_finite false mb eb) (S754_finite false ms es))
          as [ | sd | | sd md ed]; cbn [magnitude] in Hmag; try contradiction.
        - subst sd. reflexivity.
        - destruct Hmag as [-> Hmag].
          apply SFdiv_nonzero; [exact Hvd | exact Hvs | lia]. }
      rewrite (Hpos Hsg), (Hnzp Hsg). split; reflexivity.
Qed.

Local Open Scope Q_scope.

(** ** [compute.py]: further properties of the formulas *)

(** On binary64 floats, for positive rates that are not both infinite,
    the premium has the sign of the comparison of the two rates: it is
    negative exactly when the observed rate is below the reference rate,
    zero exactly when they are equal, positive exactly when it is above. *)
Theorem compute_premium_sign_of_comparison (observed_rate reference_rate : float) :
  (0 <? observed_rate)%float = true -> (0 <? reference_rate)%float = true ->
  (observed_rate <? infinity)%float = true \/
  (reference_rate <? infinity)%float = true ->
  exists v : float,
    compute_premium (PyNum observed_rate) (PyNum reference_rate) = Ok v /\
    (v <? 0)%float = (observed_rate <? reference_rate)%float /\
    (v =? 0)%float = (observed_rate =? reference_rate)%float /\
    (0 <? v)%float = (reference_rate <? observed_rate)%float.
Proof.
  intros Ho Hr Hfin. eexists. split.
  - rewrite (compute_premium_accepted (H := Binary64) observed_rate reference_rate);
      [reflexivity | apply (f_pos_not_le (F := float)); assumption ..].
  - cbn [f_mul f_sub f_div f_one f_hundred Binary64].
    destruct (float_premium_trichotomy observed_rate reference_rate Ho Hr Hfin)
      as [Hneg Hzero].
    split; [exact Hneg | split; [exact Hzero | ]].
    apply float_premium_sign; assumption.
Qed.

Lemma compute_premium_sign_of_comparison_witness :
  exists v : float,
    compute_premium (PyNum 17.12%float) (PyNum 17.12%float) = Ok v /\
    (v <? 0)%float = false /\ (v =? 0)%float = true /\ (0 <? v)%float = false.
Proof.
  exact (compute_premium_sign_of_comparison 17.12%float 17.12%float
           eq_refl eq_refl (or_introl eq_refl)).
Defined.

(** On binary64 floats, for a positive buy rate and a positive finite
    sell rate, the spread has the sign of the comparison of the two
    rates: negative exactly when the buy rate is below the sell rate,
    zero exactly when they are equal, positive exactly when it is above. *)
Theorem compute_spread_sign_of_comparison (buy_rate sell_rate : float) :
  (0 <? buy_rate)%float = true -> (0 <? sell_rate)%float = true ->
  (sell_rate <? infinity)%float = true ->
  exists v : float,
    compute_spread (PyNum buy_rate) (PyNum sell_rate) = Ok v /\
    (v <? 0)%float = (buy_rate <? sell_rate)%float /\
    (v =? 0)%float = (buy_rate =? sell_rate)%float /\
    (0 <? v)%float = (sell_rate <? buy_rate)%float.
Proof.
  intros Hb Hs Hfin. eexists. split.
  - rewrite (compute_spread_accepted (H := Binary64) buy_rate sell_rate);
      [reflexivity | apply (f_pos_not_le (F := float)); assumption ..].
  - cbn [f_mul f_sub f_div f_one f_hundred Binary64].
    destruct (float_spread_trichotomy buy_rate sell_rate Hb Hs Hfin) as [Hpos Hzero].
    split; [apply float_spread_sign; assumption | split; [exact Hzero | exact Hpos]].
Qed.

Lemma compute_spread_sign_of_comparison_witness :
  exists v : float,
    compute_spread (PyNum 18.95%float) (PyNum 18.70%float) = Ok v /\
    (v <? 0)%float = false /\ (v =? 0)%float = false /\ (0 <? v)%float = true.
Proof.
  exact (compute_spread_sign_of_comparison 18.95%float 18.70%float
           eq_refl eq_refl eq_refl).
Defined.

(** ** Strings: splitting and stripping *)

Lemma str_truthy_iff (s : string) : str_truthy s = true <-> s <> "".
Proof. destruct s; simpl; split; congruence. Qed.

Lemma py_split_not_nil (sep : ascii) (s : string) : py_split sep s <> [].
Proof.
  destruct s as [ | c s]; simpl; [discriminate | ].
  destruct (Ascii.eqb c sep); [discriminate | ].
  destruct (py_split sep s); discriminate.
Qed.

Lemma py_split_app (sep : ascii) (a b : string) :
  py_split sep (a ++ String sep b) = (py_split sep a ++ py_split sep b)%list.
Proof.
  induction a as [ | c a IH]; simpl.
  - rewrite Ascii.eqb_refl. reflexivity.
  - rewrite IH. destruct (Ascii.eqb c sep); [reflexivity | ].
    destruct (py_split sep a) as [ | p ps] eqn:E; [ | reflexivity].
    exfalso. exact (py_split_not_nil sep a E).
Qed.

Lemma py_split_no_sep (sep : ascii) (s : string) :
  Forall (fun p => has_char sep p = false) (py_split sep s).
Proof.
  induction s as [ | c s IH]; simpl.
  - constructor; [reflexivity | constructor].
  - destruct (Ascii.eqb c sep) eqn:Ec.
    + constructor; [reflexivity | exact IH].
    + destruct (py_split sep s) as [ | p ps]; constructor.
      * simpl. rewrite Ec. reflexivity.
      * constructor.
      * simpl. rewrite Ec. inversion IH; assumption.
      * inversion IH; assumption.
Qed.

Lemma py_split_whole (sep : ascii) (s : string) :
  has_char sep s = false -> py_split sep s = [s].
Proof.
  induction s as [ | c s IH]; simpl; [reflexivity | ].
  intros Hc. apply orb_false_iff in Hc. destruct Hc as [Hc Hs].
  rewrite Hc, (IH Hs). reflexivity.
Qed.

Lemma has_char_lstrip (ch : ascii) (s : string) :
  has_char ch s = false -> has_char ch (py_lstrip s) = false.
Proof.
  induction s as [ | c s IH]; simpl; [reflexivity | ].
  intros Hc. destruct (py_isspace c).
  - apply IH. apply orb_false_iff in Hc. apply Hc.
  - exact Hc.
Qed.

Lemma has_char_rstrip (ch : ascii) (s : string) :
  has_char ch s = false -> has_char ch (py_rstrip s) = false.
Proof.
  induction s as [ | c s IH]; simpl; [reflexivity | ].
  intros Hc. apply orb_false_iff in Hc. destruct Hc as [Hc Hs].
  specialize (IH Hs).
  destruct (py_rstrip s) as [ | c' r].
  - destruct (py_isspace c); simpl; [reflexivity | ]. rewrite Hc. reflexivity.
  - cbn [has_char] in *. rewrite Hc. exact IH.
Qed.

Lemma py_rstrip_idempotent (s : string) : py_rstrip (py_rstrip s) = py_rstrip s.
Proof.
  induction s as [ | c s IH]; simpl; [reflexivity | ].
  destruct (py_rstrip s) as [ | c' r] eqn:E.
  - destruct (py_isspace c) eqn:Ec; simpl; [reflexivity | ]. rewrite Ec. reflexivity.
  - cbn [py_rstrip]. cbn [py_rstrip] in IH. rewrite IH. reflexivity.
Qed.

Lemma py_lstrip_head (s : string) : no_leading_space (py_lstrip s).
Proof.
  induction s as [ | c s IH]; simpl; [exact I | ].
  destruct (py_isspace c) eqn:Ec; [exact IH | exact Ec].
Qed.

Lemma py_lstrip_fixed (s : string) : no_leading_space s -> py_lstrip s = s.
Proof. destruct s as [ | c s]; simpl; [reflexivity | ]. intros ->. reflexivity. Qed.

Lemma py_rstrip_head (s : string) : no_leading_space s -> no_leading_space (py_rstrip s).
Proof.
  destruct s as [ | c s]; simpl; [intros _; exact I | ].
  intros Hc. destruct (py_rstrip s); [rewrite Hc | ]; exact Hc.
Qed.

Lemma py_strip_idempotent (s : string) : py_strip (py_strip s) = py_strip s.
Proof.
  unfold py_strip.
  rewrite (py_lstrip_fixed (py_rstrip (py_lstrip s))).
  - apply py_rstrip_idempotent.
  - apply py_rstrip_head, py_lstrip_head.
Qed.

Lemma stripped_parts_clean (entry : string) :
  Forall clean_code (stripped_parts entry).
Proof.
  unfold stripped_parts. apply Forall_forall. intros p Hp.
  apply filter_In in Hp. destruct Hp as [Hp Ht].
  apply in_map_iff in Hp. destruct Hp as [q [<- Hq]].
  split; [apply str_truthy_iff, Ht | split].
  - apply py_strip_idempotent.
  - unfold py_strip. apply has_char_rstrip, has_char_lstrip.
    pose proof (py_split_no_sep "," entry) as Hall.
    rewrite Forall_forall in Hall. apply Hall, Hq.
Qed.

Lemma stripped_parts_comma (a b : string) :
  stripped_parts (a ++ String "," b) = (stripped_parts a ++ stripped_parts b)%list.
Proof.
  unfold stripped_parts. rewrite py_split_app, map_app, filter_app. reflexivity.
Qed.

Lemma stripped_parts_clean_code (s : string) :
  clean_code s -> stripped_parts s = [s].
Proof.
  intros [Hne [Hstrip Hcomma]]. unfold stripped_parts.
  rewrite (py_split_whole _ _ Hcomma). simpl. rewrite Hstrip.
  destruct s; [congruence | reflexivity].
Qed.

(** ** The fiats of a run *)

Lemma collect_fiats_flat (cli_fiats fiats : list string) :
  collect_fiats cli_fiats fiats =
  (fiats ++ concat (map stripped_parts cli_fiats))%list.
Proof.
  revert fiats. induction cli_fiats as [ | entry rest IH]; intros fiats; simpl.
  - rewrite app_nil_r. reflexivity.
  - destruct entry as [ | c entry]; cbn [str_truthy negb].
    + rewrite IH. reflexivity.
    + rewrite IH, <- app_assoc. reflexivity.
Qed.

Lemma existsb_eqb_In (f : string) (seen : list string) :
  existsb (String.eqb f) seen = true <-> In f seen.
Proof.
  rewrite existsb_exists. split.
  - intros [x [Hx He]]. apply String.eqb_eq in He. subst. exact Hx.
  - intros Hf. exists f. split; [exact Hf | apply String.eqb_refl].
Qed.

Lemma dedupe_fiats_ordered (fiats seen ordered : list string) :
  dedupe_fiats fiats seen ordered = (ordered ++ dedupe_fiats fiats seen [])%list.
Proof.
  revert seen ordered. induction fiats as [ | f rest IH]; intros seen ordered; simpl.
  - rewrite app_nil_r. reflexivity.
  - destruct (existsb (String.eqb f) seen).
    + apply IH.
    + rewrite (IH (f :: seen) (ordered ++ [f])%list), (IH (f :: seen) [f]).
      rewrite <- app_assoc. reflexivity.
Qed.

Lemma dedupe_fiats_spec (fiats seen : list string) :
  NoDup (dedupe_fiats fiats seen []) /\
  (forall f, In f (dedupe_fiats fiats seen []) <-> In f fiats /\ ~ In f seen).
Proof.
  revert seen. induction fiats as [ | f rest IH]; intros seen; simpl.
  - split; [constructor | ]. intros f. tauto.
  - destruct (existsb (String.eqb f) seen) eqn:E.
    + apply existsb_eqb_In in E. destruct (IH seen) as [Hnd Hin].
      split; [exact Hnd | ]. intros g. rewrite Hin. split.
      * tauto.
      * intros [[-> | Hg] Hn]; [contradiction | tauto].
    + assert (Hf : ~ In f seen).
      { intros Hf. apply existsb_eqb_In in Hf. congruence. }
      rewrite dedupe_fiats_ordered. destruct (IH (f :: seen)) as [Hnd Hin].
      split.
      * simpl. constructor; [ | exact Hnd].
        rewrite Hin. simpl. tauto.
      * intros g. simpl. rewrite Hin. simpl. split.
        -- intros [<- | [Hg Hn]]; tauto.
        -- intros [[<- | Hg] Hn]; [tauto | ].
           destruct (string_dec f g) as [-> | Hne]; tauto.
Qed.

Lemma dedupe_fiats_fixed (fiats seen : list string) :
  NoDup fiats -> (forall f, In f fiats -> ~ In f seen) ->
  dedupe_fiats fiats seen [] = fiats.
Proof.
  revert seen. induction fiats as [ | f rest IH]; intros seen Hnd Hdis; simpl.
  - reflexivity.
  - inversion Hnd as [ | ? ? Hf Hrest]; subst.
    destruct (existsb (String.eqb f) seen) eqn:E.
    + apply existsb_eqb_In in E. exfalso. apply (Hdis f); simpl; tauto.
    + rewrite dedupe_fiats_ordered. simpl. f_equal. apply IH; [exact Hrest | ].
      intros g Hg [<- | Hs]; [contradiction | ].
      apply (Hdis g); simpl; tauto.
Qed.

(** The list that [_parse_fiats] removes the repeats of. *)
Lemma parse_fiats_chosen (DEFAULT_FIATS cli_fiats : list string) :
  _parse_fiats DEFAULT_FIATS cli_fiats =
  dedupe_fiats
    (match concat (map stripped_parts cli_fiats) with
     | [] => match DEFAULT_FIATS with [] => ["MXN"] | _ => DEFAULT_FIATS end
     | parts => parts
     end) [] [].
Proof.
  unfold _parse_fiats. rewrite collect_fiats_flat. simpl.
  destruct (concat (map stripped_parts cli_fiats)) as [ | p ps]; [ | reflexivity].
  destruct DEFAULT_FIATS; reflexivity.
Qed.

Lemma concat_stripped_parts_clean (l : list string) :
  Forall clean_code (concat (map stripped_parts l)).
Proof.
  induction l as [ | e l IH]; simpl; [constructor | ].
  apply Forall_app. split; [apply stripped_parts_clean | exact IH].
Qed.

Lemma clean_MXN : clean_code "MXN".
Proof. split; [discriminate | split; reflexivity]. Qed.

Lemma parse_list_clean (environ : Environ) (name : string) :
  Forall clean_code (parse_list environ name (Some [])) /\
  Forall clean_code (parse_list environ name None).
Proof.
  unfold parse_list. destruct (environ name) as [raw | ].
  - destruct (String.eqb (py_strip raw) "").
    + split; constructor.
    + split; apply stripped_parts_clean.
  - split; constructor.
Qed.

Lemma parse_fiats_not_empty (DEFAULT_FIATS cli_fiats : list string) :
  _parse_fiats DEFAULT_FIATS cli_fiats <> [].
Proof.
  rewrite parse_fiats_chosen.
  set (chosen := match concat (map stripped_parts cli_fiats) with
                 | [] => match DEFAULT_FIATS with [] => ["MXN"] | _ => DEFAULT_FIATS end
                 | parts => parts
                 end).
  assert (Hne : chosen <> []).
  { unfold chosen. destruct (concat (map stripped_parts cli_fiats)); [ | discriminate].
    destruct DEFAULT_FIATS; discriminate. }
  destruct (dedupe_fiats_spec chosen []) as [Hnd Hin].
  destruct chosen as [ | f rest]; [congruence | ].
  intros Hnil. assert (Hf : In f (dedupe_fiats (f :: rest) [] [])).
  { apply Hin. simpl. tauto. }
  rewrite Hnil in Hf. exact Hf.
Qed.

Lemma parse_fiats_nodup (DEFAULT_FIATS cli_fiats : list string) :
  NoDup (_parse_fiats DEFAULT_FIATS cli_fiats).
Proof. rewrite parse_fiats_chosen. apply dedupe_fiats_spec. Qed.

(** ** [cli.py]: the fiats that a run asks for *)

(** Whatever the command line and the defaults are, [_parse_fiats] gives
    at least one fiat and gives none twice. *)
Theorem parse_fiats_distinct_not_empty (DEFAULT_FIATS cli_fiats : list string) :
  NoDup (_parse_fiats DEFAULT_FIATS cli_fiats) /\
  _parse_fiats DEFAULT_FIATS cli_fiats <> [].
Proof.
  split; [apply parse_fiats_nodup | apply parse_fiats_not_empty].
Qed.

(** One entry with a comma stands for the two entries around the comma:
    [--fiats a,b] and [--fiats a --fiats b] give the same fiats, wherever
    the entry is in the list. *)
Theorem parse_fiats_comma_as_repeated_flag
    (DEFAULT_FIATS before after : list string) (a b : string) :
  _parse_fiats DEFAULT_FIATS (before ++ (a ++ String "," b)%string :: after)%list =
  _parse_fiats DEFAULT_FIATS (before ++ a :: b :: after)%list.
Proof.
  rewrite !parse_fiats_chosen, !map_app, !concat_app. simpl.
  rewrite stripped_parts_comma, <- app_assoc. reflexivity.
Qed.

(** The defaults are a fallback, not merged: as soon as one entry of the
    command line has a part that is not blank, [DEFAULT_FIATS] is not
    read; without such an entry the fiats are those of [DEFAULT_FIATS],
    and ["MXN"] alone when that is empty too. *)
Theorem parse_fiats_defaults_are_fallback (DEFAULT_FIATS cli_fiats : list string) :
  ((exists entry, In entry cli_fiats /\ stripped_parts entry <> []) ->
   _parse_fiats DEFAULT_FIATS cli_fiats = _parse_fiats [] cli_fiats /\
   forall f, In f (_parse_fiats DEFAULT_FIATS cli_fiats) <->
             exists entry, In entry cli_fiats /\ In f (stripped_parts entry)) /\
  ((forall entry, In entry cli_fiats -> stripped_parts entry = []) ->
   (DEFAULT_FIATS <> [] ->
    forall f, In f (_parse_fiats DEFAULT_FIATS cli_fiats) <-> In f DEFAULT_FIATS) /\
   (DEFAULT_FIATS = [] -> _parse_fiats DEFAULT_FIATS cli_fiats = ["MXN"])).
Proof.
  rewrite !parse_fiats_chosen. split.
  - intros [entry [Hin Hparts]].
    assert (Hne : concat (map stripped_parts cli_fiats) <> []).
    { intros Hnil. apply Hparts.
      assert (Hall : forall f, ~ In f (stripped_parts entry)).
      { intros f Hf. assert (Hc : In f (concat (map stripped_parts cli_fiats))).
        { apply in_concat. exists (stripped_parts entry). split; [ | exact Hf].
          apply in_map, Hin. }
        rewrite Hnil in Hc. exact Hc. }
      destruct (stripped_parts entry) as [ | p ps]; [reflexivity | ].
      exfalso. apply (Hall p). simpl. tauto. }
    destruct (concat (map stripped_parts cli_fiats)) as [ | p ps] eqn:E; [congruence | ].
    split; [reflexivity | ].
    intros f. destruct (dedupe_fiats_spec (p :: ps) []) as [_ Hspec].
    rewrite Hspec, <- E, in_concat. split.
    + intros [[parts [Hp Hf]] _]. apply in_map_iff in Hp.
      destruct Hp as [e [<- He]]. exists e. tauto.
    + intros [e [He Hf]]. split; [ | simpl; tauto].
      exists (stripped_parts e). split; [apply in_map, He | exact Hf].
  - intros Hnone.
    assert (Hnil : concat (map stripped_parts cli_fiats) = []).
    { induction cli_fiats as [ | e l IH]; simpl; [reflexivity | ].
      rewrite (Hnone e) by (simpl; tauto). simpl.
      apply IH. intros e' He'. apply Hnone. simpl. tauto. }
    rewrite Hnil. split.
    + intros Hd f. destruct DEFAULT_FIATS as [ | d ds]; [congruence | ].
      destruct (dedupe_fiats_spec (d :: ds) []) as [_ Hspec].
      rewrite Hspec. simpl. tauto.
    + intros ->. reflexivity.
Qed.

Lemma parse_fiats_defaults_are_fallback_witness :
  (_parse_fiats ["BRL"; "ARS"] [""; "MXN, mxn ,MXN"] =
   _parse_fiats [] [""; "MXN, mxn ,MXN"] /\
   forall f, In f (_parse_fiats ["BRL"; "ARS"] [""; "MXN, mxn ,MXN"]) <->
             exists entry, In entry [""; "MXN, mxn ,MXN"] /\
                           In f (stripped_parts entry)) /\
  _parse_fiats [] [" , "; ""] = ["MXN"].
Proof.
  split.
  - apply (proj1 (parse_fiats_defaults_are_fallback ["BRL"; "ARS"]
                    [""; "MXN, mxn ,MXN"])).
    exists "MXN, mxn ,MXN". split; [simpl; tauto | vm_compute; discriminate].
  - apply (proj2 (parse_fiats_defaults_are_fallback [] [" , "; ""])).
    + intros entry [<- | [<- | []]]; reflexivity.
    + reflexivity.
Defined.

(** A list of distinct codes, none empty, none with a comma or with
    space around it, is returned as it is, in its order. *)
Theorem parse_fiats_keeps_clean_list (DEFAULT_FIATS cli_fiats : list string) :
  cli_fiats <> [] -> NoDup cli_fiats -> Forall clean_code cli_fiats ->
  _parse_fiats DEFAULT_FIATS cli_fiats = cli_fiats.
Proof.
  intros Hne Hnd Hclean. rewrite parse_fiats_chosen.
  assert (Hflat : concat (map stripped_parts cli_fiats) = cli_fiats).
  { clear Hne Hnd. induction Hclean as [ | s l Hs Hl IH]; simpl; [reflexivity | ].
    rewrite (stripped_parts_clean_code s Hs), IH. reflexivity. }
  rewrite Hflat. destruct cli_fiats as [ | f rest]; [congruence | ].
  apply dedupe_fiats_fixed; [exact Hnd | ]. intros g _ [].
Qed.

Lemma parse_fiats_keeps_clean_list_witness :
  _parse_fiats ["EUR"] ["MXN"; "BRL"; "ARS"] = ["MXN"; "BRL"; "ARS"].
Proof.
  apply parse_fiats_keeps_clean_list.
  - discriminate.
  - repeat constructor; simpl; intuition discriminate.
  - repeat constructor; discriminate.
Defined.

(** With the defaults that [config.py] reads from the environment, every
    fiat of a run is a clean code, whatever the environment and the
    command line hold; so is every element that [parse_list] reads from
    a variable. *)
Theorem parse_fiats_codes_are_clean (environ : Environ) (cli_fiats : list string)
    (name : string) :
  Forall clean_code (_parse_fiats (DEFAULT_FIATS environ) cli_fiats) /\
  Forall clean_code (parse_list environ name None).
Proof.
  split; [ | apply parse_list_clean].
  rewrite parse_fiats_chosen.
  set (chosen := match concat (map stripped_parts cli_fiats) with
                 | [] => match DEFAULT_FIATS environ with
                         | [] => ["MXN"]
                         | _ => DEFAULT_FIATS environ
                         end
                 | parts => parts
                 end).
  assert (Hclean : Forall clean_code chosen).
  { unfold chosen.
    pose proof (concat_stripped_parts_clean cli_fiats) as Hc.
    destruct (concat (map stripped_parts cli_fiats)); [ | exact Hc].
    pose proof (proj1 (parse_list_clean environ "DEFAULT_FIATS")) as Hd.
    fold (DEFAULT_FIATS environ) in Hd.
    destruct (DEFAULT_FIATS environ); [ | exact Hd].
    constructor; [apply clean_MXN | constructor]. }
  destruct (dedupe_fiats_spec chosen []) as [_ Hin].
  rewrite Forall_forall in *. intros f Hf. apply Hclean, Hin, Hf.
Qed.

(** ** [config.py]: defaults and required variables *)

(** A variable that is set to the empty text counts as not set: [get_env]
    gives the default for it, [require] refuses it by the name of the
    variable, and a value is returned exactly when the variable holds a
    text that is not empty. *)
Theorem require_accepts_nonempty_only (environ : Environ) (name : string) :
  (forall v, require name (get_env environ name None) = Ok v <->
             environ name = Some v /\ v <> "") /\
  (environ name = None \/ environ name = Some "" ->
   require name (get_env environ name None) =
   Raise (ValueError ("Missing required environment variable: " ++ name))) /\
  (forall default, default <> Some "" -> get_env environ name default <> Some "").
Proof.
  unfold require, get_env. split; [ | split].
  - intros v. destruct (environ name) as [val | ] eqn:E.
    + destruct (String.eqb val "") eqn:Ev.
      * apply String.eqb_eq in Ev. subst val. split; [discriminate | ].
        intros [[= <-] Hv]. congruence.
      * rewrite Ev. apply String.eqb_neq in Ev. split.
        -- intros [= <-]. split; [reflexivity | exact Ev].
        -- intros [[= <-] _]. reflexivity.
    + split; [discriminate | intros [Hv _]; discriminate].
  - intros [-> | ->]; reflexivity.
  - intros default Hd. destruct (environ name) as [val | ]; [ | exact Hd].
    destruct (String.eqb val "") eqn:Ev; [exact Hd | ].
    apply String.eqb_neq in Ev. congruence.
Qed.

(** ** [clients/eldorado.py]: joining the base address and a path *)

Lemma py_rstrip_char_app (ch : ascii) (s : string) :
  py_rstrip_char ch (s ++ String ch EmptyString) = py_rstrip_char ch s.
Proof.
  induction s as [ | c s IH]; simpl.
  - rewrite Ascii.eqb_refl. reflexivity.
  - rewrite IH. reflexivity.
Qed.

Lemma py_rstrip_char_end (ch : ascii) (s t : string) :
  py_rstrip_char ch s <> t ++ String ch EmptyString.
Proof.
  revert t. induction s as [ | c s IH]; intros t; simpl.
  - destruct t; discriminate.
  - destruct (py_rstrip_char ch s) as [ | c' r] eqn:E.
    + destruct (Ascii.eqb c ch) eqn:Ec.
      * destruct t; discriminate.
      * destruct t as [ | c0 t]; simpl.
        -- intros [= ->]. rewrite Ascii.eqb_refl in Ec. discriminate.
        -- destruct t; discriminate.
    + destruct t as [ | c0 t]; simpl; [discriminate | ].
      intros [= -> Hr]. exact (IH t Hr).
Qed.

(** Slashes at the end of the base address and one slash at the start of
    the path do not matter: the address is the base without the slashes at
    its end, then, for a path that is not empty, one slash and the path. *)
Theorem join_url_slashes (base path : string) :
  _join_url (base ++ "/") path = _join_url base path /\
  _join_url base "" = py_rstrip_char "/" base /\
  (forall t, py_rstrip_char "/" base <> t ++ "/") /\
  (path <> "" -> starts_with_slash path = false ->
   _join_url base path = py_rstrip_char "/" base ++ "/" ++ path /\
   _join_url base path = _join_url base ("/" ++ path)).
Proof.
  unfold _join_url. split; [ | split; [ | split]].
  - rewrite py_rstrip_char_app. reflexivity.
  - reflexivity.
  - intros t. apply py_rstrip_char_end.
  - intros Hne Hs. destruct path as [ | c path]; [congruence | ].
    cbn [str_truthy negb]. rewrite Hs. cbn [negb].
    split; reflexivity.
Qed.

Lemma join_url_slashes_witness :
  _join_url "https://api.eldorado.io/api//" "prices" =
  "https://api.eldorado.io/api/prices" /\
  _join_url "https://api.eldorado.io/api//" "prices" =
  _join_url "https://api.eldorado.io/api//" "/prices".
Proof.
  exact (proj2 (proj2 (proj2 (join_url_slashes "https://api.eldorado.io/api//" "prices")))
           ltac:(discriminate) eq_refl).
Defined.

(** ** [cli.py]: the row of a fiat and the exit status *)

Section CommandLineFacts.

Context {F : Type} `{PyFloat F}.

Lemma collect_returns (providers : Providers F) (fiat asset ref_fiat : string)
    (min_valid_ads decimals : option Z) (buy sell : option F)
    (fx : option (FxRate F)) :
  providers_return providers fiat asset ref_fiat min_valid_ads buy sell fx ->
  _collect_for_fiat providers fiat asset ref_fiat min_valid_ads decimals =
  Returned (row_of fiat asset ref_fiat decimals buy sell fx).
Proof.
  intros (Hb & Hs & Hfx). unfold _collect_for_fiat. rewrite Hb, Hs, Hfx.
  reflexivity.
Qed.

Lemma collect_returned_inv (providers : Providers F) (fiat asset ref_fiat : string)
    (min_valid_ads decimals : option Z) (r : Row F) :
  _collect_for_fiat providers fiat asset ref_fiat min_valid_ads decimals = Returned r ->
  exists buy sell fx,
    providers_return providers fiat asset ref_fiat min_valid_ads buy sell fx /\
    r = row_of fiat asset ref_fiat decimals buy sell fx.
Proof.
  unfold _collect_for_fiat, providers_return.
  destruct (binance_average_price providers fiat asset "BUY" min_valid_ads)
    as [buy | e]; [ | discriminate].
  destruct (binance_average_price providers fiat asset "SELL" min_valid_ads)
    as [sell | e]; [ | discriminate].
  destruct (xe_fetch_fx_rate providers fiat ref_fiat) as [fx | e]; [ | discriminate].
  cbn [attempt_bind]. intros [= <-]. exists buy, sell, fx.
  split; [repeat split | reflexivity].
Qed.

Lemma row_of_cases (fiat asset ref_fiat : string) (decimals : option Z)
    (buy sell : option F) (fx : option (FxRate F)) :
  (row_ok (row_of fiat asset ref_fiat decimals buy sell fx) /\
   exists b s rates p,
     buy = Some b /\ sell = Some s /\ fx = Some rates /\
     compute_premiums (PyNum s) (PyNum b) (PyNum (rate_bid rates))
       (PyNum (rate_ask rates)) decimals = Ok p) \/
  (row_failed (row_of fiat asset ref_fiat decimals buy sell fx) /\
   ~ exists b s rates p,
     buy = Some b /\ sell = Some s /\ fx = Some rates /\
     compute_premiums (PyNum s) (PyNum b) (PyNum (rate_bid rates))
       (PyNum (rate_ask rates)) decimals = Ok p).
Proof.
  unfold row_of, row_ok, row_failed.
  destruct buy as [buy | ]; destruct sell as [sell | ];
    try (right; split;
         [split; [reflexivity | split; [reflexivity | eexists; split; [reflexivity | discriminate]]]
         | intros (b & s & rates & p & Hb & Hs & _); discriminate]).
  destruct fx as [fx | ].
  - destruct (compute_premiums (PyNum sell) (PyNum buy) (PyNum (rate_bid fx))
                (PyNum (rate_ask fx)) decimals) as [p | e] eqn:E.
    + left. split; [split; [reflexivity | split; reflexivity] | ].
      exists buy, sell, fx, p. repeat split; assumption.
    + right. split.
      * split; [reflexivity | split; [reflexivity | ]].
        eexists. split; [reflexivity | discriminate].
      * intros (b & s & fx' & p & [= <-] & [= <-] & [= <-] & Hp). congruence.
  - right. split.
    + split; [reflexivity | split; [reflexivity | ]].
      eexists. split; [reflexivity | discriminate].
    + intros (b & s & fx' & p & _ & _ & Hfx & _). discriminate.
Qed.

Lemma row_ok_not_failed (r : Row F) : row_ok r -> ~ row_failed r.
Proof. intros [_ [Hs _]] [_ [Hn _]]. congruence. Qed.

Lemma row_of_ok_iff_not_failed (fiat asset ref_fiat : string) (decimals : option Z)
    (buy sell : option F) (fx : option (FxRate F)) :
  row_failed (row_of fiat asset ref_fiat decimals buy sell fx) <->
  ~ row_ok (row_of fiat asset ref_fiat decimals buy sell fx).
Proof.
  destruct (row_of_cases fiat asset ref_fiat decimals buy sell fx)
    as [[Hok _] | [Hf _]]; split.
  - intros Hf _. exact (row_ok_not_failed _ Hok Hf).
  - intros Hn. exfalso. exact (Hn Hok).
  - intros _ Hok. exact (row_ok_not_failed _ Hok Hf).
  - intros _. exact Hf.
Qed.

Lemma row_of_truthy (fiat asset ref_fiat : string) (decimals : option Z)
    (buy sell : option F) (fx : option (FxRate F)) :
  row_truthy (dict_get "error" (row_of fiat asset ref_fiat decimals buy sell fx)) = true <->
  row_failed (row_of fiat asset ref_fiat decimals buy sell fx).
Proof.
  destruct (row_of_cases fiat asset ref_fiat decimals buy sell fx)
    as [[Hok Hq] | [Hf Hn]].
  - split.
    + destruct Hok as [_ [_ He]]. rewrite He. discriminate.
    + intros Hf. exfalso. exact (row_ok_not_failed _ Hok Hf).
  - split; [intros _; exact Hf | ]. intros _.
    destruct Hf as [_ [_ [msg [He Hm]]]]. rewrite He. simpl.
    apply str_truthy_iff, Hm.
Qed.

(** When the three calls of the providers return, so does
    [_collect_for_fiat], and the row is either complete or failed: it has
    the status ["ok"], the three results and no error exactly when both
    quotes and the rates are there and [compute_premiums] returns on them,
    the results being its fields; otherwise it has an error text and
    neither status nor result.  In both cases it records the fiat, the
    asset, the reference fiat and what the providers answered. *)
Theorem collect_row_ok_or_failed (providers : Providers F)
    (fiat asset ref_fiat : string) (min_valid_ads decimals : option Z)
    (buy sell : option F) (fx : option (FxRate F)) :
  providers_return providers fiat asset ref_fiat min_valid_ads buy sell fx ->
  exists r : Row F,
    _collect_for_fiat providers fiat asset ref_fiat min_valid_ads decimals =
    Returned r /\
    (row_ok r <->
     exists b s rates p,
       quotes_computed providers fiat asset ref_fiat min_valid_ads decimals
         b s rates p) /\
    (row_failed r <-> ~ row_ok r) /\
    (forall b s rates p,
       quotes_computed providers fiat asset ref_fiat min_valid_ads decimals
         b s rates p ->
       dict_get "stablecoin_sell_premium" r = Some (RNum (stablecoin_sell_premium p)) /\
       dict_get "stablecoin_buy_premium" r = Some (RNum (stablecoin_buy_premium p)) /\
       dict_get "stablecoin_buy_sell_spread" r =
       Some (RNum (stablecoin_buy_sell_spread p))) /\
    dict_get "fiat" r = Some (RStr fiat) /\
    dict_get "asset" r = Some (RStr asset) /\
    dict_get "ref_fiat" r = Some (RStr ref_fiat) /\
    dict_get "buy_rate" r = Some (optional_num buy) /\
    dict_get "sell_rate" r = Some (optional_num sell) /\
    dict_get "fx" r = Some (optional_fx fx).
Proof.
  intros Hret. exists (row_of fiat asset ref_fiat decimals buy sell fx).
  split; [apply collect_returns, Hret | ].
  destruct Hret as (Hb & Hs & Hfx).
  assert (Hq : (exists b s rates p,
                  quotes_computed providers fiat asset ref_fiat min_valid_ads decimals
                    b s rates p) <->
               (exists b s rates p,
                  buy = Some b /\ sell = Some s /\ fx = Some rates /\
                  compute_premiums (PyNum s) (PyNum b) (PyNum (rate_bid rates))
                    (PyNum (rate_ask rates)) decimals = Ok p)).
  { unfold quotes_computed. rewrite Hb, Hs, Hfx. split;
      intros (b & s & rates & p & H1 & H2 & H3 & H4); exists b, s, rates, p;
      repeat split; congruence. }
  split; [ | split; [ | split]].
  - rewrite Hq.
    destruct (row_of_cases fiat asset ref_fiat decimals buy sell fx)
      as [[Hok Hex] | [Hf Hn]]; split; try tauto.
    intros Hok. exfalso. exact (row_ok_not_failed _ Hok Hf).
  - apply row_of_ok_iff_not_failed.
  - intros b s rates p (Hb' & Hs' & Hfx' & Hp).
    assert (buy = Some b) by congruence. assert (sell = Some s) by congruence.
    assert (fx = Some rates) by congruence. subst.
    unfold row_of. rewrite Hp. split; [reflexivity | split; reflexivity].
  - unfold row_of. destruct buy; destruct sell; destruct fx;
      try destruct (compute_premiums _ _ _ _ _); repeat split; reflexivity.
Qed.

(** The calls of the providers are outside the [try] of
    [_collect_for_fiat]: it raises exactly what the first of the three
    calls that raises does, and returns when the three return. *)
Theorem collect_row_raises (providers : Providers F)
    (fiat asset ref_fiat : string) (min_valid_ads decimals : option Z) (e : Exc.t) :
  _collect_for_fiat providers fiat asset ref_fiat min_valid_ads decimals = Raised e <->
  binance_average_price providers fiat asset "BUY" min_valid_ads = Raised e \/
  (exists buy,
     binance_average_price providers fiat asset "BUY" min_valid_ads = Returned buy /\
     (binance_average_price providers fiat asset "SELL" min_valid_ads = Raised e \/
      exists sell,
        binance_average_price providers fiat asset "SELL" min_valid_ads = Returned sell /\
        xe_fetch_fx_rate providers fiat ref_fiat = Raised e)).
Proof.
  unfold _collect_for_fiat.
  destruct (binance_average_price providers fiat asset "BUY" min_valid_ads)
    as [buy | e1]; cbn [attempt_bind].
  - destruct (binance_average_price providers fiat asset "SELL" min_valid_ads)
      as [sell | e2]; cbn [attempt_bind].
    + destruct (xe_fetch_fx_rate providers fiat ref_fiat) as [fx | e3];
        cbn [attempt_bind].
      * split; [discriminate | ].
        intros [Hb | [b [_ [Hs | [s [_ Hfx]]]]]]; discriminate.
      * split.
        -- intros [= <-]. right. exists buy. split; [reflexivity | ].
           right. exists sell. split; reflexivity.
        -- intros [Hb | [b [_ [Hs | [s [_ Hfx]]]]]]; try discriminate.
           injection Hfx as ->. reflexivity.
    + split.
      * intros [= <-]. right. exists buy. split; [reflexivity | left; reflexivity].
      * intros [Hb | [b [_ [Hs | [s [Hs _]]]]]]; try discriminate.
        injection Hs as ->. reflexivity.
  - split.
    + intros [= <-]. left. reflexivity.
    + intros [Hb | [b [Hb _]]]; try discriminate.
      injection Hb as ->. reflexivity.
Qed.

Lemma collect_rows_returned (providers : Providers F) (args : Args)
    (fiats : list string) (rows : list (Row F)) :
  collect_rows providers args fiats = Returned rows ->
  map (dict_get "fiat") rows = map (fun fiat => Some (RStr fiat)) fiats /\
  Forall (fun r => exists fiat buy sell fx,
            r = row_of fiat (args_asset args) (args_ref_fiat args)
                  (args_decimals args) buy sell fx) rows.
Proof.
  revert rows. induction fiats as [ | fiat rest IH]; intros rows; simpl.
  - intros [= <-]. split; [reflexivity | constructor].
  - destruct (_collect_for_fiat providers fiat (args_asset args) (args_ref_fiat args)
                (args_min_valid_ads args) (args_decimals args)) as [row | e] eqn:Erow;
      cbn [attempt_bind]; [ | discriminate].
    destruct (collect_rows providers args rest) as [rows' | e]; cbn [attempt_bind];
      [ | discriminate].
    intros [= <-]. destruct (IH rows' eq_refl) as [Hf Hall].
    destruct (collect_returned_inv _ _ _ _ _ _ _ Erow) as (buy & sell & fx & _ & ->).
    split.
    + simpl. rewrite Hf. f_equal.
      unfold row_of. destruct buy; destruct sell; destruct fx;
        try destruct (compute_premiums _ _ _ _ _); reflexivity.
    + constructor; [ | exact Hall]. exists fiat, buy, sell, fx. reflexivity.
Qed.

(** When [main] returns, it has made one row for each fiat of
    [_parse_fiats], in that order, so at least one row and no fiat twice;
    its exit status is 0 exactly when every row is complete, and 1 exactly
    when some row failed. *)
Theorem main_exit_status (providers : Providers F) (DEFAULT_FIATS : list string)
    (args : Args) (rows : list (Row F)) (status : Z) :
  main providers DEFAULT_FIATS args = Returned (rows, status) ->
  map (dict_get "fiat") rows =
  map (fun fiat => Some (RStr fiat)) (_parse_fiats DEFAULT_FIATS (args_fiats args)) /\
  NoDup (map (dict_get "fiat") rows) /\
  rows <> [] /\
  (status = 0%Z <-> Forall row_ok rows) /\
  (status = 1%Z <-> Exists row_failed rows) /\
  (status = 0%Z \/ status = 1%Z).
Proof.
  unfold main.
  set (fiats := _parse_fiats DEFAULT_FIATS (args_fiats args)).
  assert (Hne : fiats <> []) by apply parse_fiats_not_empty.
  destruct (collect_rows providers args fiats) as [rows' | e] eqn:Erows;
    cbn [attempt_bind]; [ | discriminate].
  intros [= <- <-].
  destruct (collect_rows_returned providers args fiats rows' Erows) as [Hfiat Hshape].
  set (any_error := existsb (fun r => row_truthy (dict_get "error" r)) rows').
  assert (Hex : any_error = true <-> Exists row_failed rows').
  { unfold any_error. rewrite existsb_exists, Exists_exists.
    rewrite Forall_forall in Hshape. split.
    - intros [r [Hin Ht]]. exists r. split; [exact Hin | ].
      destruct (Hshape r Hin) as (f & b & s & fx & ->). apply row_of_truthy, Ht.
    - intros [r [Hin Hf]]. exists r. split; [exact Hin | ].
      destruct (Hshape r Hin) as (f & b & s & fx & ->). apply row_of_truthy, Hf. }
  assert (Hall : Forall row_ok rows' <-> ~ Exists row_failed rows').
  { rewrite Forall_forall, Exists_exists. rewrite Forall_forall in Hshape. split.
    - intros Hok [r [Hin Hf]]. exact (row_ok_not_failed r (Hok r Hin) Hf).
    - intros Hn r Hin. destruct (Hshape r Hin) as (f & b & s & fx & ->).
      destruct (row_of_cases f (args_asset args) (args_ref_fiat args)
                  (args_decimals args) b s fx) as [[Hok _] | [Hf _]]; [exact Hok | ].
      exfalso. apply Hn. eexists. split; [exact Hin | exact Hf]. }
  split; [exact Hfiat | split; [ | split; [ | split; [ | split]]]].
  - rewrite Hfiat.
    pose proof (parse_fiats_nodup DEFAULT_FIATS (args_fiats args)) as Hnd.
    fold fiats in Hnd. clear -Hnd.
    induction Hnd as [ | f l Hf Hl IH]; simpl; constructor; [ | exact IH].
    intros Hin. apply Hf. apply in_map_iff in Hin.
    destruct Hin as [g [[= ->] Hg]]. exact Hg.
  - intros ->. destruct fiats; [congruence | discriminate].
  - rewrite Hall, <- Hex.
    destruct any_error; split; try discriminate; try congruence.
  - rewrite <- Hex.
    destruct any_error; split; try discriminate; try congruence.
  - destruct any_error; tauto.
Qed.


End CommandLineFacts.

Section CommandLineErrors.

Context {F : Type} `{PyFloatLaws F}.

(** The error of a failed row, by precedence: a missing quote is
    reported first, whatever the rates are; then missing rates; then the
    first of [sell_rate], [buy_rate], [fx_bid], [fx_ask] that validation
    refuses, by its name and value.  When the four are accepted and no
    rounding is asked, the row is complete. *)
Theorem collect_row_error_text (providers : Providers F)
    (fiat asset ref_fiat : string) (min_valid_ads decimals : option Z)
    (buy sell : option F) (fx : option (FxRate F)) :
  providers_return providers fiat asset ref_fiat min_valid_ads buy sell fx ->
  exists r : Row F,
    _collect_for_fiat providers fiat asset ref_fiat min_valid_ads decimals =
    Returned r /\
    (buy = None \/ sell = None ->
     dict_get "error" r = Some (RStr "insufficient_p2p_data")) /\
    (buy <> None -> sell <> None -> fx = None ->
     dict_get "error" r = Some (RStr "insufficient_fx_data")) /\
    (forall (b s : F) (rates : FxRate F),
       buy = Some b -> sell = Some s -> fx = Some rates ->
       (f_leb s f_zero = true ->
        dict_get "error" r =
        Some (RStr ("compute_error: sell_rate must be > 0; got " ++ f_repr s))) /\
       (f_leb s f_zero = false -> f_leb b f_zero = true ->
        dict_get "error" r =
        Some (RStr ("compute_error: buy_rate must be > 0; got " ++ f_repr b))) /\
       (f_leb s f_zero = false -> f_leb b f_zero = false ->
        f_leb (rate_bid rates) f_zero = true ->
        dict_get "error" r =
        Some (RStr ("compute_error: fx_bid must be > 0; got "
                    ++ f_repr (rate_bid rates)))) /\
       (f_leb s f_zero = false -> f_leb b f_zero = false ->
        f_leb (rate_bid rates) f_zero = false ->
        f_leb (rate_ask rates) f_zero = true ->
        dict_get "error" r =
        Some (RStr ("compute_error: fx_ask must be > 0; got "
                    ++ f_repr (rate_ask rates)))) /\
       (f_leb s f_zero = false -> f_leb b f_zero = false ->
        f_leb (rate_bid rates) f_zero = false ->
        f_leb (rate_ask rates) f_zero = false ->
        decimals = None -> row_ok r)).
Proof.
  intros Hret. exists (row_of fiat asset ref_fiat decimals buy sell fx).
  split; [apply collect_returns, Hret | ]. clear Hret.
  unfold row_of. split; [ | split].
  - intros [-> | ->]; [reflexivity | ]. destruct buy; reflexivity.
  - intros Hb Hs ->. destruct buy; [ | congruence]. destruct sell; [ | congruence].
    reflexivity.
  - intros b s rates -> -> ->. unfold compute_premiums.
    split; [ | split; [ | split; [ | split]]].
    + intros Hs. rewrite (validate_nonpositive "sell_rate" s Hs). reflexivity.
    + intros Hs Hb. rewrite (validate_accepts "sell_rate" s Hs).
      rewrite (validate_nonpositive "buy_rate" b Hb). reflexivity.
    + intros Hs Hb Hbid. rewrite (validate_accepts "sell_rate" s Hs).
      rewrite (validate_accepts "buy_rate" b Hb).
      rewrite (validate_nonpositive "fx_bid" _ Hbid). reflexivity.
    + intros Hs Hb Hbid Hask. rewrite (validate_accepts "sell_rate" s Hs).
      rewrite (validate_accepts "buy_rate" b Hb).
      rewrite (validate_accepts "fx_bid" _ Hbid).
      rewrite (validate_nonpositive "fx_ask" _ Hask). reflexivity.
    + intros Hs Hb Hbid Hask ->.
      fold (compute_premiums (PyNum s) (PyNum b) (PyNum (rate_bid rates))
              (PyNum (rate_ask rates)) None).
      rewrite (compute_premiums_accepted s b _ _ None Hs Hb Hbid Hask).
      split; [reflexivity | split; reflexivity].
Qed.

End CommandLineErrors.

Lemma collect_row_ok_or_failed_witness :
  exists r : Row float,
    _collect_for_fiat ex_providers "MXN" "USDT" "USD" None None = Returned r /\
    row_ok r /\
    dict_get "stablecoin_buy_premium" r = Some (RNum 9.228971962616805%float).
Proof.
  destruct (collect_row_ok_or_failed ex_providers "MXN" "USDT" "USD" None None
              (Some ex_buy_rate) (Some ex_sell_rate) (Some (mkFxRate ex_fx ex_fx ex_fx)))
    as (r & Hr & Hok & _ & Hres & _).
  { repeat split. }
  assert (Hq : quotes_computed ex_providers "MXN" "USDT" "USD" None None
                 ex_buy_rate ex_sell_rate (mkFxRate ex_fx ex_fx ex_fx)
                 (mkPremiums 10.689252336448597%float 9.228971962616805%float
                    (-1.3192612137203166)%float)).
  { repeat split. }
  exists r. split; [exact Hr | split].
  - apply Hok. eexists _, _, _, _. exact Hq.
  - exact (proj1 (proj2 (Hres _ _ _ _ Hq))).
Defined.

Lemma collect_row_error_text_witness :
  exists r : Row float,
    _collect_for_fiat
      (mkProviders (fun _ _ _ _ => Returned (Some 18.70%float))
         (fun _ _ => Returned (Some (mkFxRate 0%float 0%float 17.12%float))))
      "MXN" "USDT" "USD" None None = Returned r /\
    dict_get "error" r = Some (RStr "compute_error: fx_bid must be > 0; got 0.0").
Proof.
  destruct (collect_row_error_text
              (mkProviders (fun _ _ _ _ => Returned (Some 18.70%float))
                 (fun _ _ => Returned (Some (mkFxRate 0%float 0%float 17.12%float))))
              "MXN" "USDT" "USD" None None
              (Some 18.70%float) (Some 18.70%float)
              (Some (mkFxRate 0%float 0%float 17.12%float)))
    as (r & Hr & _ & _ & Hrates).
  { repeat split. }
  exists r. split; [exact Hr | ].
  destruct (Hrates _ _ _ eq_refl eq_refl eq_refl) as (_ & _ & Hbid & _).
  exact (Hbid eq_refl eq_refl eq_refl).
Defined.

Lemma main_exit_status_witness :
  exists rows : list (Row float),
    main ex_providers [] ex_args = Returned (rows, 0%Z) /\
    map (dict_get "fiat") rows = [Some (RStr "MXN"); Some (RStr "BRL")] /\
    Forall row_ok rows.
Proof.
  eexists. split; [vm_compute; reflexivity | ].
  refine ((fun H => conj (proj1 H) (proj1 (proj1 (proj2 (proj2 (proj2 H)))) eq_refl))
            (main_exit_status ex_providers [] ex_args _ 0%Z _)).
  vm_compute. reflexivity.
Defined.

(** ** [clients/xe.py]: the reference rates *)

Section XeFacts.

Variable str_to_float : string -> option float.

(** A row that has the ["mid"] rate only gives it for the three rates:
    ["bid"] and ["ask"] fall back to ["mid"] when the key is missing or
    null, and are read from the row when they convert. *)
Theorem fetch_fx_rate_bid_ask_default_to_mid
    (XE_API_ACCOUNT_ID XE_API_KEY : option string)
    (entries row : Dict Json) (others : list Json) (mid_val : Json) (mid : float) :
  is_configured XE_API_ACCOUNT_ID XE_API_KEY = true ->
  dict_get "to" entries = Some (JList (JDict row :: others)) ->
  dict_get "mid" row = Some mid_val ->
  json_to_float str_to_float mid_val = Returned mid ->
  ((dict_get "bid" row = None \/ dict_get "bid" row = Some JNull) ->
   (dict_get "ask" row = None \/ dict_get "ask" row = Some JNull) ->
   fetch_fx_rate str_to_float XE_API_ACCOUNT_ID XE_API_KEY (HttpJson (JDict entries)) =
   Returned (Some (mkFxRate mid mid mid))) /\
  (forall bid_val ask_val bid ask,
     dict_get "bid" row = Some bid_val -> dict_get "ask" row = Some ask_val ->
     json_to_float str_to_float bid_val = Returned bid ->
     json_to_float str_to_float ask_val = Returned ask ->
     fetch_fx_rate str_to_float XE_API_ACCOUNT_ID XE_API_KEY (HttpJson (JDict entries)) =
     Returned (Some (mkFxRate mid bid ask))).
Proof.
  intros Hconf Hto Hmid Hm.
  assert (Hmid' : _safe_float str_to_float mid_val = Returned (Some mid)).
  { unfold _safe_float. rewrite Hm. destruct mid_val; try reflexivity.
    simpl in Hm. discriminate Hm. }
  split.
  - intros Hbid Hask. unfold fetch_fx_rate. rewrite Hconf. cbn [negb].
    cbn [json_get attempt_bind]. rewrite Hto. cbn [json_truthy json_get attempt_bind].
    rewrite Hmid. cbn [attempt_bind]. rewrite Hmid'. cbn [attempt_bind].
    destruct Hbid as [Hbid | Hbid]; destruct Hask as [Hask | Hask];
      rewrite Hbid, Hask; reflexivity.
  - intros bid_val ask_val bid ask Hbid Hask Hb Ha.
    assert (Hb' : _safe_float str_to_float bid_val = Returned (Some bid)).
    { unfold _safe_float. rewrite Hb. destruct bid_val; try reflexivity.
      simpl in Hb. discriminate Hb. }
    assert (Ha' : _safe_float str_to_float ask_val = Returned (Some ask)).
    { unfold _safe_float. rewrite Ha. destruct ask_val; try reflexivity.
      simpl in Ha. discriminate Ha. }
    unfold fetch_fx_rate. rewrite Hconf. cbn [negb].
    cbn [json_get attempt_bind]. rewrite Hto. cbn [json_truthy json_get attempt_bind].
    rewrite Hmid. cbn [attempt_bind]. rewrite Hmid'. cbn [attempt_bind].
    rewrite Hbid, Hb'. cbn [attempt_bind]. rewrite Hask, Ha'. reflexivity.
Qed.

(** Where [fetch_fx_rate] gives [None] and where it raises: without both
    credentials it gives [None] whatever the reply is; with them, a
    request that fails, a body without a list under ["to"] and a first
    row without a ["mid"] give [None], but a body that is not an object
    and a first row that is not an object raise [AttributeError], and an
    integer rate that no float holds raises [OverflowError]. *)
Theorem fetch_fx_rate_none_or_raises
    (XE_API_ACCOUNT_ID XE_API_KEY : option string) :
  (is_configured XE_API_ACCOUNT_ID XE_API_KEY = false ->
   forall reply,
     fetch_fx_rate str_to_float XE_API_ACCOUNT_ID XE_API_KEY reply = Returned None) /\
  (is_configured XE_API_ACCOUNT_ID XE_API_KEY = true ->
   (forall e, e = Exc.RequestException \/ e = Exc.ValueError \/ e = Exc.TypeError ->
      fetch_fx_rate str_to_float XE_API_ACCOUNT_ID XE_API_KEY (HttpRaises e) =
      Returned None) /\
   (forall entries,
      match dict_get "to" entries with
      | Some (JList (_ :: _)) => False
      | _ => True
      end ->
      fetch_fx_rate str_to_float XE_API_ACCOUNT_ID XE_API_KEY (HttpJson (JDict entries)) =
      Returned None) /\
   (forall entries row others,
      dict_get "to" entries = Some (JList (JDict row :: others)) ->
      dict_get "mid" row = None \/ dict_get "mid" row = Some JNull ->
      fetch_fx_rate str_to_float XE_API_ACCOUNT_ID XE_API_KEY (HttpJson (JDict entries)) =
      Returned None) /\
   (forall payload, is_dict payload = false ->
      fetch_fx_rate str_to_float XE_API_ACCOUNT_ID XE_API_KEY (HttpJson payload) =
      Raised Exc.AttributeError) /\
   (forall entries row others,
      dict_get "to" entries = Some (JList (row :: others)) -> is_dict row = false ->
      fetch_fx_rate str_to_float XE_API_ACCOUNT_ID XE_API_KEY (HttpJson (JDict entries)) =
      Raised Exc.AttributeError) /\
   (forall entries row others n,
      dict_get "to" entries = Some (JList (JDict row :: others)) ->
      dict_get "mid" row = Some (JInt n) -> int_to_float n = Raised Exc.OverflowError ->
      fetch_fx_rate str_to_float XE_API_ACCOUNT_ID XE_API_KEY (HttpJson (JDict entries)) =
      Raised Exc.OverflowError)).
Proof.
  split.
  - intros Hconf reply. unfold fetch_fx_rate. rewrite Hconf. reflexivity.
  - intros Hconf. unfold fetch_fx_rate. rewrite Hconf. cbn [negb].
    split; [ | split; [ | split; [ | split; [ | split]]]].
    + intros e [-> | [-> | ->]]; reflexivity.
    + intros entries Hto. cbn [json_get attempt_bind].
      destruct (dict_get "to" entries) as [to | ]; [ | reflexivity].
      destruct to as [ | b | n | x | s | items | d]; cbn [json_truthy];
        try reflexivity.
      * destruct b; reflexivity.
      * destruct (negb (n =? 0)%Z); reflexivity.
      * destruct (negb (x =? 0)%float); reflexivity.
      * destruct (str_truthy s); reflexivity.
      * destruct items; [reflexivity | contradiction].
      * destruct d; reflexivity.
    + intros entries row others Hto Hmid. cbn [json_get attempt_bind].
      rewrite Hto. cbn [json_truthy json_get attempt_bind].
      destruct Hmid as [-> | ->]; reflexivity.
    + intros payload Hp. destruct payload; try reflexivity. discriminate Hp.
    + intros entries row others Hto Hrow. cbn [json_get attempt_bind].
      rewrite Hto. cbn [json_truthy].
      destruct row; try reflexivity. discriminate Hrow.
    + intros entries row others n Hto Hmid Hn. cbn [json_get attempt_bind].
      rewrite Hto. cbn [json_truthy json_get attempt_bind]. rewrite Hmid.
      cbn [attempt_bind]. unfold _safe_float. cbn [json_to_float]. rewrite Hn.
      reflexivity.
Qed.

End XeFacts.

Lemma fetch_fx_rate_bid_ask_default_to_mid_witness :
  fetch_fx_rate ex_str_to_float (Some "id") (Some "key") (xe_reply ex_network "MXN" "USD") =
  Returned (Some (mkFxRate ex_fx ex_fx ex_fx)).
Proof.
  refine (proj1 (fetch_fx_rate_bid_ask_default_to_mid ex_str_to_float
                   (Some "id") (Some "key")
                   [("to", JList [JDict [("quotecurrency", JStr "MXN");
                                         ("mid", JFloat ex_fx)]])]
                   [("quotecurrency", JStr "MXN"); ("mid", JFloat ex_fx)] []
                   (JFloat ex_fx) ex_fx eq_refl eq_refl eq_refl eq_refl) _ _);
    left; reflexivity.
Defined.

(** ** [clients/binance.py]: the ads and their average *)

Section BinanceFacts.

Variable str_to_float : string -> option float.
Variable py_sum : list float -> float.
Variable time_sleep : float -> attempt unit.

Lemma valid_ad_inv (ad : Json) :
  _valid_ad str_to_float ad = true ->
  exists entries adv price_val price,
    ad = JDict entries /\ dict_get "adv" entries = Some (JDict adv) /\
    dict_get "price" adv = Some price_val /\
    json_to_float str_to_float price_val = Returned price /\
    (price <=? 0)%float = false.
Proof.
  unfold _valid_ad. destruct ad as [ | b | n | x | s | items | entries];
    try discriminate.
  cbn [json_get attempt_bind].
  destruct (dict_get "adv" entries) as [adv | ] eqn:Eadv; [ | discriminate].
  destruct adv as [ | b | n | x | s | items | adv]; try discriminate.
  cbn [json_item attempt_bind json_get].
  destruct (dict_get "price" adv) as [price_val | ] eqn:Eprice; [ | discriminate].
  cbn [attempt_bind].
  destruct (json_to_float str_to_float price_val) as [price | e] eqn:Ep;
    [ | discriminate].
  cbn [attempt_bind].
  destruct (json_to_float str_to_float
              match dict_get "minSingleTransAmount" adv with
              | Some x => x
              | None => JInt 0
              end) as [min_amt | e]; [ | discriminate].
  cbn [attempt_bind].
  destruct (json_to_float str_to_float
              match dict_get "maxSingleTransAmount" adv with
              | Some x => x
              | None => JFloat 1e18
              end) as [max_amt | e]; [ | discriminate].
  cbn [attempt_bind].
  destruct (price <=? 0)%float eqn:Epos; [discriminate | ].
  intros _. exists entries, adv, price_val, price. repeat split; assumption.
Qed.

Lemma valid_ad_price_key (ad : Json) :
  _valid_ad str_to_float ad = true ->
  exists price, price_key str_to_float ad = Returned price /\
                (price <=? 0)%float = false.
Proof.
  intros Hv. destruct (valid_ad_inv ad Hv)
    as (entries & adv & price_val & price & -> & Hadv & Hprice & Hp & Hpos).
  exists price. split; [ | exact Hpos].
  unfold price_key. cbn [json_item]. rewrite Hadv. cbn [attempt_bind json_item].
  rewrite Hprice. exact Hp.
Qed.

(** An ad is valid only with a price that converts to a float and is not
    [<= 0], not-a-number included.  For an ad that gives its price and no
    limits this is all that is asked; a limit that is there but null
    makes the ad invalid, as does a missing or null ["adv"]. *)
Theorem valid_ad_price_and_limits :
  (forall ad, _valid_ad str_to_float ad = true ->
     exists price, price_key str_to_float ad = Returned price /\
                   (price <=? 0)%float = false) /\
  (forall entries price_val price,
     dict_get "adv" entries = Some (JDict [("price", price_val)]) ->
     json_to_float str_to_float price_val = Returned price ->
     _valid_ad str_to_float (JDict entries) = negb (price <=? 0)%float) /\
  (forall entries adv,
     dict_get "adv" entries = Some (JDict adv) ->
     dict_get "minSingleTransAmount" adv = Some JNull \/
     dict_get "maxSingleTransAmount" adv = Some JNull ->
     _valid_ad str_to_float (JDict entries) = false) /\
  (forall entries,
     dict_get "adv" entries = None \/ dict_get "adv" entries = Some JNull ->
     _valid_ad str_to_float (JDict entries) = false) /\
  (forall ad, is_dict ad = false -> _valid_ad str_to_float ad = false).
Proof.
  split; [exact valid_ad_price_key | split; [ | split; [ | split]]].
  - intros entries price_val price Hadv Hp. unfold _valid_ad.
    cbn [json_get attempt_bind]. rewrite Hadv.
    cbn [json_item json_get attempt_bind dict_get String.eqb Ascii.eqb Bool.eqb].
    rewrite Hp. cbn [attempt_bind].
    change (json_to_float str_to_float (JInt 0)) with (int_to_float 0).
    change (int_to_float 0) with (Returned 0%float : attempt float).
    cbn [attempt_bind json_to_float].
    destruct (price <=? 0)%float; reflexivity.
  - intros entries adv Hadv Hnull. unfold _valid_ad.
    cbn [json_get attempt_bind]. rewrite Hadv. cbn [json_item json_get attempt_bind].
    destruct (dict_get "price" adv) as [price_val | ]; [ | reflexivity].
    cbn [attempt_bind].
    destruct (json_to_float str_to_float price_val) as [price | e]; [ | reflexivity].
    cbn [attempt_bind].
    destruct Hnull as [Hmin | Hmax].
    + rewrite Hmin. reflexivity.
    + rewrite Hmax.
      destruct (json_to_float str_to_float
                  match dict_get "minSingleTransAmount" adv with
                  | Some x => x
                  | None => JInt 0
                  end); reflexivity.
  - intros entries [Hadv | Hadv]; unfold _valid_ad; cbn [json_get attempt_bind];
      rewrite Hadv; reflexivity.
  - intros ad Hd. destruct ad; try reflexivity. discriminate Hd.
Qed.

(** *** The retries of [_fetch_ads] *)

Lemma fetch_ads_loop_events (replies : nat -> HttpReply) (slept : attempt unit)
    (tried remaining : nat) :
  let events := snd (fetch_ads_loop replies slept tried remaining) in
  (count_event Posted events <= remaining)%nat /\
  (remaining <> O -> count_event Posted events = S (count_event Slept events)) /\
  (remaining = O -> events = []).
Proof.
  revert tried. induction remaining as [ | remaining IH]; intros tried; simpl.
  - repeat split; try reflexivity. congruence.
  - destruct (replies tried) as [e | data].
    + destruct e; try (cbn; repeat split; try lia; discriminate).
      destruct remaining as [ | remaining'].
      * cbn. repeat split; try lia; discriminate.
      * destruct slept as [u | e]; [ | cbn; repeat split; try lia; discriminate].
        specialize (IH (S tried)).
        destruct (fetch_ads_loop replies (Returned u) (S tried) (S remaining'))
          as [v events].
        cbn [snd] in *. destruct IH as [Hle [Heq _]].
        specialize (Heq ltac:(discriminate)).
        unfold count_event in *. cbn [filter length] in *.
        repeat split; try lia; discriminate.
    + destruct (json_get data "data" (JList [])); cbn;
        repeat split; try lia; discriminate.
Qed.

Lemma fetch_ads_loop_value (replies : nat -> HttpReply) (slept : attempt unit)
    (tried remaining : nat) (v : Json) :
  fst (fetch_ads_loop replies slept tried remaining) = Returned v ->
  v = JList [] \/ json_truthy v = true.
Proof.
  revert tried. induction remaining as [ | remaining IH]; intros tried; simpl.
  - intros [= <-]. left. reflexivity.
  - destruct (replies tried) as [e | data].
    + destruct e; try (intros [= <-]; left; reflexivity).
      destruct remaining as [ | remaining']; [intros [= <-]; left; reflexivity | ].
      destruct slept as [u | e]; [ | discriminate].
      specialize (IH (S tried)).
      destruct (fetch_ads_loop replies (Returned u) (S tried) (S remaining'))
        as [v' events].
      exact IH.
    + destruct (json_get data "data" (JList [])) as [v' | e];
        [ | intros [= <-]; left; reflexivity].
      cbn [fst]. intros [= <-].
      destruct (json_truthy v') eqn:E; [right; exact E | left; reflexivity].
Qed.

Lemma fetch_ads_loop_retry (replies : nat -> HttpReply) (slept : attempt unit)
    (tried failed remaining : nat) :
  (forall i, (i < failed)%nat ->
     replies (tried + i)%nat = HttpRaises Exc.RequestException) ->
  (failed < remaining)%nat ->
  failed = 0%nat \/ slept = Returned tt ->
  fetch_ads_loop replies slept tried remaining =
  (fst (fetch_ads_loop replies slept (tried + failed) (remaining - failed)),
   (concat (repeat [Posted; Slept] failed) ++
    snd (fetch_ads_loop replies slept (tried + failed) (remaining - failed)))%list).
Proof.
  revert tried remaining. induction failed as [ | failed IH];
    intros tried remaining Hfail Hlt Hslept.
  - rewrite Nat.add_0_r, Nat.sub_0_r. simpl.
    destruct (fetch_ads_loop replies slept tried remaining); reflexivity.
  - destruct Hslept as [Hzero | ->]; [discriminate Hzero | ].
    destruct remaining as [ | remaining]; [lia | ].
    cbn [fetch_ads_loop].
    rewrite <- (Nat.add_0_r tried) at 1. rewrite (Hfail 0%nat) by lia.
    destruct remaining as [ | remaining']; [lia | ].
    rewrite (IH (S tried) (S remaining')).
    + replace (S tried + failed)%nat with (tried + S failed)%nat by lia.
      replace (S remaining' - failed)%nat with (S (S remaining') - S failed)%nat by lia.
      reflexivity.
    + intros i Hi. replace (S tried + i)%nat with (tried + S i)%nat by lia.
      apply Hfail. lia.
    + lia.
    + right. reflexivity.
Qed.

(** [_fetch_ads] asks at most [max_retries] times ([MAX_RETRIES] when it
    is not given), pauses between two requests only, and asks again only
    after a [RequestException] whose pause has returned.  After [failed]
    such failures the next reply ends it: a body that is an object gives
    what it holds under ["data"] when that is true; a body that is an
    object without ["data"] or with a false one, a body that is no object,
    every other exception and the [RequestException] of the last attempt
    give the empty list.  The pause is outside the [try]: when it raises,
    as [time.sleep] does on a negative length, [_fetch_ads] raises after
    its first failed request instead of asking again.  What is returned
    is the empty list or a value that is true. *)
Theorem fetch_ads_retries (MAX_RETRIES : Z) (RETRY_SLEEP : float)
    (replies : nat -> HttpReply) (max_retries : option Z)
    (retry_sleep : option float) :
  let _retries := match max_retries with Some n => n | None => MAX_RETRIES end in
  let _sleep := match retry_sleep with Some secs => secs | None => RETRY_SLEEP end in
  let ads :=
    fst (_fetch_ads time_sleep MAX_RETRIES RETRY_SLEEP replies max_retries retry_sleep) in
  let events :=
    snd (_fetch_ads time_sleep MAX_RETRIES RETRY_SLEEP replies max_retries retry_sleep) in
  let requests (failed : nat) :=
    (concat (repeat [Posted; Slept] failed) ++ [Posted])%list in
  (Z.of_nat (count_event Posted events) <= Z.max _retries 0)%Z /\
  (0 < _retries -> count_event Posted events = S (count_event Slept events))%Z /\
  (_retries <= 0 -> ads = Returned (JList []) /\ events = [])%Z /\
  (forall v, ads = Returned v -> v = JList [] \/ json_truthy v = true) /\
  (forall failed : nat,
     (Z.of_nat failed < _retries)%Z ->
     (forall i, (i < failed)%nat -> replies i = HttpRaises Exc.RequestException) ->
     failed = 0%nat \/ time_sleep _sleep = Returned tt ->
     (forall entries data,
        replies failed = HttpJson (JDict entries) ->
        dict_get "data" entries = Some data -> json_truthy data = true ->
        ads = Returned data /\ events = requests failed) /\
     (forall entries,
        replies failed = HttpJson (JDict entries) ->
        dict_get "data" entries = None \/
        (exists data, dict_get "data" entries = Some data /\ json_truthy data = false) ->
        ads = Returned (JList []) /\ events = requests failed) /\
     (forall body,
        replies failed = HttpJson body -> (forall entries, body <> JDict entries) ->
        ads = Returned (JList []) /\ events = requests failed) /\
     (forall e,
        replies failed = HttpRaises e -> e <> Exc.RequestException ->
        ads = Returned (JList []) /\ events = requests failed) /\
     (replies failed = HttpRaises Exc.RequestException ->
      (Z.of_nat failed + 1 = _retries)%Z ->
      ads = Returned (JList []) /\ events = requests failed) /\
     (forall e,
        replies failed = HttpRaises Exc.RequestException ->
        (Z.of_nat failed + 1 < _retries)%Z -> time_sleep _sleep = Raised e ->
        ads = Raised e /\ events = requests failed)).
Proof.
  intros _retries _sleep ads events requests. subst ads events.
  unfold _fetch_ads. fold _retries. fold _sleep.
  set (slept := time_sleep _sleep).
  pose proof (fetch_ads_loop_events replies slept 0 (Z.to_nat _retries))
    as [Hle [Heq Hnil]].
  split; [lia | split; [ | split; [ | split; [ | ]]]].
  - intros Hpos. apply Heq. lia.
  - intros Hneg. replace (Z.to_nat _retries) with 0%nat by lia. split; reflexivity.
  - intros v. apply fetch_ads_loop_value.
  - intros failed Hlt Hfail Hslept.
    rewrite (fetch_ads_loop_retry replies slept 0 failed (Z.to_nat _retries)) by
      (try lia; try exact Hslept; intros i Hi; apply Hfail, Hi).
    cbn [fst snd Nat.add]. subst requests. cbn beta.
    destruct (Z.to_nat _retries - failed)%nat as [ | remaining] eqn:Erem; [lia | ].
    cbn [fetch_ads_loop].
    split; [ | split; [ | split; [ | split; [ | split]]]].
    + intros entries data Hreply Hdata Htrue. rewrite Hreply. cbn [json_get].
      rewrite Hdata. cbn [fst snd]. rewrite Htrue. split; reflexivity.
    + intros entries Hreply Hdata. rewrite Hreply. cbn [json_get].
      destruct Hdata as [-> | [data [-> Hfalse]]]; cbn [fst snd];
        [ | rewrite Hfalse]; split; reflexivity.
    + intros body Hreply Hbody. rewrite Hreply.
      destruct body; try (split; reflexivity).
      exfalso. eapply Hbody. reflexivity.
    + intros e Hreply He. rewrite Hreply.
      destruct e; try (split; reflexivity). congruence.
    + intros Hreply Hlast. rewrite Hreply.
      destruct remaining as [ | remaining']; [split; reflexivity | lia].
    + intros e Hreply Hmore He. rewrite Hreply.
      destruct remaining as [ | remaining']; [lia | ].
      rewrite He. split; reflexivity.
Qed.

End BinanceFacts.

Lemma fetch_ads_retries_witness :
  _fetch_ads ex_time_sleep 3 (-1)%float (fun _ => HttpRaises Exc.RequestException)
    None None = (Raised Exc.ValueError, [Posted]) /\
  _fetch_ads ex_time_sleep 3 5%float (fun _ => HttpRaises Exc.RequestException)
    None None = (Returned (JList []), [Posted; Slept; Posted; Slept; Posted]).
Proof.
  split.
  - pose proof (fetch_ads_retries ex_time_sleep 3 (-1)%float
                  (fun _ => HttpRaises Exc.RequestException) None None) as H.
    cbv zeta in H. destruct H as (_ & _ & _ & _ & H).
    destruct (H 0%nat eq_refl (fun i _ => eq_refl) (or_introl eq_refl))
      as (_ & _ & _ & _ & _ & Hraise).
    destruct (Hraise Exc.ValueError eq_refl eq_refl eq_refl) as [Hads Hevents].
    apply injective_projections; assumption.
  - pose proof (fetch_ads_retries ex_time_sleep 3 5%float
                  (fun _ => HttpRaises Exc.RequestException) None None) as H.
    cbv zeta in H. destruct H as (_ & _ & _ & _ & H).
    destruct (H 2%nat eq_refl (fun i _ => eq_refl) (or_intror eq_refl))
      as (_ & _ & _ & _ & Hlast & _).
    destruct (Hlast eq_refl eq_refl) as [Hads Hevents].
    apply injective_projections; assumption.
Defined.

(** *** The average of the top ads *)

Section AveragePriceFacts.

Variable str_to_float : string -> option float.
Variable py_sum : list float -> float.

Lemma price_keys_valid (items : list Json) :
  price_keys str_to_float (filter (_valid_ad str_to_float) items) =
  Returned (keyed_valid str_to_float items).
Proof.
  induction items as [ | ad items IH]; [reflexivity | ].
  cbn [filter keyed_valid flat_map]. fold (keyed_valid str_to_float items).
  destruct (_valid_ad str_to_float ad) eqn:Ev; [ | exact IH].
  destruct (valid_ad_price_key str_to_float ad Ev) as [p [Hp _]].
  cbn [price_keys]. rewrite Hp, IH. reflexivity.
Qed.

Lemma keyed_valid_prices (items : list Json) :
  map fst (keyed_valid str_to_float items) = valid_prices str_to_float items.
Proof.
  induction items as [ | ad items IH]; [reflexivity | ].
  cbn [keyed_valid valid_prices flat_map].
  fold (keyed_valid str_to_float items). fold (valid_prices str_to_float items).
  rewrite map_app, IH. f_equal.
  destruct (_valid_ad str_to_float ad); [ | reflexivity].
  destruct (price_key str_to_float ad); reflexivity.
Qed.

Lemma keyed_valid_ok (items : list Json) :
  keyed_ok str_to_float (keyed_valid str_to_float items).
Proof.
  unfold keyed_ok. induction items as [ | ad items IH]; [constructor | ].
  cbn [keyed_valid flat_map]. fold (keyed_valid str_to_float items).
  apply Forall_app. split; [ | exact IH].
  destruct (_valid_ad str_to_float ad); [ | constructor].
  destruct (price_key str_to_float ad) as [p | e] eqn:Ep; constructor;
    [exact Ep | constructor].
Qed.

Lemma insert_keyed_ok (k : float) (a : Json) (sorted : list (float * Json)) :
  price_key str_to_float a = Returned k -> keyed_ok str_to_float sorted ->
  keyed_ok str_to_float (insert_keyed k a sorted).
Proof.
  unfold keyed_ok. intros Hk Hs. induction Hs as [ | [k' a'] rest Hka Hrest IH]; simpl.
  - constructor; [exact Hk | constructor].
  - destruct (k <? k')%float.
    + constructor; [exact Hk | ]. constructor; assumption.
    + constructor; assumption.
Qed.

Lemma sort_keyed_ok (keyed : list (float * Json)) :
  keyed_ok str_to_float keyed -> keyed_ok str_to_float (sort_keyed keyed).
Proof.
  unfold sort_keyed. intros Hk.
  assert (Hgen : forall acc, keyed_ok str_to_float acc ->
            keyed_ok str_to_float
              (fold_left (fun sorted ka => insert_keyed (fst ka) (snd ka) sorted)
                 keyed acc)).
  { induction Hk as [ | [k a] rest Hka Hrest IH]; intros acc Hacc; simpl.
    - exact Hacc.
    - apply IH. apply insert_keyed_ok; assumption. }
  apply Hgen. constructor.
Qed.

Lemma price_keys_keyed_ok (keyed : list (float * Json)) :
  keyed_ok str_to_float keyed ->
  price_keys str_to_float (map snd keyed) = Returned keyed.
Proof.
  unfold keyed_ok. intros Hk. induction Hk as [ | [k a] rest Hka Hrest IH]; simpl.
  - reflexivity.
  - cbn [fst snd] in Hka. rewrite Hka, IH. reflexivity.
Qed.

Lemma insert_keyed_fst (k : float) (a : Json) (sorted : list (float * Json)) :
  map fst (insert_keyed k a sorted) = insert_float k (map fst sorted).
Proof.
  induction sorted as [ | [k' a'] rest IH]; simpl; [reflexivity | ].
  destruct (k <? k')%float; simpl; [reflexivity | ]. rewrite IH. reflexivity.
Qed.

Lemma sort_keyed_fst (keyed : list (float * Json)) :
  map fst (sort_keyed keyed) = sort_floats (map fst keyed).
Proof.
  unfold sort_keyed, sort_floats.
  assert (Hgen : forall acc,
            map fst (fold_left (fun sorted ka => insert_keyed (fst ka) (snd ka) sorted)
                       keyed acc) =
            fold_left (fun sorted k => insert_float k sorted) (map fst keyed)
              (map fst acc)).
  { induction keyed as [ | [k a] rest IH]; intros acc; simpl; [reflexivity | ].
    rewrite IH, insert_keyed_fst. reflexivity. }
  apply (Hgen []).
Qed.

Lemma keyed_ok_firstn (n : nat) (keyed : list (float * Json)) :
  keyed_ok str_to_float keyed -> keyed_ok str_to_float (firstn n keyed).
Proof.
  unfold keyed_ok. intros Hk. revert n.
  induction Hk as [ | ka rest Hka Hrest IH]; intros n.
  - destruct n; constructor.
  - destruct n; simpl; [constructor | ]. constructor; [exact Hka | apply IH].
Qed.

Lemma keyed_valid_ads (items : list Json) :
  map snd (keyed_valid str_to_float items) = filter (_valid_ad str_to_float) items.
Proof.
  induction items as [ | ad items IH]; [reflexivity | ].
  cbn [keyed_valid flat_map filter]. fold (keyed_valid str_to_float items).
  rewrite map_app, IH.
  destruct (_valid_ad str_to_float ad) eqn:Ev; [ | reflexivity].
  destruct (valid_ad_price_key str_to_float ad Ev) as [p [Hp _]].
  rewrite Hp. reflexivity.
Qed.

Lemma length_insert_float (k : float) (sorted : list float) :
  length (insert_float k sorted) = S (length sorted).
Proof.
  induction sorted as [ | k' rest IH]; simpl; [reflexivity | ].
  destruct (k <? k')%float; simpl; [reflexivity | ]. rewrite IH. reflexivity.
Qed.

Lemma length_sort_floats (l : list float) : length (sort_floats l) = length l.
Proof.
  unfold sort_floats.
  assert (Hgen : forall acc,
            length (fold_left (fun sorted k => insert_float k sorted) l acc) =
            (length l + length acc)%nat).
  { induction l as [ | k rest IH]; intros acc; simpl; [reflexivity | ].
    rewrite IH, length_insert_float. lia. }
  rewrite Hgen. simpl. lia.
Qed.

(** [average_price] from a list of ads on, through the prices of the
    valid ads only: sorted, cut to the first [take_top], and of these the
    slice [[-average_last_n:]]; [count] is the float of its length. *)
Lemma average_price_of_list (items : list Json) (take_top average_last_n : Z)
    (min_valid_ads : option Z) :
  let prices := sort_floats (valid_prices str_to_float items) in
  let top := slice_to (Z.max take_top 0) prices in
  let to_average := slice_from (- average_last_n) top in
  average_price_of_ads str_to_float py_sum (JList items) take_top average_last_n
    min_valid_ads =
  Returned
    (if match min_valid_ads with
        | Some n => (Z.of_nat (length prices) <? n)%Z
        | None => false
        end
     then None
     else if (Z.of_nat (length top) <? Z.max average_last_n 1)%Z then None
     else match to_average with
          | [] => None
          | _ =>
            match int_to_float (Z.of_nat (length to_average)) with
            | Returned count =>
              if (count =? 0)%float then None
              else Some (py_sum to_average / count)%float
            | Raised _ => None
            end
          end).
Proof.
  intros prices top to_average. unfold average_price_of_ads.
  assert (Hlen : length (filter (_valid_ad str_to_float) items) = length prices).
  { subst prices. rewrite length_sort_floats, <- keyed_valid_prices, length_map.
    rewrite <- keyed_valid_ads, length_map. reflexivity. }
  assert (Hcase : items = [] \/ json_truthy (JList items) = true)
    by (destruct items; [left | right]; reflexivity).
  destruct Hcase as [-> | Htrue].
  - cbn [json_truthy negb]. subst prices top to_average.
    change (valid_prices str_to_float []) with (@nil float).
    change (sort_floats []) with (@nil float).
    unfold slice_to. rewrite firstn_nil. cbn [length Z.of_nat].
    assert (E : (0 <? Z.max average_last_n 1)%Z = true) by (apply Z.ltb_lt; lia).
    rewrite E. destruct min_valid_ads as [n | ]; [ | reflexivity].
    destruct (0 <? n)%Z; reflexivity.
  - rewrite Htrue.
    cbn [negb json_iter attempt_bind]. rewrite Hlen.
    destruct (match min_valid_ads with
              | Some n => (Z.of_nat (length prices) <? n)%Z
              | None => false
              end); [reflexivity | ].
    unfold sort_by_price. rewrite price_keys_valid. cbn [attempt_bind].
    set (sorted := sort_keyed (keyed_valid str_to_float items)).
    assert (Hsorted : keyed_ok str_to_float sorted)
      by apply sort_keyed_ok, keyed_valid_ok.
    assert (Hprices : map fst sorted = prices).
    { subst sorted prices. rewrite sort_keyed_fst, keyed_valid_prices. reflexivity. }
    assert (Htop : slice_to (Z.max take_top 0) (map snd sorted) =
                   map snd (slice_to (Z.max take_top 0) sorted)).
    { unfold slice_to. rewrite firstn_map. reflexivity. }
    rewrite Htop.
    assert (Htopl : length (map snd (slice_to (Z.max take_top 0) sorted)) = length top).
    { subst top. rewrite <- Hprices. unfold slice_to.
      rewrite length_map, firstn_map, length_map. reflexivity. }
    rewrite Htopl.
    destruct (Z.of_nat (length top) <? Z.max average_last_n 1)%Z; [reflexivity | ].
    rewrite (price_keys_keyed_ok (slice_to (Z.max take_top 0) sorted))
      by (apply keyed_ok_firstn, Hsorted).
    cbn [attempt_bind].
    assert (Htopp : map fst (slice_to (Z.max take_top 0) sorted) = top).
    { subst top. rewrite <- Hprices. unfold slice_to. rewrite firstn_map. reflexivity. }
    rewrite Htopp. fold to_average.
    destruct to_average as [ | p rest]; [reflexivity | ].
    destruct (int_to_float (Z.of_nat (length (p :: rest)))) as [count | e];
      [ | reflexivity].
    cbn [attempt_bind].
    destruct (count =? 0)%float; reflexivity.
Qed.


Lemma valid_prices_filter (items : list Json) :
  valid_prices str_to_float (filter (_valid_ad str_to_float) items) =
  valid_prices str_to_float items.
Proof.
  induction items as [ | ad items IH]; [reflexivity | ].
  cbn [filter]. destruct (_valid_ad str_to_float ad) eqn:Ev.
  - cbn [valid_prices flat_map]. rewrite Ev.
    fold (valid_prices str_to_float (filter (_valid_ad str_to_float) items)).
    fold (valid_prices str_to_float items). rewrite IH. reflexivity.
  - cbn [valid_prices flat_map]. rewrite Ev.
    fold (valid_prices str_to_float items). exact IH.
Qed.

(** The ads that are not valid do not count, whatever the parameters
    are: [average_price] gives on a list of ads what it gives on the
    valid ones of the list, and on the list in which the ads that are not
    valid are anywhere else. *)
Theorem average_price_ignores_invalid_ads (items : list Json)
    (take_top average_last_n : Z) (min_valid_ads : option Z) :
  average_price_of_ads str_to_float py_sum (JList items) take_top average_last_n
    min_valid_ads =
  average_price_of_ads str_to_float py_sum
    (JList (filter (_valid_ad str_to_float) items)) take_top average_last_n
    min_valid_ads /\
  forall items' : list Json,
    filter (_valid_ad str_to_float) items' = filter (_valid_ad str_to_float) items ->
    average_price_of_ads str_to_float py_sum (JList items') take_top average_last_n
      min_valid_ads =
    average_price_of_ads str_to_float py_sum (JList items) take_top average_last_n
      min_valid_ads.
Proof.
  split.
  - rewrite !average_price_of_list, valid_prices_filter. reflexivity.
  - intros items' Hsame. rewrite !average_price_of_list.
    rewrite <- (valid_prices_filter items'), Hsame, valid_prices_filter. reflexivity.
Qed.

(** What ["data"] holds need not be a list.  On a value that is false
    [average_price] gives [None]; on a dict and on a text it gives [None]
    too, their keys and characters being no valid ads; on a number that
    is not zero and on [true] it raises [TypeError], the loop over the ads
    being outside the [try] blocks. *)
Theorem average_price_of_other_values (ads : Json) (take_top average_last_n : Z)
    (min_valid_ads : option Z) :
  (json_truthy ads = false \/ (exists entries, ads = JDict entries) \/
   (exists s, ads = JStr s) ->
   average_price_of_ads str_to_float py_sum ads take_top average_last_n
     min_valid_ads = Returned None) /\
  (json_truthy ads = true ->
   (exists n, ads = JInt n) \/ (exists x, ads = JFloat x) \/ (exists b, ads = JBool b) ->
   average_price_of_ads str_to_float py_sum ads take_top average_last_n
     min_valid_ads = Raised Exc.TypeError).
Proof.
  split.
  - intros [Hfalse | Hkind].
    + unfold average_price_of_ads. rewrite Hfalse. reflexivity.
    + assert (Hiter : exists items,
                json_iter ads = Returned items /\
                filter (_valid_ad str_to_float) items = []).
      { destruct Hkind as [[entries ->] | [s ->]]; eexists; (split; [reflexivity | ]).
        - induction entries as [ | kv entries IH]; [reflexivity | exact IH].
        - induction (list_ascii_of_string s) as [ | c l IH]; [reflexivity | exact IH]. }
      destruct Hiter as [items [Hiter Hvalid]].
      unfold average_price_of_ads. destruct (json_truthy ads); [ | reflexivity].
      cbn [negb]. rewrite Hiter. cbn [attempt_bind]. rewrite Hvalid.
      cbn [length Z.of_nat].
      destruct (match min_valid_ads with
                | Some n => (0 <? n)%Z
                | None => false
                end); [reflexivity | ].
      cbn [sort_by_price price_keys attempt_bind sort_keyed fold_left map].
      unfold slice_to. rewrite firstn_nil. cbn [length Z.of_nat].
      assert (E : (0 <? Z.max average_last_n 1)%Z = true) by (apply Z.ltb_lt; lia).
      rewrite E. reflexivity.
  - intros Htrue Hkind. unfold average_price_of_ads. rewrite Htrue.
    destruct Hkind as [[n ->] | [[x ->] | [b ->]]]; reflexivity.
Qed.

End AveragePriceFacts.

(** ** [clients/binance.py]: the order of the prices *)

Lemma ordered_price_cases (p : float) :
  ordered_price p ->
  Prim2SF p = S754_infinity false \/ exists m e, Prim2SF p = S754_finite false m e.
Proof.
  intros [Hpos Hnan]. rewrite float_leb_zero in Hpos. rewrite float_is_nan in Hnan.
  destruct (Prim2SF p) as [s | [ | ] | | [ | ] m e]; simpl in *; try discriminate; eauto.
Qed.

Lemma ordered_price_lt_asym (x y : float) :
  ordered_price x -> ordered_price y ->
  (x <? y)%float = true -> (y <? x)%float = false.
Proof.
  intros Hx Hy. rewrite !ltb_spec.
  destruct (ordered_price_cases x Hx) as [-> | (mx & ex & ->)];
    destruct (ordered_price_cases y Hy) as [-> | (my & ey & ->)];
    try discriminate; try reflexivity.
  intros Hlt. apply SFltb_finite in Hlt.
  destruct (SFltb (S754_finite false my ey) (S754_finite false mx ex)) eqn:E;
    [ | reflexivity].
  apply SFltb_finite in E. unfold lex_lt in *. lia.
Qed.

Lemma ordered_price_lt_trans (x y z : float) :
  ordered_price x -> ordered_price y -> ordered_price z ->
  (x <? y)%float = true -> (y <? z)%float = true -> (x <? z)%float = true.
Proof.
  intros Hx Hy Hz. rewrite !ltb_spec.
  destruct (ordered_price_cases x Hx) as [-> | (mx & ex & ->)];
    destruct (ordered_price_cases y Hy) as [-> | (my & ey & ->)];
    destruct (ordered_price_cases z Hz) as [-> | (mz & ez & ->)];
    try discriminate; try reflexivity.
  intros H1 H2. apply SFltb_finite in H1, H2. apply SFltb_finite.
  unfold lex_lt in *. lia.
Qed.

Lemma ordered_price_eq (x y : float) :
  ordered_price x -> ordered_price y ->
  (x <? y)%float = false -> (y <? x)%float = false -> x = y.
Proof.
  intros Hx Hy. rewrite !ltb_spec. intros H1 H2. apply Prim2SF_inj.
  destruct (ordered_price_cases x Hx) as [Ex | (mx & ex & Ex)];
    destruct (ordered_price_cases y Hy) as [Ey | (my & ey & Ey)];
    rewrite Ex, Ey in *; try discriminate; try reflexivity.
  destruct (lex_trichotomy mx my ex ey) as [Hlt | [[-> ->] | Hgt]].
  - apply SFltb_finite in Hlt. congruence.
  - reflexivity.
  - apply SFltb_finite in Hgt. congruence.
Qed.

Lemma ordered_price_le (x y : float) :
  ordered_price x -> ordered_price y ->
  ((x <? y)%float = true -> (x <=? y)%float = true) /\
  ((x <? y)%float = false -> (y <=? x)%float = true).
Proof.
  intros Hx Hy. rewrite !ltb_spec, !leb_spec.
  destruct (ordered_price_cases x Hx) as [-> | (mx & ex & ->)];
    destruct (ordered_price_cases y Hy) as [-> | (my & ey & ->)];
    try (split; (discriminate || reflexivity)).
  unfold SFltb, SFleb.
  assert (Hanti : SFcompare (S754_finite false my ey) (S754_finite false mx ex) =
                  option_map CompOpp
                    (SFcompare (S754_finite false mx ex) (S754_finite false my ey))).
  { cbn [SFcompare option_map]. rewrite (Z.compare_antisym ex ey).
    destruct (ex ?= ey)%Z; cbn [CompOpp]; try reflexivity.
    rewrite (Pos.compare_cont_antisym mx my Eq). reflexivity. }
  rewrite Hanti.
  destruct (SFcompare (S754_finite false mx ex) (S754_finite false my ey)) as [[ | | ] | ];
    split; try discriminate; reflexivity.
Qed.

Lemma insert_float_perm (k : float) (sorted : list float) :
  Permutation (insert_float k sorted) (k :: sorted).
Proof.
  induction sorted as [ | k' rest IH]; simpl; [apply Permutation_refl | ].
  destruct (k <? k')%float; [apply Permutation_refl | ].
  apply perm_trans with (k' :: k :: rest); [ | apply perm_swap].
  apply perm_skip, IH.
Qed.

Lemma sort_floats_fold_perm (l acc : list float) :
  Permutation (fold_left (fun sorted k => insert_float k sorted) l acc) (l ++ acc).
Proof.
  revert acc. induction l as [ | k rest IH]; intros acc; simpl.
  - apply Permutation_refl.
  - eapply perm_trans; [apply IH | ].
    eapply perm_trans; [apply Permutation_app_head, insert_float_perm | ].
    apply Permutation_sym, Permutation_middle.
Qed.

Lemma sort_floats_perm (l : list float) : Permutation (sort_floats l) l.
Proof.
  unfold sort_floats. eapply perm_trans; [apply sort_floats_fold_perm | ].
  rewrite app_nil_r. apply Permutation_refl.
Qed.

Lemma insert_float_sorted (k : float) (sorted : list float) :
  ordered_price k -> Forall ordered_price sorted ->
  Sorted (fun a b => (a <=? b)%float = true) sorted ->
  Sorted (fun a b => (a <=? b)%float = true) (insert_float k sorted).
Proof.
  intros Hk Hall Hs. induction Hs as [ | k' rest Hrest IH Hhd]; simpl.
  - constructor; constructor.
  - inversion Hall as [ | ? ? Hk' Hall']; subst.
    destruct (ordered_price_le k k' Hk Hk') as [Hlt Hge].
    destruct (k <? k')%float eqn:E.
    + constructor; [constructor; assumption | ]. constructor. apply Hlt. reflexivity.
    + constructor; [apply IH, Hall' | ].
      destruct rest as [ | k'' rest']; simpl.
      * constructor. apply Hge. reflexivity.
      * destruct (k <? k'')%float.
        -- constructor. apply Hge. reflexivity.
        -- inversion Hhd; subst. constructor. assumption.
Qed.

Lemma insert_float_ordered (k : float) (sorted : list float) :
  ordered_price k -> Forall ordered_price sorted ->
  Forall ordered_price (insert_float k sorted).
Proof.
  intros Hk Hall. induction Hall as [ | k' rest Hk' Hrest IH]; simpl.
  - constructor; [exact Hk | constructor].
  - destruct (k <? k')%float.
    + constructor; [exact Hk | ]. constructor; assumption.
    + constructor; assumption.
Qed.

Lemma sort_floats_sorted (l : list float) :
  Forall ordered_price l ->
  Sorted (fun a b => (a <=? b)%float = true) (sort_floats l).
Proof.
  unfold sort_floats. intros Hl.
  assert (Hgen : forall acc,
            Forall ordered_price acc ->
            Sorted (fun a b => (a <=? b)%float = true) acc ->
            Sorted (fun a b => (a <=? b)%float = true)
              (fold_left (fun sorted k => insert_float k sorted) l acc)).
  { induction Hl as [ | k rest Hk Hrest IH]; intros acc Hacc Hs; simpl; [exact Hs | ].
    apply IH; [apply insert_float_ordered | apply insert_float_sorted]; assumption. }
  apply Hgen; constructor.
Qed.

Lemma insert_float_comm (x y : float) (acc : list float) :
  ordered_price x -> ordered_price y -> Forall ordered_price acc ->
  insert_float y (insert_float x acc) = insert_float x (insert_float y acc).
Proof.
  intros Hx Hy Hacc. induction Hacc as [ | k rest Hk Hrest IH]; simpl.
  - destruct (y <? x)%float eqn:Eyx; destruct (x <? y)%float eqn:Exy; try reflexivity.
    + rewrite (ordered_price_lt_asym y x Hy Hx Eyx) in Exy. discriminate.
    + rewrite (ordered_price_eq x y Hx Hy Exy Eyx). reflexivity.
  - destruct (x <? k)%float eqn:Exk; destruct (y <? k)%float eqn:Eyk; simpl.
    + rewrite Exk, Eyk.
      destruct (y <? x)%float eqn:Eyx; destruct (x <? y)%float eqn:Exy; try reflexivity.
      * rewrite (ordered_price_lt_asym y x Hy Hx Eyx) in Exy. discriminate.
      * rewrite (ordered_price_eq x y Hx Hy Exy Eyx). reflexivity.
    + rewrite Exk, Eyk.
      destruct (y <? x)%float eqn:Eyx; [ | reflexivity].
      rewrite (ordered_price_lt_trans y x k Hy Hx Hk Eyx Exk) in Eyk. discriminate.
    + rewrite Exk, Eyk.
      destruct (x <? y)%float eqn:Exy; [ | reflexivity].
      rewrite (ordered_price_lt_trans x y k Hx Hy Hk Exy Eyk) in Exk. discriminate.
    + rewrite Exk, Eyk, IH. reflexivity.
Qed.

Lemma sort_floats_permuted (l l' : list float) :
  Permutation l l' -> Forall ordered_price l ->
  sort_floats l = sort_floats l'.
Proof.
  unfold sort_floats. intros Hperm.
  assert (Hgen : forall acc,
            Forall ordered_price l -> Forall ordered_price acc ->
            fold_left (fun sorted k => insert_float k sorted) l acc =
            fold_left (fun sorted k => insert_float k sorted) l' acc).
  { induction Hperm as [ | x l l' Hperm IH | x y l | l l' l'' H1 IH1 H2 IH2];
      intros acc Hl Hacc; simpl.
    - reflexivity.
    - inversion Hl; subst. apply IH; [assumption | ].
      apply insert_float_ordered; assumption.
    - inversion Hl as [ | ? ? Hy Hl']; subst. inversion Hl' as [ | ? ? Hx Hl'']; subst.
      rewrite (insert_float_comm y x acc Hy Hx Hacc). reflexivity.
    - rewrite IH1 by assumption. apply IH2; [ | assumption].
      apply (Permutation_Forall H1), Hl. }
  intros Hl. apply Hgen; [exact Hl | constructor].
Qed.

Lemma ordered_price_le_not_gt (x y : float) :
  ordered_price x -> ordered_price y ->
  (x <=? y)%float = true -> (y <? x)%float = false.
Proof.
  intros Hx Hy. rewrite ltb_spec, leb_spec.
  destruct (ordered_price_cases x Hx) as [-> | (mx & ex & ->)];
    destruct (ordered_price_cases y Hy) as [-> | (my & ey & ->)];
    try discriminate; try reflexivity.
  unfold SFltb, SFleb.
  assert (Hanti : SFcompare (S754_finite false my ey) (S754_finite false mx ex) =
                  option_map CompOpp
                    (SFcompare (S754_finite false mx ex) (S754_finite false my ey))).
  { cbn [SFcompare option_map]. rewrite (Z.compare_antisym ex ey).
    destruct (ex ?= ey)%Z; cbn [CompOpp]; try reflexivity.
    rewrite (Pos.compare_cont_antisym mx my Eq). reflexivity. }
  rewrite Hanti.
  destruct (SFcompare (S754_finite false mx ex) (S754_finite false my ey)) as [[ | | ] | ];
    try discriminate; reflexivity.
Qed.

Lemma insert_float_least (k : float) (sorted : list float) :
  ordered_price k -> Forall ordered_price sorted ->
  Sorted (fun a b => (a <=? b)%float = true) (k :: sorted) ->
  insert_float k sorted = k :: sorted.
Proof.
  intros Hk Hall. revert k Hk.
  induction Hall as [ | k' rest Hk' Hrest IH]; intros k Hk Hs; [reflexivity | ].
  cbn [insert_float]. destruct (k <? k')%float eqn:Elt; [reflexivity | ].
  apply Sorted_inv in Hs. destruct Hs as [Hs Hhd].
  apply HdRel_inv in Hhd.
  assert (Ekk : k = k').
  { apply ordered_price_eq; try assumption.
    apply ordered_price_le_not_gt; assumption. }
  subst k'. rewrite (IH k Hk Hs). reflexivity.
Qed.

Lemma sort_floats_cons (k : float) (l : list float) :
  ordered_price k -> Forall ordered_price l ->
  sort_floats (k :: l) = insert_float k (sort_floats l).
Proof.
  intros Hk Hl.
  rewrite (sort_floats_permuted (k :: l) (l ++ [k])).
  - unfold sort_floats. rewrite fold_left_app. reflexivity.
  - apply Permutation_cons_append.
  - constructor; assumption.
Qed.

Lemma sort_floats_of_sorted (l : list float) :
  Forall ordered_price l ->
  Sorted (fun a b => (a <=? b)%float = true) l ->
  sort_floats l = l.
Proof.
  intros Hl Hs. induction Hl as [ | k rest Hk Hrest IH]; [reflexivity | ].
  rewrite (sort_floats_cons k rest Hk Hrest).
  rewrite (IH (proj1 (Sorted_inv Hs))).
  apply insert_float_least; assumption.
Qed.

Section PriceOrderFacts.

Variable str_to_float : string -> option float.
Variable py_sum : list float -> float.

Lemma valid_prices_positive (items : list Json) :
  Forall (fun p => (p <=? 0)%float = false) (valid_prices str_to_float items).
Proof.
  induction items as [ | ad items IH]; [constructor | ].
  cbn [valid_prices flat_map]. fold (valid_prices str_to_float items).
  apply Forall_app. split; [ | exact IH].
  destruct (_valid_ad str_to_float ad) eqn:Ev; [ | constructor].
  destruct (valid_ad_price_key str_to_float ad Ev) as [p [Hp Hpos]].
  rewrite Hp. constructor; [exact Hpos | constructor].
Qed.

(** The prices that [average_price] cuts and averages are the prices of
    the valid ads, each as often as it is there, none of them [<= 0], and,
    when none of them is not-a-number, in ascending order: with five or
    more, the average of the defaults is that of the third, fourth and
    fifth lowest price. *)
Theorem sorted_prices_are_ascending (items : list Json) :
  let prices := sort_floats (valid_prices str_to_float items) in
  Permutation prices (valid_prices str_to_float items) /\
  Forall (fun p => (p <=? 0)%float = false) prices /\
  (Forall (fun p => is_nan p = false) (valid_prices str_to_float items) ->
   Sorted (fun a b => (a <=? b)%float = true) prices).
Proof.
  intros prices. pose proof (sort_floats_perm (valid_prices str_to_float items)) as Hperm.
  pose proof (valid_prices_positive items) as Hpos.
  split; [exact Hperm | split].
  - apply (Permutation_Forall (Permutation_sym Hperm)), Hpos.
  - intros Hnan. apply sort_floats_sorted.
    rewrite Forall_forall in *. intros p Hp. split; [apply Hpos, Hp | apply Hnan, Hp].
Qed.

(** With the defaults [take_top=5] and [average_last_n=3], [average_price]
    on a list of ads counts the valid ads only: with fewer than three of
    them, or fewer than [min_valid_ads], it gives [None].  Otherwise, when
    no price of a valid ad is not-a-number, it gives the sum, divided by
    three, of the last three of the five lowest prices: of the third,
    fourth and fifth price in ascending order when there are five or
    more, the two lowest ones being left out. *)
Theorem average_price_with_defaults (items : list Json) (min_valid_ads : option Z) :
  let valid := valid_prices str_to_float items in
  let result :=
    average_price_of_ads str_to_float py_sum (JList items) 5 3 min_valid_ads in
  ((length valid < 3)%nat -> result = Returned None) /\
  (forall n, min_valid_ads = Some n -> (Z.of_nat (length valid) < n)%Z ->
     result = Returned None) /\
  (forall prices : list float,
     (forall n, min_valid_ads = Some n -> (n <= Z.of_nat (length valid))%Z) ->
     Forall (fun p => is_nan p = false) valid ->
     Permutation prices valid ->
     Sorted (fun a b => (a <=? b)%float = true) prices ->
     (forall p1 p2 p3, prices = [p1; p2; p3] ->
        result = Returned (Some (py_sum [p1; p2; p3] / 3)%float)) /\
     (forall p1 p2 p3 p4, prices = [p1; p2; p3; p4] ->
        result = Returned (Some (py_sum [p2; p3; p4] / 3)%float)) /\
     (forall p1 p2 p3 p4 p5 rest, prices = p1 :: p2 :: p3 :: p4 :: p5 :: rest ->
        result = Returned (Some (py_sum [p3; p4; p5] / 3)%float))).
Proof.
  intros valid result. subst result.
  rewrite (average_price_of_list str_to_float py_sum items 5 3 min_valid_ads).
  fold valid. rewrite (length_sort_floats valid).
  change (Z.max 5 0) with 5%Z. change (Z.max 3 1) with 3%Z. change (- (3))%Z with (-3)%Z.
  split; [ | split].
  - intros Hlt.
    assert (Htop : (Z.of_nat (length (slice_to 5 (sort_floats valid))) <? 3)%Z = true).
    { apply Z.ltb_lt. unfold slice_to. rewrite length_firstn, length_sort_floats. lia. }
    rewrite Htop. destruct min_valid_ads as [n | ]; [ | reflexivity].
    destruct (Z.of_nat (length valid) <? n)%Z; reflexivity.
  - intros n -> Hlt. apply Z.ltb_lt in Hlt. rewrite Hlt. reflexivity.
  - intros prices Hmin Hnan Hperm Hsorted.
    assert (Hord : Forall ordered_price valid).
    { pose proof (valid_prices_positive items) as Hpos. fold valid in Hpos.
      rewrite Forall_forall in *. intros p Hp. split; [apply Hpos, Hp | apply Hnan, Hp]. }
    assert (Hsame : sort_floats valid = prices).
    { rewrite <- (sort_floats_permuted prices valid Hperm)
        by apply (Permutation_Forall (Permutation_sym Hperm)), Hord.
      apply sort_floats_of_sorted; [ | exact Hsorted].
      apply (Permutation_Forall (Permutation_sym Hperm)), Hord. }
    rewrite Hsame.
    assert (Hfew : match min_valid_ads with
                   | Some n => (Z.of_nat (length valid) <? n)%Z
                   | None => false
                   end = false).
    { destruct min_valid_ads as [n | ]; [ | reflexivity].
      apply Z.ltb_ge, Hmin. reflexivity. }
    rewrite Hfew. split; [ | split].
    + intros p1 p2 p3 ->. reflexivity.
    + intros p1 p2 p3 p4 ->. reflexivity.
    + intros p1 p2 p3 p4 p5 rest ->. reflexivity.
Qed.

(** The order in which the ads come does not matter, when no price is
    not-a-number: [average_price] gives the same on a list of ads and on
    every list that has the same ads in another order. *)
Theorem average_price_order_of_ads (items items' : list Json)
    (take_top average_last_n : Z) (min_valid_ads : option Z) :
  Permutation items items' ->
  Forall (fun p => is_nan p = false) (valid_prices str_to_float items) ->
  average_price_of_ads str_to_float py_sum (JList items') take_top average_last_n
    min_valid_ads =
  average_price_of_ads str_to_float py_sum (JList items) take_top average_last_n
    min_valid_ads.
Proof.
  intros Hperm Hnan. rewrite !average_price_of_list.
  assert (Hprices : Permutation (valid_prices str_to_float items)
                      (valid_prices str_to_float items')).
  { unfold valid_prices. apply Permutation_flat_map, Hperm. }
  assert (Hord : Forall ordered_price (valid_prices str_to_float items)).
  { pose proof (valid_prices_positive items) as Hpos.
    rewrite Forall_forall in *. intros p Hp. split; [apply Hpos, Hp | apply Hnan, Hp]. }
  rewrite (sort_floats_permuted _ _ Hprices Hord). reflexivity.
Qed.

End PriceOrderFacts.

Lemma average_price_with_defaults_witness :
  average_price ex_str_to_float sum_left_to_right ex_time_sleep 3 5
    (binance_replies ex_network "MXN" "USDT" "BUY") 5 3 None None None =
  Returned (Some (sum_left_to_right [18.7; 18.8; 18.9] / 3)%float).
Proof.
  refine (proj2 (proj2 (proj2 (proj2
            (average_price_with_defaults ex_str_to_float sum_left_to_right ex_ads None))
            [18.5; 18.6; 18.7; 18.8; 18.9]%float _ _ _ _))
            18.5%float 18.6%float 18.7%float 18.8%float 18.9%float [] eq_refl).
  - intros n Hn. discriminate Hn.
  - repeat constructor.
  - vm_compute.
    apply perm_trans with [18.5; 18.9; 18.7; 18.6; 18.8]%float; [ | apply perm_swap].
    apply perm_skip.
    apply perm_trans with [18.6; 18.9; 18.7; 18.8]%float.
    + apply perm_skip.
      apply perm_trans with [18.7; 18.9; 18.8]%float; [ | apply perm_swap].
      apply perm_skip, perm_swap.
    + apply perm_trans with [18.9; 18.6; 18.7; 18.8]%float; [apply perm_swap | ].
      apply perm_skip, perm_swap.
  - repeat constructor.
Defined.

Lemma average_price_order_of_ads_witness :
  average_price_of_ads ex_str_to_float sum_left_to_right (JList (rev ex_ads)) 5 3 None =
  average_price_of_ads ex_str_to_float sum_left_to_right (JList ex_ads) 5 3 None.
Proof.
  apply (average_price_order_of_ads ex_str_to_float sum_left_to_right ex_ads (rev ex_ads)).
  - apply Permutation_rev.
  - repeat constructor.
Defined.

(** ** The run of [cli.py] on a network *)

Section RunFacts.

Variable str_to_float : string -> option float.
Variable py_sum : list float -> float.
Variable time_sleep : float -> attempt unit.

Lemma collect_rows_providers (providers : Providers float) (args : Args)
    (fiats : list string) (rows : list (Row float)) :
  collect_rows providers args fiats = Returned rows ->
  Forall (fun r => exists fiat buy sell fx,
            In fiat fiats /\
            providers_return providers fiat (args_asset args) (args_ref_fiat args)
              (args_min_valid_ads args) buy sell fx /\
            r = row_of fiat (args_asset args) (args_ref_fiat args)
                  (args_decimals args) buy sell fx) rows.
Proof.
  revert rows. induction fiats as [ | fiat rest IH]; intros rows; simpl.
  - intros [= <-]. constructor.
  - destruct (_collect_for_fiat providers fiat (args_asset args) (args_ref_fiat args)
                (args_min_valid_ads args) (args_decimals args)) as [row | e] eqn:Erow;
      cbn [attempt_bind]; [ | discriminate].
    destruct (collect_rows providers args rest) as [rows' | e]; cbn [attempt_bind];
      [ | discriminate].
    intros [= <-]. specialize (IH rows' eq_refl).
    destruct (collect_returned_inv _ _ _ _ _ _ _ Erow) as (buy & sell & fx & Hret & ->).
    constructor.
    + exists fiat, buy, sell, fx. split; [left; reflexivity | ]. split; [exact Hret | reflexivity].
    + rewrite Forall_forall in *. intros r Hr.
      destruct (IH r Hr) as (f & b & s & x & Hin & Hret' & ->).
      exists f, b, s, x. split; [right; exact Hin | ]. split; [exact Hret' | reflexivity].
Qed.

(** Without both credentials of XE no row can be complete: when [main]
    returns, every row has failed, with the error of the missing quotes
    or of the missing rates, and the exit status is 1, whatever Binance
    answers. *)
Theorem main_without_xe_credentials (MAX_RETRIES : Z) (RETRY_SLEEP : float)
    (XE_API_ACCOUNT_ID XE_API_KEY : option string) (net : Network)
    (DEFAULT_FIATS : list string) (args : Args) (rows : list (Row float))
    (status : Z) :
  is_configured XE_API_ACCOUNT_ID XE_API_KEY = false ->
  main (http_providers str_to_float py_sum time_sleep MAX_RETRIES RETRY_SLEEP
          XE_API_ACCOUNT_ID XE_API_KEY net)
    DEFAULT_FIATS args = Returned (rows, status) ->
  status = 1%Z /\
  Forall (fun r => row_failed r /\
                   (dict_get "error" r = Some (RStr "insufficient_p2p_data") \/
                    dict_get "error" r = Some (RStr "insufficient_fx_data")) /\
                   dict_get "fx" r = Some RNone) rows.
Proof.
  intros Hconf Hmain.
  set (providers := http_providers str_to_float py_sum time_sleep MAX_RETRIES RETRY_SLEEP
                      XE_API_ACCOUNT_ID XE_API_KEY net) in *.
  unfold main in Hmain.
  pose proof (parse_fiats_not_empty DEFAULT_FIATS (args_fiats args)) as Hne.
  destruct (collect_rows providers args (_parse_fiats DEFAULT_FIATS (args_fiats args)))
    as [rows' | e] eqn:Erows; cbn [attempt_bind] in Hmain; [ | discriminate].
  injection Hmain as <- Hstatus.
  pose proof (collect_rows_providers providers args _ rows' Erows) as Hrows.
  assert (Hall : Forall (fun r => (row_failed r /\
                   (dict_get "error" r = Some (RStr "insufficient_p2p_data") \/
                    dict_get "error" r = Some (RStr "insufficient_fx_data")) /\
                   dict_get "fx" r = Some RNone) /\
                   row_truthy (dict_get "error" r) = true) rows').
  { rewrite Forall_forall in *. intros r Hr.
    destruct (Hrows r Hr) as (fiat & buy & sell & fx & _ & (_ & _ & Hfx) & ->).
    assert (Hnone : fx = None).
    { unfold providers, http_providers in Hfx. cbn [xe_fetch_fx_rate] in Hfx.
      unfold fetch_fx_rate in Hfx. rewrite Hconf in Hfx. cbn [negb] in Hfx.
      congruence. }
    subst fx. unfold row_of, row_failed.
    destruct buy; destruct sell; cbn;
      repeat split; try (eexists; split; [reflexivity | discriminate]); tauto. }
  split.
  - rewrite <- Hstatus. destruct rows' as [ | r rest].
    + apply collect_rows_returned in Erows. destruct Erows as [Hmap _].
      destruct (_parse_fiats DEFAULT_FIATS (args_fiats args)); [congruence | discriminate].
    + inversion Hall as [ | ? ? [_ Ht] _]; subst. cbn [existsb]. rewrite Ht. reflexivity.
  - rewrite Forall_forall in *. intros r Hr. apply (Hall r Hr).
Qed.

(** With fewer than three valid ads on one of the two sides the row of a
    fiat fails for missing quotes, whatever the other side and XE give:
    when the first reply of Binance for the side is an object with a list
    of ads under ["data"] and the row is returned, its error is
    ["insufficient_p2p_data"]. *)
Theorem few_valid_ads_fail_the_row (MAX_RETRIES : Z) (RETRY_SLEEP : float)
    (XE_API_ACCOUNT_ID XE_API_KEY : option string) (net : Network)
    (fiat asset ref_fiat side : string) (min_valid_ads decimals : option Z)
    (entries : Dict Json) (items : list Json) (r : Row float) :
  (0 < MAX_RETRIES)%Z ->
  side = "BUY" \/ side = "SELL" ->
  binance_replies net fiat asset side 0%nat = HttpJson (JDict entries) ->
  dict_get "data" entries = Some (JList items) ->
  (length (valid_prices str_to_float items) < 3)%nat ->
  _collect_for_fiat
    (http_providers str_to_float py_sum time_sleep MAX_RETRIES RETRY_SLEEP
       XE_API_ACCOUNT_ID XE_API_KEY net)
    fiat asset ref_fiat min_valid_ads decimals = Returned r ->
  row_failed r /\ dict_get "error" r = Some (RStr "insufficient_p2p_data").
Proof.
  intros Hretries Hside Hreply Hdata Hfew Hrow.
  assert (Hnone : average_price str_to_float py_sum time_sleep MAX_RETRIES RETRY_SLEEP
                    (binance_replies net fiat asset side) 5 3 min_valid_ads None None =
                  Returned None).
  { unfold average_price, _fetch_ads.
    destruct (Z.to_nat MAX_RETRIES) as [ | remaining] eqn:E; [lia | ].
    cbn [fetch_ads_loop]. rewrite Hreply. cbn [json_get]. rewrite Hdata. cbn [fst].
    assert (Hlist : forall l,
              length (valid_prices str_to_float l) = length (valid_prices str_to_float items) ->
              average_price_of_ads str_to_float py_sum (JList l) 5 3 min_valid_ads =
              Returned None).
    { intros l Hl. rewrite average_price_of_list.
      set (prices := sort_floats (valid_prices str_to_float l)).
      assert (Hlen : (length prices < 3)%nat)
        by (unfold prices; rewrite length_sort_floats; lia).
      assert (Htop : (Z.of_nat (length (slice_to (Z.max 5 0) prices)) <? Z.max 3 1)%Z
                     = true).
      { apply Z.ltb_lt. unfold slice_to. rewrite length_firstn.
        change (Z.max 3 1) with 3%Z. lia. }
      rewrite Htop. destruct min_valid_ads as [n | ]; [ | reflexivity].
      destruct (Z.of_nat (length prices) <? n)%Z; reflexivity. }
    destruct (json_truthy (JList items)) eqn:Et.
    - apply Hlist. reflexivity.
    - destruct items; [ | discriminate Et]. apply Hlist. reflexivity. }
  destruct (collect_returned_inv _ _ _ _ _ _ _ Hrow)
    as (buy & sell & fx & (Hb & Hs & Hfx) & ->).
  unfold http_providers in Hb, Hs. cbn [binance_average_price] in Hb, Hs.
  assert (Hmissing : buy = None \/ sell = None).
  { destruct Hside as [-> | ->]; [left | right]; congruence. }
  unfold row_of, row_failed.
  destruct Hmissing as [-> | ->]; [ | destruct buy];
    (split; [split; [reflexivity | split; [reflexivity | ]] | reflexivity]);
    eexists; (split; [reflexivity | discriminate]).
Qed.

End RunFacts.

Lemma few_valid_ads_fail_the_row_witness :
  exists r : Row float,
    _collect_for_fiat
      (http_providers ex_str_to_float sum_left_to_right ex_time_sleep 3 5 (Some "id") (Some "key")
         (mkNetwork
            (fun _ _ _ _ => HttpJson (JDict [("data", JList [ex_ad 18.5%float; JNull])]))
            (xe_reply ex_network)))
      "MXN" "USDT" "USD" None None = Returned r /\
    row_failed r /\ dict_get "error" r = Some (RStr "insufficient_p2p_data").
Proof.
  eexists. split; [vm_compute; reflexivity | ].
  refine (few_valid_ads_fail_the_row ex_str_to_float sum_left_to_right ex_time_sleep 3 5
            (Some "id") (Some "key")
            (mkNetwork
               (fun _ _ _ _ => HttpJson (JDict [("data", JList [ex_ad 18.5%float; JNull])]))
               (xe_reply ex_network))
            "MXN" "USDT" "USD" "BUY" None None
            [("data", JList [ex_ad 18.5%float; JNull])] [ex_ad 18.5%float; JNull] _
            _ (or_introl eq_refl) eq_refl eq_refl _ _).
  - reflexivity.
  - vm_compute. lia.
  - vm_compute. reflexivity.
Defined.


Lemma main_without_xe_credentials_witness :
  exists rows : list (Row float),
    main (http_providers ex_str_to_float sum_left_to_right ex_time_sleep 3 5 None
            (Some "key") ex_network)
      [] ex_args = Returned (rows, 1%Z) /\
    Forall (fun r => row_failed r /\
                     (dict_get "error" r = Some (RStr "insufficient_p2p_data") \/
                      dict_get "error" r = Some (RStr "insufficient_fx_data")) /\
                     dict_get "fx" r = Some RNone) rows.
Proof.
  eexists. split; [vm_compute; reflexivity | ].
  refine (proj2 (main_without_xe_credentials ex_str_to_float sum_left_to_right ex_time_sleep 3 5
                   None (Some "key") ex_network [] ex_args _ 1%Z eq_refl _)).
  vm_compute. reflexivity.
Defined.

(** ** [clients/coinapi.py]: the rate and its inverse *)

Local Open Scope Z_scope.

(** One over a finite positive float is a positive float: it does not
    vanish. *)
Lemma SFdiv_one_positive (my : positive) (ey : Z) :
  valid_binary (S754_finite false my ey) = true ->
  has_sign false
    (SF64div (S754_finite false 4503599627370496 (-52)) (S754_finite false my ey)).
Proof.
  intros Hvy.
  pose proof (valid_finite _ _ _ Hvy) as [Hey _].
  pose proof (valid_mantissa _ _ _ Hvy) as [Hmy _].
  destruct (SFdiv_finite_scaled false false 4503599627370496 my (-52) ey)
    as [e1 [M1 [l1 [Hloc [He1 [HM1 [Hcan Heq]]]]]]].
  rewrite Heq. cbn [xorb].
  pose proof (round_nearest_even_bounds M1 l1) as HM2.
  assert (HM1pos : 1 <= M1).
  { pow2_const. destruct Hcan as [ | He]; [lia | ].
    destruct (Z_le_gt_dec 1 M1) as [ | Hz]; [assumption | exfalso].
    assert (HM0 : M1 = 0) by lia.
    destruct Hloc as [_ [[_ Hhi] _]]. rewrite HM0, He in Hhi.
    replace (Z.max 0 (- (-52 - ey - -1074))) with 0 in Hhi by lia.
    replace (Z.max 0 (-52 - ey - -1074)) with (1022 - ey) in Hhi by lia.
    assert (HW : 2 ^ 51 <= 2 ^ (1022 - ey)) by (apply Z.pow_le_mono_r; lia).
    change (2 ^ 51) with 2251799813685248 in HW.
    rewrite Z.pow_0_r in Hhi. nia. }
  apply (magnitude_sign _ (Zdigits2 (round_nearest_even M1 l1) + e1)).
  apply round_tail_magnitude; [lia | ].
  pose proof (Zdigits2_pos (round_nearest_even M1 l1) ltac:(lia)). lia.
Qed.

Local Open Scope Q_scope.

Lemma float_inverse_positive (rate : float) :
  (0 <? rate)%float = true -> (rate <? infinity)%float = true ->
  (0 <? 1 / rate)%float = true.
Proof.
  intros Hpos Hfin. destruct (finite_positive_float rate Hpos Hfin) as [m [e E]].
  pose proof (Prim2SF_valid rate) as Hv. rewrite E in Hv.
  rewrite ltb_spec, Prim2SF_zero, div_spec, Prim2SF_one, E.
  apply SFltb_zero_sign, SFdiv_one_positive, Hv.
Qed.

Section CoinapiFacts.

Variable str_to_float : string -> option float.

(** With a key, on a body that is an object whose ["rate"] converts to
    the float [rate]: a rate that is [<= 0] gives [None]; without
    [invert] every other rate is returned as it is, not-a-number
    included, so what is returned is never [<= 0]; with [invert] a finite
    rate gives one over it, which is above zero, not-a-number gives
    [None], and the infinite rate gives zero. *)
Theorem get_exchange_rate_sign (COINAPI_KEY : option string)
    (entries : Dict Json) (rate_val : Json) (rate : float) :
  coinapi_is_configured COINAPI_KEY = true ->
  dict_get "rate" entries = Some rate_val ->
  json_to_float str_to_float rate_val = Returned rate ->
  ((rate <=? 0)%float = true ->
   forall invert,
     get_exchange_rate str_to_float COINAPI_KEY invert (HttpJson (JDict entries)) =
     Returned None) /\
  ((rate <=? 0)%float = false ->
   get_exchange_rate str_to_float COINAPI_KEY false (HttpJson (JDict entries)) =
   Returned (Some rate)) /\
  ((0 <? rate)%float = true -> (rate <? infinity)%float = true ->
   get_exchange_rate str_to_float COINAPI_KEY true (HttpJson (JDict entries)) =
   Returned (Some (1 / rate)%float) /\
   (0 <? 1 / rate)%float = true) /\
  (is_nan rate = true ->
   get_exchange_rate str_to_float COINAPI_KEY true (HttpJson (JDict entries)) =
   Returned None) /\
  (rate = infinity ->
   get_exchange_rate str_to_float COINAPI_KEY true (HttpJson (JDict entries)) =
   Returned (Some 0%float)).
Proof.
  intros Hconf Hrate Hr.
  assert (Hsafe : _safe_float str_to_float rate_val = Returned (Some rate)).
  { unfold _safe_float. rewrite Hr. destruct rate_val; try reflexivity.
    simpl in Hr. discriminate Hr. }
  assert (Hbody : forall invert,
            get_exchange_rate str_to_float COINAPI_KEY invert (HttpJson (JDict entries)) =
            if (rate <=? 0)%float then Returned None
            else if invert
                 then Returned (if (0 <? rate)%float then Some (1 / rate)%float else None)
                 else Returned (Some rate)).
  { intros invert. unfold get_exchange_rate. rewrite Hconf. cbn [negb json_get attempt_bind].
    rewrite Hrate, Hsafe. cbn [attempt_bind].
    destruct (rate <=? 0)%float; [reflexivity | ].
    destruct invert; reflexivity. }
  split; [ | split; [ | split; [ | split]]].
  - intros Hle invert. rewrite Hbody, Hle. reflexivity.
  - intros Hle. rewrite Hbody, Hle. reflexivity.
  - intros Hpos Hfin.
    assert (Hle : (rate <=? 0)%float = false)
      by (rewrite float_leb_zero; rewrite float_ltb_zero in Hpos;
          destruct (Prim2SF rate) as [[] | [] | | [] ? ?];
          try discriminate Hpos; reflexivity).
    rewrite Hbody, Hle, Hpos.
    split; [reflexivity | apply float_inverse_positive; assumption].
  - intros Hnan. rewrite Hbody.
    rewrite float_is_nan in Hnan. rewrite float_leb_zero, float_ltb_zero.
    destruct (Prim2SF rate); try discriminate. reflexivity.
  - intros ->. rewrite Hbody. reflexivity.
Qed.

End CoinapiFacts.

Lemma get_exchange_rate_sign_witness :
  get_exchange_rate ex_str_to_float (Some "key") true
    (HttpJson (JDict [("rate", JFloat ex_fx)])) =
  Returned (Some (1 / ex_fx)%float) /\
  (0 <? 1 / ex_fx)%float = true.
Proof.
  exact (proj1 (proj2 (proj2 (get_exchange_rate_sign ex_str_to_float (Some "key")
                                [("rate", JFloat ex_fx)] (JFloat ex_fx) ex_fx
                                eq_refl eq_refl eq_refl)))
           eq_refl eq_refl).
Defined.

(** ** A reply of Binance whose ["data"] is a number *)

Section BrokenReplyFacts.

Variable str_to_float : string -> option float.
Variable py_sum : list float -> float.
Variable time_sleep : float -> attempt unit.

(** No handler stands between the loop over the ads and the command
    line: when the first reply of Binance for the BUY side of the first
    fiat is an object whose ["data"] is a number that is not zero, or
    [true], the run ends with [TypeError] and no row is printed, whatever
    the other replies are. *)
Theorem number_as_ads_ends_the_run (MAX_RETRIES : Z) (RETRY_SLEEP : float)
    (XE_API_ACCOUNT_ID XE_API_KEY : option string) (net : Network)
    (DEFAULT_FIATS : list string) (args : Args)
    (fiat : string) (rest : list string) (entries : Dict Json) (data : Json) :
  (0 < MAX_RETRIES)%Z ->
  _parse_fiats DEFAULT_FIATS (args_fiats args) = fiat :: rest ->
  binance_replies net fiat (args_asset args) "BUY" 0%nat = HttpJson (JDict entries) ->
  dict_get "data" entries = Some data ->
  json_truthy data = true ->
  (exists n, data = JInt n) \/ (exists x, data = JFloat x) \/ (exists b, data = JBool b) ->
  main (http_providers str_to_float py_sum time_sleep MAX_RETRIES RETRY_SLEEP
          XE_API_ACCOUNT_ID XE_API_KEY net)
    DEFAULT_FIATS args = Raised Exc.TypeError.
Proof.
  intros Hretries Hfiats Hreply Hdata Htrue Hkind.
  assert (Hbuy : average_price str_to_float py_sum time_sleep MAX_RETRIES RETRY_SLEEP
                   (binance_replies net fiat (args_asset args) "BUY") 5 3
                   (args_min_valid_ads args) None None = Raised Exc.TypeError).
  { unfold average_price, _fetch_ads.
    destruct (Z.to_nat MAX_RETRIES) as [ | remaining] eqn:E; [lia | ].
    cbn [fetch_ads_loop]. rewrite Hreply. cbn [json_get]. rewrite Hdata, Htrue.
    cbn [fst attempt_bind]. unfold average_price_of_ads. rewrite Htrue.
    destruct Hkind as [[n ->] | [[x ->] | [b ->]]]; reflexivity. }
  unfold main. rewrite Hfiats. cbn [collect_rows].
  unfold _collect_for_fiat, http_providers. cbn [binance_average_price].
  rewrite Hbuy. reflexivity.
Qed.

End BrokenReplyFacts.

Lemma number_as_ads_ends_the_run_witness :
  main (http_providers ex_str_to_float sum_left_to_right ex_time_sleep 3 5 (Some "id") (Some "key")
          (mkNetwork (fun _ _ _ _ => HttpJson (JDict [("data", JInt 7)]))
             (xe_reply ex_network)))
    [] ex_args = Raised Exc.TypeError.
Proof.
  refine (number_as_ads_ends_the_run ex_str_to_float sum_left_to_right ex_time_sleep 3 5
            (Some "id") (Some "key")
            (mkNetwork (fun _ _ _ _ => HttpJson (JDict [("data", JInt 7)]))
               (xe_reply ex_network))
            [] ex_args "MXN" ["BRL"] [("data", JInt 7)] (JInt 7)
            _ _ eq_refl eq_refl eq_refl (or_introl (ex_intro _ 7%Z eq_refl))).
  - reflexivity.
  - vm_compute. reflexivity.
Defined.
